(** * ThreadGenie: the pixel engine and the edit session

    A shallow embedding of [src/utils/imageUtils.ts] (resizeImage,
    removeBackground), [src/services/geminiService.ts] (the three generative
    calls and extractImageFromResponse) and the [App] component (its state,
    its handlers and the [disabled] attributes of its controls), followed by
    the properties of the specification stated over that embedding. *)

From Stdlib Require Import ZArith QArith Qround Qpower Qminmax Qreals.
From Stdlib Require Import Lia Psatz Bool String Ascii Reals.
From Stdlib Require Floats.
From stdpp Require Import base list.
From Stdlib Require Import ZifyNat.

Ltac Zify.zify_post_hook ::= Z.to_euclidean_division_equations.

Local Open Scope Z_scope.

(** ** JavaScript numbers in the range of image sizes and colour distances

    [Number] is IEEE 754 binary64 with round to nearest, ties to even.  A
    value is kept as the rational it denotes; [round] gives the nearest
    number with a 53-bit significand.  The exponent range is not modelled:
    image sizes, their quotients and the distances between colours stay far
    inside it. *)

Module Double.

Local Open Scope Q_scope.

(** [floor (log2 q)] for a positive [q]. *)
Definition ilog2 (q : Q) : Z :=
  let k := (Z.log2 (Qnum q) - Z.log2 (Zpos (Qden q)))%Z in
  if Qle_bool (2 ^ k) q then k else (k - 1)%Z.

(** Nearest integer, ties to even. *)
Definition roundEven (q : Q) : Z :=
  let f := Qfloor q in
  match Qcompare (q - inject_Z f) (1 # 2) with
  | Lt => f
  | Gt => (f + 1)%Z
  | Eq => if Z.even f then f else (f + 1)%Z
  end.

Definition roundPos (q : Q) : Q :=
  let e := (ilog2 q - 52)%Z in
  Qred (inject_Z (roundEven (q / 2 ^ e)) * 2 ^ e).

Definition round (q : Q) : Q :=
  match Qnum q with
  | Z0 => 0
  | Zpos _ => roundPos q
  | Zneg _ => - roundPos (- q)
  end.

(** [x / y] and [x * y] on numbers. *)
Definition div (x y : Q) : Q := round (x / y).
Definition mul (x y : Q) : Q := round (x * y).

(** Half a unit in the last place, relative to the value. *)
Definition ulp53 : Q := 1 # (2 ^ 53).

(** [Math.sqrt(s)] for an integer [s] that a number holds exactly
    ([0 <= s < 2^53]): the square root rounded to the nearest number with a
    53-bit significand.  With [4^k <= s < 4^(k+1)] the root lies in
    [2^k, 2^(k+1)), where the numbers are the multiples of [2^(k-52)]; the
    nearest multiple is found on the integer square root of [s * 4^(52-k)].
    The square root of an integer is never half way between two numbers, so
    no tie arises. *)
Definition sqrt (s : Z) : Q :=
  if (s <=? 0)%Z then 0
  else
    let k := (Z.log2 s / 2)%Z in
    let c := (52 - k)%Z in
    let scaled := (s * 4 ^ c)%Z in
    let n := Z.sqrt scaled in
    let nearest := if (n <? scaled - n * n)%Z then (n + 1)%Z else n in
    inject_Z nearest / inject_Z (2 ^ c).

End Double.

(** ** Pixel engine: removeBackground *)

Module Pixel.

(** [ImageData]: [data] is the flat RGBA byte array ([Uint8ClampedArray]) that
    [ctx.getImageData(0, 0, canvas.width, canvas.height)] returns, four
    entries per pixel, each in 0..255. *)
Record ImageData := mkImageData {
  width : Z;
  height : Z;
  data : list Z
}.

(** The value under the square root of
    [Math.sqrt(Math.pow(r - targetR, 2) + Math.pow(g - targetG, 2) + Math.pow(b - targetB, 2))]. *)
Definition sqdist (tr tg tb r g b : Z) : Z :=
  (r - tr) ^ 2 + (g - tg) ^ 2 + (b - tb) ^ 2.

(** The Euclidean distance itself, as a real number. *)
Definition distance (tr tg tb r g b : Z) : R :=
  sqrt (IZR (sqdist tr tg tb r g b)).

(** [diff]: the distance as the code computes it.  The channels are bytes,
    so the differences, their squares and the sum are exact; the square
    root is rounded. *)
Definition diff (tr tg tb r g b : Z) : Q :=
  Double.sqrt (sqdist tr tg tb r g b).

(** The test [diff < tolerance].  The tolerance is any finite number, kept
    as the rational it denotes.  ([NaN] and [-Infinity] make the test false
    for every pixel, as a tolerance of 0 does, and [Infinity] makes it true
    for every pixel, as a tolerance of 442 does.)  For an integer tolerance
    the rounding of the square root does not show: the test is the
    comparison of the Euclidean distance with the tolerance
    ([near_integer], [near_distance]). *)
Definition near (tolerance : Q) (tr tg tb r g b : Z) : bool :=
  negb (Qle_bool tolerance (diff tr tg tb r g b)).

(** One iteration of the body of the [for] loop at index [i]: it reads
    [data[i]], [data[i + 1]], [data[i + 2]] and, when the pixel is near the
    target, writes [data[i + 3] = 0].  A read past the end is [undefined],
    the difference is then [NaN] and the comparison false; a write past the
    end of a typed array is ignored, which is what list insertion does. *)
Definition loopBody (tolerance : Q) (tr tg tb : Z) (i : nat) (d : list Z) : list Z :=
  match d !! i, d !! (i + 1)%nat, d !! (i + 2)%nat with
  | Some r, Some g, Some b =>
      if near tolerance tr tg tb r g b then <[(i + 3)%nat := 0]> d else d
  | _, _, _ => d
  end.

(** [for (let i = 0; i < data.length; i += 4) { ... }], with the number of
    remaining iterations bounded by [fuel]. *)
Fixpoint loopFrom (fuel : nat) (tolerance : Q) (tr tg tb : Z) (i : nat) (d : list Z)
  : list Z :=
  match fuel with
  | O => d
  | S fuel' =>
      if (i <? length d)%nat
      then loopFrom fuel' tolerance tr tg tb (i + 4)%nat
             (loopBody tolerance tr tg tb i d)
      else d
  end.

(** The whole loop over a buffer: [length d] iterations always suffice
    ([loopFrom_fuel]). *)
Definition keyOut (tolerance : Q) (tr tg tb : Z) (d : list Z) : list Z :=
  loopFrom (length d) tolerance tr tg tb 0 d.

(** The pixel pass of [removeBackground]: the target colour is the constant
    white of the source, the canvas takes the image's width and height. *)
Definition targetR : Z := 255.
Definition targetG : Z := 255.
Definition targetB : Z := 255.

Definition removeBackgroundData (tolerance : Q) (d : list Z) : list Z :=
  keyOut tolerance targetR targetG targetB d.

Definition removeBackgroundPixels (tolerance : Q) (img : ImageData) : ImageData :=
  {| width := width img;
     height := height img;
     data := removeBackgroundData tolerance (data img) |}.

(** What the loop leaves at index [j], read off the input buffer. *)
Definition expected (tolerance : Q) (tr tg tb : Z) (d : list Z) (j : nat) : option Z :=
  match d !! j with
  | None => None
  | Some v =>
      if (j mod 4 =? 3)%nat then
        match d !! (j - 3)%nat, d !! (j - 2)%nat, d !! (j - 1)%nat with
        | Some r, Some g, Some b =>
            if near tolerance tr tg tb r g b then Some 0 else Some v
        | _, _, _ => Some v
        end
      else Some v
  end.

(** Pixel [p] of a buffer, when it is complete. *)
Definition pixel (d : list Z) (p : nat) : option (Z * Z * Z * Z) :=
  match d !! (4 * p)%nat, d !! (4 * p + 1)%nat,
        d !! (4 * p + 2)%nat, d !! (4 * p + 3)%nat with
  | Some r, Some g, Some b, Some a => Some (r, g, b, a)
  | _, _, _, _ => None
  end.

(** [ctx.putImageData(imageData, 0, 0)] on a canvas of the size of the
    image data, as [canvas.toDataURL] and [ctx.getImageData] read the canvas
    afterwards.  The bitmap of a canvas holds the colours premultiplied by
    alpha: a pixel written with alpha 0 holds no colour and reads
    [(0, 0, 0, 0)]; a pixel written opaque reads as written; a pixel written
    with any other alpha keeps its alpha, and each colour channel comes back
    as the browser rounds it, [blend channel alpha]. *)
Definition stored (blend : Z -> Z -> Z) (p : Z * Z * Z * Z) : Z * Z * Z * Z :=
  let '(r, g, b, a) := p in
  if a =? 0 then (0, 0, 0, 0)
  else if a =? 255 then (r, g, b, a)
  else (blend r a, blend g a, blend b a, a).

Fixpoint putPixels (blend : Z -> Z -> Z) (d : list Z) : list Z :=
  match d with
  | r :: g :: b :: a :: rest =>
      let '(r', g', b', a') := stored blend (r, g, b, a) in
      r' :: g' :: b' :: a' :: putPixels blend rest
  | _ => d
  end.

Definition putImageData (blend : Z -> Z -> Z) (img : ImageData) : ImageData :=
  {| width := width img;
     height := height img;
     data := putPixels blend (data img) |}.

(** A two-pixel image: one white pixel, one dark pixel, both opaque. *)
Definition sample : ImageData :=
  {| width := 2; height := 1;
     data := [255; 255; 255; 255; 10; 20; 30; 255] |}.

(** A one-pixel image, next to white: its distance to white is the square
    root of 2. *)
Definition speck : ImageData :=
  {| width := 1; height := 1; data := [254; 254; 255; 255] |}.

End Pixel.

(** ** The pieces of JavaScript the component relies on *)

Module Js.

(** Strings are sequences of code units; the model keeps those below 256. *)

(** White space and line terminators of [String.prototype.trim] among the
    code units below 256: TAB, LF, VT, FF, CR, SP and NBSP. *)
Definition isWhiteSpace (c : ascii) : bool :=
  let n := nat_of_ascii c in
  ((n =? 9) || (n =? 10) || (n =? 11) || (n =? 12) || (n =? 13) ||
   (n =? 32) || (n =? 160))%nat.

Fixpoint trimStart (s : string) : string :=
  match s with
  | EmptyString => EmptyString
  | String c s' => if isWhiteSpace c then trimStart s' else s
  end.

Definition reverse (s : string) : string :=
  string_of_list_ascii (rev (list_ascii_of_string s)).

Definition trimEnd (s : string) : string :=
  reverse (trimStart (reverse s)).

Definition trim (s : string) : string := trimEnd (trimStart s).

(** [s.split(sep)] for a one-character separator. *)
Fixpoint split (sep : ascii) (s : string) : list string :=
  match s with
  | EmptyString => [EmptyString]
  | String c s' =>
      if Ascii.eqb c sep then EmptyString :: split sep s'
      else match split sep s' with
           | cur :: rest => String c cur :: rest
           | [] => [String c EmptyString]
           end
  end.

(** [dataUrl.split(',')[1]]: [undefined] when there is no comma. *)
Definition afterComma (dataUrl : string) : option string :=
  split "," dataUrl !! 1%nat.

(** Truthiness of a [string | null | undefined] and of a string. *)
Definition nonEmpty (s : string) : bool := negb (s =? "")%string.

Definition truthy (v : option string) : bool :=
  match v with
  | Some s => nonEmpty s
  | None => false
  end.

(** A value inside a template literal: [undefined] prints as its name. *)
Definition interpolate (v : option string) : string :=
  match v with
  | Some s => s
  | None => "undefined"
  end.

(** [`data:${mime};base64,${payload}`] *)
Definition dataUrlOf (mime : string) (payload : option string) : string :=
  ("data:" ++ mime ++ ";base64," ++ interpolate payload)%string.

(** A promise as the awaiting code observes it. *)
Inductive Promise (A : Type) : Type :=
| Resolved (a : A)
| Rejected (reason : string)
| Unsettled.

Arguments Resolved {A} a.
Arguments Rejected {A} reason.
Arguments Unsettled {A}.

(** How a call ends: it returns, it throws, or it stays suspended at an
    [await] whose promise never settles. *)
Inductive Result (A : Type) : Type :=
| Returned (a : A)
| Thrown (reason : string)
| Suspended.

Arguments Returned {A} a.
Arguments Thrown {A} reason.
Arguments Suspended {A}.

Definition settle {A} (p : Promise A) : Result A :=
  match p with
  | Resolved a => Returned a
  | Rejected e => Thrown e
  | Unsettled => Suspended
  end.

End Js.

(** ** Pixel engine: resizeImage *)

Module Resize.

(** [x *= maxDimension / y] on numbers holding the integers [x],
    [maxDimension] and [y]: the quotient is rounded, then the product. *)
Definition scaleTo (x maxDimension y : Z) : Q :=
  Double.mul (inject_Z x) (Double.div (inject_Z maxDimension) (inject_Z y)).

(** [width] and [height] after the two [if]s of [img.onload], as numbers:
    [height *= maxDimension / width; width = maxDimension] when the image is
    wider than tall and too wide, [width *= maxDimension / height;
    height = maxDimension] when it is not wider than tall and too tall. *)
Definition scaledSize (w h maxDimension : Z) : Q * Q :=
  let width := inject_Z w in
  let height := inject_Z h in
  let maxD := inject_Z maxDimension in
  if h <? w then
    if maxDimension <? w
    then (maxD, scaleTo h maxDimension w)
    else (width, height)
  else
    if maxDimension <? h
    then (scaleTo w maxDimension h, maxD)
    else (width, height).

(** [canvas.width = width; canvas.height = height]: the attribute is an
    unsigned long, the assignment drops the fraction. *)
Definition canvasSize (w h maxDimension : Z) : Z * Z :=
  let '(width, height) := scaledSize w h maxDimension in
  (Qfloor width, Qfloor height).

End Resize.

(** The same computation on the kernel's binary64 numbers, to compare the
    rounding above with on concrete sizes. *)

Module Binary64.
Import Floats.
Local Open Scope Q_scope.

(** The rational a finite binary64 number denotes. *)
Definition ofFloat (f : float) : option Q :=
  match Prim2SF f with
  | S754_zero _ => Some 0
  | S754_finite sign mantissa exponent =>
      let magnitude := inject_Z (Zpos mantissa) * 2 ^ exponent in
      Some (if sign then - magnitude else magnitude)
  | _ => None
  end.

Definition toFloat (z : Z) : float := PrimFloat.of_uint63 (Uint63.of_Z z).

(** [x * (maxDimension / y)] in binary64 is the number [Resize.scaleTo]
    gives. *)
Definition agrees (x maxDimension y : Z) : bool :=
  match ofFloat (toFloat x * (toFloat maxDimension / toFloat y))%float with
  | Some q => Qeq_bool q (Resize.scaleTo x maxDimension y)
  | None => false
  end.

(** [Math.sqrt(sum) < t] in binary64 is true at [sum = t * t - 1] and false
    at [sum = t * t]. *)
Definition thresholdAgrees (t : Z) : bool :=
  PrimFloat.ltb (PrimFloat.sqrt (toFloat (t * t - 1))) (toFloat t) &&
  negb (PrimFloat.ltb (PrimFloat.sqrt (toFloat (t * t))) (toFloat t)).

(** [Math.sqrt(s)] in binary64 is the number [Double.sqrt] gives. *)
Definition sqrtAgrees (s : Z) : bool :=
  match ofFloat (PrimFloat.sqrt (toFloat s)) with
  | Some q => Qeq_bool q (Double.sqrt s)
  | None => false
  end.

(** [sqrtAgrees] on every integer from 0 up to, and without, [bound]. *)
Definition sqrtAgreesBelow (bound : positive) : bool :=
  snd (Pos.iter (fun '(s, ok) => ((s + 1)%Z, ok && sqrtAgrees s)) (0%Z, true) bound).

End Binary64.

(** ** The generative client (geminiService.ts) *)

Module Gemini.
Import Js.
Local Open Scope string_scope.

(** The argument of [ai.models.generateContent]: the model, the inline
    image ([data] is [undefined] when the caller had none), its MIME type,
    the instruction and the optional [imageConfig.imageSize]. *)
Record Request := mkRequest {
  model : string;
  inlineData : option string;
  inlineMime : string;
  text : string;
  imageSize : option string
}.

(** A part of a candidate's content: [inlineData.data] when the part has
    inline data, nothing when it is text. *)
Inductive Part :=
| TextPart (t : string)
| InlinePart (data : option string).

(** A candidate's [content], with its [parts] when it has them. *)
Record Content := mkContent {
  parts : option (list Part)
}.

(** A candidate, with its [content] when it has one (a blocked answer has
    none). *)
Record Candidate := mkCandidate {
  content : option Content
}.

(** [response.candidates] *)
Record Response := mkResponse {
  candidates : option (list Candidate)
}.

(** The [TypeError] of reading a property of [undefined] or of iterating
    over [undefined]; its message is the engine's, and no caller reads it. *)
Definition typeError : string := "TypeError".

Definition EMBROIDERY_PROMPT : string :=
  "
Transform this image into a high-quality, realistic embroidery patch. 
The design should simulate stitched thread textures with high detail. 
Use vibrant, thread-like colors. 
CRITICAL: The background MUST be a solid, flat, pure white color (#FFFFFF) completely distinct from the subject to allow for easy background removal.
Ensure the edges of the patch are clean and simulate a stitched border.
".

Definition UPSCALE_PROMPT : string :=
  "Upscale this image to 4K resolution. Enhance details, sharpness, and texture clarity while strictly preserving the original content and style.".

Definition editPromptText (prompt : string) : string :=
  ("Edit this image based on the following instruction: " ++ prompt ++
   ". Maintain the high quality. If the user asks for embroidery, use a realistic stitched texture style.")%string.

(** [for (const part of parts) if (part.inlineData && part.inlineData.data) return ...] *)
Fixpoint firstInlineData (parts : list Part) : option string :=
  match parts with
  | [] => None
  | InlinePart (Some d) :: rest =>
      if nonEmpty d then Some d else firstInlineData rest
  | _ :: rest => firstInlineData rest
  end.

(** [candidates[0].content.parts] throws a [TypeError] when the candidate
    has no content, and so does the [for ... of] over missing parts. *)
Definition extractImageFromResponse (response : Response) : Result string :=
  match candidates response with
  | None | Some [] => Thrown "No candidates returned from Gemini API"
  | Some (candidate :: _) =>
      match content candidate with
      | None => Thrown typeError
      | Some candidateContent =>
          match parts candidateContent with
          | None => Thrown typeError
          | Some contentParts =>
              match firstInlineData contentParts with
              | Some d => Returned d
              | None =>
                  Thrown "No image data found in response. The model may have returned text only."
              end
          end
      end
  end.

Definition embroideryRequest (base64Image : option string) (mimeType : string) : Request :=
  {| model := "gemini-2.5-flash-image";
     inlineData := base64Image; inlineMime := mimeType;
     text := EMBROIDERY_PROMPT; imageSize := None |}.

Definition editRequest (base64Image : option string) (mimeType prompt : string) : Request :=
  {| model := "gemini-2.5-flash-image";
     inlineData := base64Image; inlineMime := mimeType;
     text := editPromptText prompt; imageSize := None |}.

Definition upscaleRequest (base64Image : option string) (mimeType : string) : Request :=
  {| model := "gemini-3-pro-image-preview";
     inlineData := base64Image; inlineMime := mimeType;
     text := UPSCALE_PROMPT; imageSize := Some "4K" |}.

End Gemini.

(** ** What the component runs against *)

Module Env.
Import Js.
Local Open Scope string_scope.

(** A [File] is identified by its content. *)
Definition File : Type := string.

(** [window.aistudio]; each method may be missing. *)
Record AIStudio := mkAIStudio {
  hasSelectedApiKey : option (Promise bool);
  openSelectKey : option (Promise unit)
}.

(** The browser and the network during one operation. *)
Record World := mkWorld {
  (** [reader.readAsDataURL(file)] followed by the decoding of the image:
      [img.onload] with the decoded image, [img.onerror], or neither (the
      reader's own failure is not listened to). *)
  readFile : File -> Promise Pixel.ImageData;
  (** [img.src = dataUrl]: [img.onload] with the pixels [getImageData]
      returns after [drawImage(img, 0, 0)], or [img.onerror]. *)
  loadImage : string -> Promise Pixel.ImageData;
  (** [canvas.getContext('2d')] is not null. *)
  hasContext : bool;
  (** The pixels [drawImage(img, 0, 0, width, height)] leaves on a canvas
      of the given size. *)
  resample : Pixel.ImageData -> Z -> Z -> list Z;
  (** The colour channel a canvas reads back for a channel written, by
      [putImageData], with an alpha that is neither 0 nor 255. *)
  blend : Z -> Z -> Z;
  (** The payload of [canvas.toDataURL(type, ...)] for a canvas that reads
      as the given pixels. *)
  encode : string -> Pixel.ImageData -> string;
  (** [ai.models.generateContent(request)]. *)
  generateContent : Gemini.Request -> Promise Gemini.Response;
  aistudio : option AIStudio
}.

(** [canvas.toDataURL(type)]: ["data:,"] for a canvas without pixels, else
    the data URL of the encoding in the requested type. *)
Definition toDataURL (w : World) (type : string) (canvas : Pixel.ImageData) : string :=
  if ((Pixel.width canvas <=? 0) || (Pixel.height canvas <=? 0))%Z
  then "data:,"
  else "data:" ++ type ++ ";base64," ++ encode w type canvas.

(** The value [resizeImage] resolves with. *)
Record Resized := mkResized {
  base64 : option string;
  resizedMime : string
}.

Definition resizeImage (w : World) (file : File) (maxDimension : Z) : Promise Resized :=
  match readFile w file with
  | Resolved img =>
      let '(width, height) :=
        Resize.canvasSize (Pixel.width img) (Pixel.height img) maxDimension in
      if hasContext w then
        let canvas :=
          {| Pixel.width := width; Pixel.height := height;
             Pixel.data := resample w img width height |} in
        let mimeType := "image/jpeg" in
        let dataUrl := toDataURL w mimeType canvas in
        Resolved {| base64 := afterComma dataUrl; resizedMime := mimeType |}
      else Rejected "Could not get canvas context"
  | Rejected e => Rejected e
  | Unsettled => Unsettled
  end.

(** [ctx.getImageData(0, 0, canvas.width, canvas.height)] throws an
    [IndexSizeError] when the width or the height is zero: thrown inside
    [img.onload], it reaches neither [resolve] nor [reject], and the promise
    never settles.  Otherwise the loop runs over the pixels, [putImageData]
    writes them back and the canvas is encoded as PNG. *)
Definition removeBackground (w : World) (dataUrl : string) (tolerance : Q) : Promise string :=
  match loadImage w dataUrl with
  | Resolved img =>
      if hasContext w then
        if ((Pixel.width img <=? 0) || (Pixel.height img <=? 0))%Z then Unsettled
        else
          Resolved
            (toDataURL w "image/png"
               (Pixel.putImageData (blend w) (Pixel.removeBackgroundPixels tolerance img)))
      else Rejected "Could not get canvas context"
  | Rejected e => Rejected e
  | Unsettled => Unsettled
  end.

End Env.

(** ** The edit session (the App component) *)

Module App.
Import Js Gemini Env.
Local Open Scope string_scope.

Inductive ProcessingStatus :=
| Idle | Uploading | Processing | RemovingBackground | Upscaling | Complete | Error.

(** The [useState] cells of the component. *)
Record State := mkState {
  status : ProcessingStatus;
  originalImage : option string;
  currentImage : option string;
  previewImage : option string;
  editPrompt : string;
  mimeType : string;
  error : option string;
  history : list string
}.

(** The initial values passed to [useState]. *)
Definition initial : State :=
  {| status := Idle; originalImage := None; currentImage := None;
     previewImage := None; editPrompt := ""; mimeType := "image/jpeg";
     error := None; history := [] |}.

(** The component's state together with the requests that have been handed
    to [generateContent] so far. *)
Record Machine := mkMachine {
  ui : State;
  sent : list Request
}.

Definition start : Machine := {| ui := initial; sent := [] |}.

(** *** Handlers as state transformers

    A handler is an [async] function: it writes state through the setters,
    may throw, and may stay suspended at an [await]. *)
Definition M (A : Type) : Type := Machine -> Machine * Result A.

Definition ret {A} (a : A) : M A := fun m => (m, Returned a).

Definition bind {A B} (c : M A) (k : A -> M B) : M B :=
  fun m =>
    match c m with
    | (m', Returned a) => k a m'
    | (m', Thrown e) => (m', Thrown e)
    | (m', Suspended) => (m', Suspended)
    end.

Notation "'let*' x := c 'in' k" := (bind c (fun x => k))
  (at level 10, x name, c at level 100, k at level 200).
Notation "c ;;; k" := (bind c (fun _ => k))
  (at level 100, k at level 200, right associativity).

(** [await p] *)
Definition await {A} (p : Promise A) : M A := fun m => (m, settle p).

(** [try { body } catch (err) { handler }] *)
Definition tryCatch {A} (body : M A) (handler : string -> M A) : M A :=
  fun m =>
    match body m with
    | (m', Thrown e) => handler e m'
    | r => r
    end.

Definition modify (f : State -> State) : M unit :=
  fun m => ({| ui := f (ui m); sent := sent m |}, Returned tt).

Definition setStatus (v : ProcessingStatus) : M unit :=
  modify (fun s =>
    {| status := v; originalImage := originalImage s;
       currentImage := currentImage s; previewImage := previewImage s;
       editPrompt := editPrompt s; mimeType := mimeType s;
       error := error s; history := history s |}).

Definition setOriginalImage (v : option string) : M unit :=
  modify (fun s =>
    {| status := status s; originalImage := v;
       currentImage := currentImage s; previewImage := previewImage s;
       editPrompt := editPrompt s; mimeType := mimeType s;
       error := error s; history := history s |}).

Definition setCurrentImage (v : option string) : M unit :=
  modify (fun s =>
    {| status := status s; originalImage := originalImage s;
       currentImage := v; previewImage := previewImage s;
       editPrompt := editPrompt s; mimeType := mimeType s;
       error := error s; history := history s |}).

Definition setPreviewImage (v : option string) : M unit :=
  modify (fun s =>
    {| status := status s; originalImage := originalImage s;
       currentImage := currentImage s; previewImage := v;
       editPrompt := editPrompt s; mimeType := mimeType s;
       error := error s; history := history s |}).

Definition setEditPrompt (v : string) : M unit :=
  modify (fun s =>
    {| status := status s; originalImage := originalImage s;
       currentImage := currentImage s; previewImage := previewImage s;
       editPrompt := v; mimeType := mimeType s;
       error := error s; history := history s |}).

Definition setMimeType (v : string) : M unit :=
  modify (fun s =>
    {| status := status s; originalImage := originalImage s;
       currentImage := currentImage s; previewImage := previewImage s;
       editPrompt := editPrompt s; mimeType := v;
       error := error s; history := history s |}).

Definition setError (v : option string) : M unit :=
  modify (fun s =>
    {| status := status s; originalImage := originalImage s;
       currentImage := currentImage s; previewImage := previewImage s;
       editPrompt := editPrompt s; mimeType := mimeType s;
       error := v; history := history s |}).

(** [setHistory(prev => f(prev))]; [setHistory(v)] is the constant case. *)
Definition setHistory (f : list string -> list string) : M unit :=
  modify (fun s =>
    {| status := status s; originalImage := originalImage s;
       currentImage := currentImage s; previewImage := previewImage s;
       editPrompt := editPrompt s; mimeType := mimeType s;
       error := error s; history := f (history s) |}).

(** *** The three calls of geminiService.ts

    Each builds its request, awaits [generateContent] and extracts the image;
    its [catch] logs and rethrows, which leaves the outcome as it is. *)
Definition reply (w : World) (request : Request) : Result string :=
  match settle (generateContent w request) with
  | Returned response => extractImageFromResponse response
  | Thrown e => Thrown e
  | Suspended => Suspended
  end.

Definition generate (w : World) (request : Request) : M string :=
  fun m =>
    ({| ui := ui m; sent := (sent m ++ [request])%list |}, reply w request).

Definition generateEmbroidery (w : World) (base64Image : option string) (mime : string) : M string :=
  generate w (embroideryRequest base64Image mime).

Definition editImage (w : World) (base64Image : option string) (mime prompt : string) : M string :=
  generate w (editRequest base64Image mime prompt).

Definition upscaleImage (w : World) (base64Image : option string) (mime : string) : M string :=
  generate w (upscaleRequest base64Image mime).

(** *** The handlers

    A handler closes over the state of the render it was created in: [snap]
    is that state, read wherever the source reads a state variable. *)

Definition uploadFailed : string :=
  "Failed to process image. Please try another file.".
Definition transformFailed : string :=
  "Something went wrong during the transformation. Please try again.".
Definition editFailed : string :=
  "Failed to edit image. The prompt might be against safety policies.".
Definition upscaleFailed : string :=
  "Failed to upscale image. Ensure you have a valid API key selected for the Pro model.".

Definition handleImageSelect (w : World) (file : File) : M unit :=
  tryCatch
    (setStatus Uploading ;;;
     setError None ;;;
     let* r := await (resizeImage w file 1024) in
     let dataUrl := dataUrlOf (resizedMime r) (base64 r) in
     setOriginalImage (base64 r) ;;;
     setPreviewImage (Some dataUrl) ;;;
     setCurrentImage (Some dataUrl) ;;;
     setMimeType (resizedMime r) ;;;
     setHistory (fun _ => [dataUrl]) ;;;
     setStatus Idle)
    (fun _ =>
     setError (Some uploadFailed) ;;;
     setStatus Error).

Definition updateHistory (newImageUrl : string) : M unit :=
  setHistory (fun prev => (prev ++ [newImageUrl])%list) ;;;
  setCurrentImage (Some newImageUrl).

(** [currentImage.split(',')[1]] *)
Definition base64Input (currentImage : string) : option string :=
  afterComma currentImage.

Definition handleEmbroideryTransform (w : World) (snap : State) : M unit :=
  match currentImage snap with
  | Some current =>
      if negb (nonEmpty current) || negb (truthy (originalImage snap)) then ret tt
      else
        tryCatch
          (setStatus Processing ;;;
           setError None ;;;
           let* generatedBase64 :=
             generateEmbroidery w (base64Input current) (mimeType snap) in
           let generatedDataUrl := "data:image/jpeg;base64," ++ generatedBase64 in
           setStatus RemovingBackground ;;;
           let* transparentDataUrl := await (removeBackground w generatedDataUrl 30) in
           updateHistory transparentDataUrl ;;;
           setStatus Complete)
          (fun _ =>
           setError (Some transformFailed) ;;;
           setStatus Error)
  | None => ret tt
  end.

Definition handleMagicEdit (w : World) (snap : State) : M unit :=
  match currentImage snap with
  | Some current =>
      if negb (nonEmpty current) || negb (nonEmpty (trim (editPrompt snap))) then ret tt
      else
        tryCatch
          (setStatus Processing ;;;
           setError None ;;;
           let* generatedBase64 :=
             editImage w (base64Input current) (mimeType snap) (editPrompt snap) in
           let generatedDataUrl := "data:image/jpeg;base64," ++ generatedBase64 in
           updateHistory generatedDataUrl ;;;
           setStatus Complete ;;;
           setEditPrompt "")
          (fun _ =>
           setError (Some editFailed) ;;;
           setStatus Error)
  | None => ret tt
  end.

(** The check for an API key that precedes the [try] of handleUpscale. *)
Definition checkApiKey (w : World) : M unit :=
  match aistudio w with
  | Some studio =>
      match hasSelectedApiKey studio with
      | Some selected =>
          let* hasKey := await selected in
          match openSelectKey studio with
          | Some opened => if negb hasKey then await opened else ret tt
          | None => ret tt
          end
      | None => ret tt
      end
  | None => ret tt
  end.

Definition handleUpscale (w : World) (snap : State) : M unit :=
  match currentImage snap with
  | Some current =>
      if negb (nonEmpty current) then ret tt
      else
        checkApiKey w ;;;
        tryCatch
          (setStatus Upscaling ;;;
           setError None ;;;
           let* upscaledBase64 :=
             upscaleImage w (base64Input current) (mimeType snap) in
           let upscaledDataUrl := "data:image/jpeg;base64," ++ upscaledBase64 in
           updateHistory upscaledDataUrl ;;;
           setStatus Complete)
          (fun _ =>
           setError (Some upscaleFailed) ;;;
           setStatus Error)
  | None => ret tt
  end.

(** [history.slice(0, -1)] *)
Definition dropLast (h : list string) : list string :=
  take (length h - 1) h.

Definition handleUndo (snap : State) : M unit :=
  if (1 <? length (history snap))%nat then
    let newHistory := dropLast (history snap) in
    setHistory (fun _ => newHistory) ;;;
    setCurrentImage (last newHistory)
  else ret tt.

Definition handleReset (snap : State) : M unit :=
  if truthy (originalImage snap) && nonEmpty (mimeType snap) then
    let initialUrl := dataUrlOf (mimeType snap) (originalImage snap) in
    setHistory (fun _ => [initialUrl]) ;;;
    setCurrentImage (Some initialUrl)
  else ret tt.

(** *** Operations and the controls that trigger them *)

(** The six operations of the session, the typing of the prompt
    ([onChange] of the text input) and the closing of the error banner. *)
Inductive Action :=
| SelectImage (file : File)
| Transform
| MagicEdit
| Upscale
| Undo
| Reset
| TypePrompt (text : string)
| DismissError.

Definition handler (w : World) (a : Action) (snap : State) : M unit :=
  match a with
  | SelectImage file => handleImageSelect w file
  | Transform => handleEmbroideryTransform w snap
  | MagicEdit => handleMagicEdit w snap
  | Upscale => handleUpscale w snap
  | Undo => handleUndo snap
  | Reset => handleReset snap
  | TypePrompt text => setEditPrompt text
  | DismissError => setError None
  end.

(** A handler called on the current render. *)
Definition invoke (w : World) (a : Action) (m : Machine) : Machine * Result unit :=
  handler w a (ui m) m.

Definition step (m : Machine) (wa : World * Action) : Machine :=
  fst (invoke (fst wa) (snd wa) m).

(** Operations one after the other, each against its own world. *)
Definition runAll (ops : list (World * Action)) (m : Machine) : Machine :=
  fold_left step ops m.

(** [status !== 'idle' && status !== 'complete'] *)
Definition busy (s : ProcessingStatus) : bool :=
  match s with
  | Idle | Complete => false
  | _ => true
  end.

(** The controls of the page. *)
Inductive Control :=
| FileInput (file : File)
| UndoButton
| ResetButton
| EmbroideryButton
| PromptInput (text : string)
| PromptEnterKey
| PromptButton
| UpscaleButton
| ErrorCloseButton.

(** Whether the control is in the rendered page: the uploader when there is
    no current image, the editor otherwise, the undo button only with more
    than one history entry, the banner only with an error. *)
Definition shown (c : Control) (s : State) : bool :=
  match c with
  | FileInput _ => negb (truthy (currentImage s))
  | UndoButton => truthy (currentImage s) && (1 <? length (history s))%nat
  | ErrorCloseButton => truthy (error s)
  | _ => truthy (currentImage s)
  end.

(** The [disabled] attribute of the control. *)
Definition disabled (c : Control) (s : State) : bool :=
  match c with
  | FileInput _ =>
      match status s with
      | Idle | Error => false
      | _ => true
      end
  | UndoButton => busy (status s)
  | ResetButton => (length (history s) <=? 1)%nat || busy (status s)
  | EmbroideryButton => busy (status s)
  | PromptInput _ => busy (status s)
  | PromptEnterKey => busy (status s)
  | PromptButton => negb (nonEmpty (trim (editPrompt s))) || busy (status s)
  | UpscaleButton => busy (status s)
  | ErrorCloseButton => false
  end.

Definition onEvent (c : Control) : Action :=
  match c with
  | FileInput file => SelectImage file
  | UndoButton => Undo
  | ResetButton => Reset
  | EmbroideryButton => Transform
  | PromptInput text => TypePrompt text
  | PromptEnterKey => MagicEdit
  | PromptButton => MagicEdit
  | UpscaleButton => Upscale
  | ErrorCloseButton => DismissError
  end.

(** A user event on a control: a control that is absent or disabled does
    not call its handler. *)
Definition fire (w : World) (c : Control) (m : Machine) : Machine * Result unit :=
  if shown c (ui m) && negb (disabled c (ui m))
  then invoke w (onEvent c) m
  else (m, Returned tt).

(** *** Vocabulary of the properties *)

(** [history] is not empty and [currentImage] is its last entry. *)
Definition consistent (s : State) : Prop :=
  history s <> [] /\ currentImage s = last (history s).

(** The control is in the page and not disabled. *)
Definition enabled (c : Control) (s : State) : bool :=
  shown c s && negb (disabled c s).

Definition isSelectImage (a : Action) : bool :=
  match a with
  | SelectImage _ => true
  | _ => false
  end.

(** The operation is an upload that succeeds: it starts a new session. *)
Definition replacesSession (w : World) (a : Action) : bool :=
  match a with
  | SelectImage file =>
      match resizeImage w file 1024 with
      | Resolved _ => true
      | _ => false
      end
  | _ => false
  end.

(** A run of the operation [a] from the render [s] in which a sub-step
    fails: the handler's guard lets it start and the generative call throws
    or, for the embroidery flow, the generative call returns and
    removeBackground rejects.  For the upscaler the run must first get past
    the check for an API key. *)
Definition subStepFails (w : World) (a : Action) (s : State) : Prop :=
  match a with
  | Transform =>
      exists current, currentImage s = Some current /\
        nonEmpty current = true /\ truthy (originalImage s) = true /\
        let request := embroideryRequest (base64Input current) (mimeType s) in
        ((exists e, reply w request = Thrown e) \/
         (exists generated e, reply w request = Returned generated /\
            removeBackground w ("data:image/jpeg;base64," ++ generated) 30 = Rejected e))
  | MagicEdit =>
      exists current, currentImage s = Some current /\
        nonEmpty current = true /\ nonEmpty (trim (editPrompt s)) = true /\
        exists e,
          reply w (editRequest (base64Input current) (mimeType s) (editPrompt s)) = Thrown e
  | Upscale =>
      exists current, currentImage s = Some current /\
        nonEmpty current = true /\
        (forall m, checkApiKey w m = (m, Returned tt)) /\
        exists e,
          reply w (upscaleRequest (base64Input current) (mimeType s)) = Thrown e
  | _ => False
  end.

End App.

(** ** Sample worlds and sessions *)

Module Sample.
Import Js Gemini Env App.
Local Open Scope string_scope.

Definition photo : Pixel.ImageData :=
  {| Pixel.width := 2000; Pixel.height := 1000; Pixel.data := [] |}.

Definition answer : Response :=
  {| candidates :=
       Some [{| content :=
                  Some {| parts := Some [TextPart "done"; InlinePart (Some "R0VO")] |} |}] |}.

(** Everything works: the file decodes, the model answers with an image. *)
Definition fair : World :=
  {| readFile := fun _ => Resolved photo;
     loadImage := fun _ => Resolved Pixel.sample;
     hasContext := true;
     resample := fun _ _ _ => [];
     blend := fun channel _ => channel;
     encode := fun type _ => if type =? "image/png" then "UE5H" else "SlBH";
     generateContent := fun _ => Resolved answer;
     aistudio := None |}.

(** The model returns no candidate. *)
Definition silent : World :=
  {| readFile := fun _ => Resolved photo;
     loadImage := fun _ => Resolved Pixel.sample;
     hasContext := true;
     resample := fun _ _ _ => [];
     blend := fun channel _ => channel;
     encode := fun type _ => if type =? "image/png" then "UE5H" else "SlBH";
     generateContent := fun _ => Resolved {| candidates := Some [] |};
     aistudio := None |}.


(** The model never answers. *)
Definition stalled : World :=
  {| readFile := fun _ => Resolved photo;
     loadImage := fun _ => Resolved Pixel.sample;
     hasContext := true;
     resample := fun _ _ _ => [];
     blend := fun channel _ => channel;
     encode := fun type _ => if type =? "image/png" then "UE5H" else "SlBH";
     generateContent := fun _ => Unsettled;
     aistudio := None |}.

(** The check for an API key rejects. *)
Definition locked : World :=
  {| readFile := fun _ => Resolved photo;
     loadImage := fun _ => Resolved Pixel.sample;
     hasContext := true;
     resample := fun _ _ _ => [];
     blend := fun channel _ => channel;
     encode := fun type _ => if type =? "image/png" then "UE5H" else "SlBH";
     generateContent := fun _ => Resolved answer;
     aistudio :=
       Some {| hasSelectedApiKey := Some (Rejected "no key service");
               openSelectKey := None |} |}.

(** A file that decodes to an image one pixel high: the canvas has no
    pixels. *)
Definition thin : World :=
  {| readFile := fun _ =>
       Resolved {| Pixel.width := 2000; Pixel.height := 1; Pixel.data := [] |};
     loadImage := fun _ => Resolved Pixel.sample;
     hasContext := true;
     resample := fun _ _ _ => [];
     blend := fun channel _ => channel;
     encode := fun type _ => if type =? "image/png" then "UE5H" else "SlBH";
     generateContent := fun _ => Resolved answer;
     aistudio := None |}.

(** The image behind every URL is the one pixel next to white. *)
Definition speckled : World :=
  {| readFile := fun _ => Resolved photo;
     loadImage := fun _ => Resolved Pixel.speck;
     hasContext := true;
     resample := fun _ _ _ => [];
     blend := fun channel _ => channel;
     encode := fun type _ => if type =? "image/png" then "UE5H" else "SlBH";
     generateContent := fun _ => Resolved answer;
     aistudio := None |}.

(** After the upload of a photo. *)
Definition uploaded : Machine := fst (invoke fair (SelectImage "photo") start).

(** After the embroidery flow on it. *)
Definition stitched : Machine := fst (invoke fair Transform uploaded).

(** After a failed embroidery flow on the stitched image: [status] is
    [Error], the history has two entries. *)
Definition failed : Machine := fst (invoke silent Transform stitched).

(** The stitched session with a prompt typed in and an edit in flight whose
    request is never answered: [status] is [Processing]. *)
Definition pending : Machine :=
  fst (invoke stalled MagicEdit
         (fst (invoke fair (TypePrompt "add a border") stitched))).

(** A session whose prompt holds white space only. *)
Definition blank : Machine :=
  fst (invoke fair (TypePrompt "   ") stitched).

End Sample.

(** ** More of the page: text helpers, the overlay, the download link, the
    uploader and the events of the page *)

From Stdlib Require DecimalString.

Module Text.

(** The character does not occur in the string. *)
Fixpoint lacks (c : ascii) (s : string) : bool :=
  match s with
  | EmptyString => true
  | String d s' => negb (Ascii.eqb d c) && lacks c s'
  end.

(** The string holds a comma. *)
Definition hasComma (s : string) : bool := negb (lacks "," s).

(** [s.startsWith(p)] *)
Definition startsWith (s p : string) : bool := String.prefix p s.

(** [s.endsWith(p)] *)
Definition endsWith (s p : string) : bool :=
  String.prefix (Js.reverse p) (Js.reverse s).

End Text.

(** *** LoadingOverlay *)

Module Overlay.
Import App.
Local Open Scope string_scope.

(** [a === b] on statuses. *)
Definition isStatus (a b : ProcessingStatus) : bool :=
  match a, b with
  | Idle, Idle | Uploading, Uploading | Processing, Processing
  | RemovingBackground, RemovingBackground | Upscaling, Upscaling
  | Complete, Complete | Error, Error => true
  | _, _ => false
  end.

(** The message of the overlay, [None] when the component renders nothing. *)
Definition LoadingOverlay (status : ProcessingStatus) : option string :=
  if isStatus status Idle || isStatus status Complete || isStatus status Error then None
  else
    let message := "Processing..." in
    let message := if isStatus status Uploading then "Preparing image..." else message in
    let message :=
      if isStatus status Processing then "Stitching your design with Gemini..." else message in
    let message :=
      if isStatus status RemovingBackground then "Removing background..." else message in
    let message :=
      if isStatus status Upscaling then "Upscaling to 4K with Gemini Pro..." else message in
    Some message.

(** The overlay as the page shows it: it belongs to the editor, which is
    rendered when there is a current image. *)
Definition overlayOnPage (s : State) : option string :=
  if Js.truthy (currentImage s) then LoadingOverlay (status s) else None.

(** The line under the uploader:
    [status === 'uploading' && <p>Preparing your canvas...</p>], rendered
    when there is no current image. *)
Definition uploaderNotice (s : State) : option string :=
  if negb (Js.truthy (currentImage s)) && isStatus (status s) Uploading
  then Some "Preparing your canvas..."
  else None.

End Overlay.

(** *** handleDownload *)

Module Download.
Import App.
Local Open Scope string_scope.

(** The link handleDownload clicks: its [href] and its [download] name,
    [None] when the handler returns at once.  [now] is [Date.now()]. *)
Definition handleDownload (snap : State) (now : Z) : option (string * string) :=
  match currentImage snap with
  | Some current =>
      if negb (Js.nonEmpty current) then None
      else
        Some (current,
              "thread-genie-" ++ DecimalString.NilZero.string_of_int (Z.to_int now) ++ ".png")
  | None => None
  end.

End Download.

(** *** ImageUploader *)

Module Uploader.
Local Open Scope string_scope.

(** A [File] of a drop or of the file input: its [type] and the file. *)
Record Picked := mkPicked {
  fileType : string;
  picked : Env.File
}.

(** Each handler gives the new [isDragging] and, where the source calls
    [onImageSelected], the file it is called with. *)

Definition handleDragOver (disabled isDragging : bool) : bool :=
  if negb disabled then true else isDragging.

Definition handleDragLeave (isDragging : bool) : bool := false.

Definition handleDrop (disabled : bool) (files : list Picked) : bool * option Env.File :=
  (false,
   if disabled then None
   else
     match files with
     | file :: _ =>
         if Text.startsWith (fileType file) "image/" then Some (picked file) else None
     | [] => None
     end).

Definition handleFileInput (files : list Picked) : option Env.File :=
  match files with
  | file :: _ => Some (picked file)
  | [] => None
  end.

End Uploader.

(** *** The page: the component, its uploader and the events on them *)

Module Page.
Import Js Env App Uploader.

Record Page := mkPage {
  machine : Machine;
  isDragging : bool
}.

Definition empty : Page := {| machine := start; isDragging := false |}.

(** The uploader is rendered when there is no current image. *)
Definition uploaderShown (s : State) : bool := negb (truthy (currentImage s)).

(** Its [disabled] prop: [status !== 'idle' && status !== 'error']. *)
Definition uploaderDisabled (s : State) : bool :=
  match status s with
  | Idle | Error => false
  | _ => true
  end.

Inductive Event :=
| OnControl (c : Control)
| DragOver
| DragLeave
| Drop (files : list Picked)
| Choose (files : list Picked).

(** One event.  The drag events reach the uploader only while it is
    rendered; the file input, when disabled, raises no change event. *)
Definition handle (w : World) (e : Event) (p : Page) : Page :=
  let m := machine p in
  match e with
  | OnControl c => {| machine := fst (fire w c m); isDragging := isDragging p |}
  | DragOver =>
      if uploaderShown (ui m)
      then {| machine := m;
              isDragging := handleDragOver (uploaderDisabled (ui m)) (isDragging p) |}
      else p
  | DragLeave =>
      if uploaderShown (ui m)
      then {| machine := m; isDragging := handleDragLeave (isDragging p) |}
      else p
  | Drop files =>
      if uploaderShown (ui m) then
        let '(dragging, selected) := handleDrop (uploaderDisabled (ui m)) files in
        match selected with
        | Some file =>
            {| machine := fst (invoke w (SelectImage file) m); isDragging := dragging |}
        | None => {| machine := m; isDragging := dragging |}
        end
      else p
  | Choose files =>
      if uploaderShown (ui m) && negb (uploaderDisabled (ui m)) then
        match handleFileInput files with
        | Some file =>
            {| machine := fst (invoke w (SelectImage file) m);
               isDragging := isDragging p |}
        | None => p
        end
      else p
  end.

Definition stepPage (p : Page) (we : World * Event) : Page :=
  handle (fst we) (snd we) p.

(** Events one after the other, each against its own world. *)
Definition handleAll (events : list (World * Event)) (p : Page) : Page :=
  fold_left stepPage events p.

(** An operation is in flight or has failed, and no control can start
    another: [status] is neither idle nor complete, and the uploader is
    absent or disabled. *)
Definition frozen (s : State) : bool :=
  busy (status s) && (truthy (currentImage s) || uploaderDisabled s).

(** The state once the error banner has been closed. *)
Definition dismissed (s : State) : State :=
  {| status := status s; originalImage := originalImage s;
     currentImage := currentImage s; previewImage := previewImage s;
     editPrompt := editPrompt s; mimeType := mimeType s;
     error := None; history := history s |}.

End Page.

(** *** Vocabulary of the further properties *)

Module Reach.
Import Js Gemini Env App.
Local Open Scope string_scope.

(** What holds of the component in every state it can be in, started from
    [start] and driven by any operations: the current image is the last
    history entry; every entry holds a comma; the MIME type is the upload's;
    an error message stands only in status error; without history nothing
    was stored or sent; with history, its first entry is the URL rebuilt
    from [originalImage] and [mimeType], and is the preview; every request
    sent had inline data and announced a JPEG. *)
Definition sound (m : Machine) : Prop :=
  let s := ui m in
  currentImage s = last (history s) /\
  Forall (fun url => Text.hasComma url = true) (history s) /\
  mimeType s = "image/jpeg" /\
  (error s <> None -> status s = Error) /\
  match history s with
  | [] => originalImage s = None /\ previewImage s = None /\ sent m = []
  | first :: _ =>
      originalImage s <> None /\
      first = dataUrlOf (mimeType s) (originalImage s) /\
      previewImage s = Some first
  end /\
  Forall (fun request => inlineData request <> None /\ inlineMime request = "image/jpeg")
    (sent m).

(** What holds besides when the component is driven through the page: the
    status is uploading only without a session, and idle, uploading or
    error without one. *)
Definition tidy (m : Machine) : Prop :=
  sound m /\
  match history (ui m) with
  | [] => status (ui m) = Idle \/ status (ui m) = Uploading \/ status (ui m) = Error
  | _ :: _ => status (ui m) <> Uploading
  end.

(** The three operations that call the model. *)
Definition callsModel (a : Action) : bool :=
  match a with
  | Transform | MagicEdit | Upscale => true
  | _ => false
  end.


(** How many of the operations call the model. *)
Definition calls (ops : list (World * Action)) : nat :=
  length (List.filter (fun wa : World * Action => callsModel (snd wa)) ops).

(** The world without [window.aistudio]. *)
Definition withoutStudio (w : World) : World :=
  {| readFile := readFile w; loadImage := loadImage w; hasContext := hasContext w;
     resample := resample w; blend := blend w; encode := encode w;
     generateContent := generateContent w; aistudio := None |}.

End Reach.

(** *** Further sample worlds *)

Module Scene.
Import Js Gemini Env App.
Local Open Scope string_scope.

(** No API key is selected; the dialog to select one closes. *)
Definition unkeyed : World :=
  {| readFile := readFile Sample.fair; loadImage := loadImage Sample.fair;
     hasContext := true; resample := resample Sample.fair; blend := blend Sample.fair;
     encode := encode Sample.fair; generateContent := generateContent Sample.fair;
     aistudio :=
       Some {| hasSelectedApiKey := Some (Resolved false);
               openSelectKey := Some (Resolved tt) |} |}.

(** No API key is selected; the dialog to select one stays open. *)
Definition dialog : World :=
  {| readFile := readFile Sample.fair; loadImage := loadImage Sample.fair;
     hasContext := true; resample := resample Sample.fair; blend := blend Sample.fair;
     encode := encode Sample.fair; generateContent := generateContent Sample.fair;
     aistudio :=
       Some {| hasSelectedApiKey := Some (Resolved false);
               openSelectKey := Some Unsettled |} |}.

(** The file does not decode. *)
Definition broken : World :=
  {| readFile := fun _ => Rejected "not an image"; loadImage := loadImage Sample.fair;
     hasContext := true; resample := resample Sample.fair; blend := blend Sample.fair;
     encode := encode Sample.fair; generateContent := generateContent Sample.fair;
     aistudio := None |}.

(** The file is still being read. *)
Definition reading : World :=
  {| readFile := fun _ => Unsettled; loadImage := loadImage Sample.fair;
     hasContext := true; resample := resample Sample.fair; blend := blend Sample.fair;
     encode := encode Sample.fair; generateContent := generateContent Sample.fair;
     aistudio := None |}.

End Scene.
(** * Properties *)

(** ** Rounding of numbers *)

Module DoubleFacts.
Import Double Resize.
Local Open Scope Q_scope.

Lemma two_pow_pos k : 0 < 2 ^ k.
Proof. apply Qpower_0_lt. reflexivity. Qed.

Lemma two_pow_succ k : 2 ^ (k + 1) == 2 * 2 ^ k.
Proof. rewrite Qpower_plus by discriminate. rewrite Qpower_1_r. ring. Qed.

Lemma two_pow_Z n : (0 <= n)%Z -> inject_Z (2 ^ n) == 2 ^ n.
Proof. intros H. apply (Zpower_Qpower 2 n H). Qed.

Lemma ilog2_spec q : 0 < q -> 2 ^ ilog2 q <= q /\ q < 2 ^ (ilog2 q + 1).
Proof.
  intros Hq. destruct q as [a b]. unfold ilog2. cbn [Qnum Qden].
  assert (Ha : (0 < a)%Z) by (unfold Qlt in Hq; cbn in Hq; lia).
  pose proof (Z.log2_spec a Ha) as [Ha1 Ha2].
  pose proof (Z.log2_spec (Zpos b) (Pos2Z.is_pos b)) as [Hb1 Hb2].
  pose proof (Z.log2_nonneg a) as Hla.
  pose proof (Z.log2_nonneg (Zpos b)) as Hlb.
  set (la := Z.log2 a) in *. set (lb := Z.log2 (Zpos b)) in *.
  assert (HqAB : (a # b) * inject_Z (Zpos b) == inject_Z a).
  { unfold Qeq, Qmult, inject_Z. cbn. lia. }
  assert (HB : 0 < inject_Z (Zpos b)) by (unfold Qlt; cbn; lia).
  assert (HK : 2 ^ (la - lb) * 2 ^ lb == 2 ^ la).
  { rewrite <- Qpower_plus by discriminate. replace (la - lb + lb)%Z with la by lia. reflexivity. }
  assert (HA1 : 2 ^ la <= inject_Z a).
  { rewrite <- two_pow_Z by exact Hla. rewrite <- Zle_Qle. exact Ha1. }
  assert (HA2 : inject_Z a < 2 * 2 ^ la).
  { rewrite <- two_pow_succ. rewrite <- two_pow_Z by lia. rewrite <- Zlt_Qlt.
    replace (la + 1)%Z with (Z.succ la) by lia. exact Ha2. }
  assert (HB1 : 2 ^ lb <= inject_Z (Zpos b)).
  { rewrite <- two_pow_Z by exact Hlb. rewrite <- Zle_Qle. exact Hb1. }
  assert (HB2 : inject_Z (Zpos b) < 2 * 2 ^ lb).
  { rewrite <- two_pow_succ. rewrite <- two_pow_Z by lia. rewrite <- Zlt_Qlt.
    replace (lb + 1)%Z with (Z.succ lb) by lia. exact Hb2. }
  pose proof (two_pow_pos la) as HPA. pose proof (two_pow_pos lb) as HPB.
  pose proof (two_pow_pos (la - lb)) as HPK.
  destruct (Qle_bool (2 ^ (la - lb)) (a # b)) eqn:Hc.
  - apply Qle_bool_iff in Hc. split; [exact Hc|].
    rewrite two_pow_succ.
    set (q := a # b) in *. set (K := 2 ^ (la - lb)) in *.
    set (A := inject_Z a) in *. set (B := inject_Z (Zpos b)) in *.
    set (PA := 2 ^ la) in *. set (PB := 2 ^ lb) in *.
    apply Qnot_le_lt. intros Hle.
    assert (H1 : 2 * K * PB <= q * B) by nra.
    nra.
  - assert (Hlt : (a # b) < 2 ^ (la - lb)).
    { apply Qnot_le_lt. intros Hle. apply Qle_bool_iff in Hle. congruence. }
    assert (Hh : 2 * 2 ^ (la - lb - 1) == 2 ^ (la - lb)).
    { rewrite <- two_pow_succ. replace (la - lb - 1 + 1)%Z with (la - lb)%Z by lia. reflexivity. }
    replace (la - lb - 1 + 1)%Z with (la - lb)%Z by lia.
    split; [|exact Hlt].
    set (q := a # b) in *. set (K := 2 ^ (la - lb)) in *.
    set (Kh := 2 ^ (la - lb - 1)) in *.
    set (A := inject_Z a) in *. set (B := inject_Z (Zpos b)) in *.
    set (PA := 2 ^ la) in *. set (PB := 2 ^ lb) in *.
    apply Qnot_lt_le. intros Hgt.
    assert (H1 : q * B < Kh * B) by nra.
    assert (H2 : Kh * B < Kh * (2 * PB)) by (pose proof (two_pow_pos (la - lb - 1)); fold Kh in H; nra).
    nra.
Qed.

Lemma roundEven_spec q :
  q - (1 # 2) <= inject_Z (roundEven q) /\ inject_Z (roundEven q) <= q + (1 # 2).
Proof.
  unfold roundEven.
  pose proof (Qfloor_le q) as Hlo. pose proof (Qlt_floor q) as Hhi.
  set (f := Qfloor q) in *.
  rewrite inject_Z_plus in Hhi. change (inject_Z 1) with 1 in Hhi.
  destruct (Qcompare (q - inject_Z f) (1 # 2)) eqn:Hc.
  - apply Qeq_alt in Hc.
    destruct (Z.even f); rewrite ?inject_Z_plus; change (inject_Z 1) with 1; lra.
  - apply Qlt_alt in Hc. lra.
  - apply Qgt_alt in Hc. rewrite inject_Z_plus. change (inject_Z 1) with 1. lra.
Qed.

Lemma roundPos_spec q :
  0 < q -> q * (1 - ulp53) <= roundPos q /\ roundPos q <= q * (1 + ulp53).
Proof.
  intros Hq. unfold roundPos. rewrite Qred_correct.
  pose proof (ilog2_spec q Hq) as [Hlo _].
  set (e := (ilog2 q - 52)%Z) in *.
  assert (HE : 2 ^ ilog2 q == 2 ^ 52 * 2 ^ e).
  { rewrite <- Qpower_plus by discriminate. replace (52 + e)%Z with (ilog2 q) by (unfold e; lia). reflexivity. }
  pose proof (two_pow_pos e) as HEpos.
  pose proof (roundEven_spec (q / 2 ^ e)) as [Hm1 Hm2].
  set (m := inject_Z (roundEven (q / 2 ^ e))) in *.
  assert (Hs : q / 2 ^ e * 2 ^ e == q) by (field; lra).
  set (s := q / 2 ^ e) in *. set (E := 2 ^ e) in *.
  rewrite HE in Hlo.
  assert (H52 : 2 ^ 52 == 4503599627370496) by reflexivity.
  rewrite H52 in Hlo.
  assert (Hu : ulp53 * 9007199254740992 == 1) by reflexivity.
  set (u := ulp53) in *.
  split; nra.
Qed.

Lemma round_pos q : 0 < q -> round q = roundPos q.
Proof.
  intros Hq. unfold round. destruct q as [a b]. cbn [Qnum].
  unfold Qlt in Hq. cbn in Hq. destruct a; try lia. reflexivity.
Qed.

(** The canvas size obtained from [x *= m / y] is the exactly proportional
    size rounded down, or one less when that size is an integer and the two
    roundings fell below it. *)
Lemma scaleTo_floor x m y :
  (0 < x)%Z -> (0 < m)%Z -> (0 < y)%Z -> (x * m < 2 ^ 51)%Z ->
  (0 <= Qfloor (scaleTo x m y) /\
   0 <= x * m - Qfloor (scaleTo x m y) * y <= y)%Z.
Proof.
  intros Hx Hm Hy Hb. unfold scaleTo, mul, div.
  assert (HX : 0 < inject_Z x) by (rewrite <- (Zlt_Qlt 0); exact Hx).
  assert (HM : 0 < inject_Z m) by (rewrite <- (Zlt_Qlt 0); exact Hm).
  assert (HY : 0 < inject_Z y) by (rewrite <- (Zlt_Qlt 0); exact Hy).
  assert (HXM : inject_Z x * inject_Z m <= 2251799813685247).
  { rewrite <- inject_Z_mult. change 2251799813685247 with (inject_Z 2251799813685247).
    rewrite <- Zle_Qle. lia. }
  set (X := inject_Z x) in *. set (M := inject_Z m) in *. set (Y := inject_Z y) in *.
  assert (Hq0 : 0 < M / Y) by (apply Qlt_shift_div_l; lra).
  assert (Hq0Y : M / Y * Y == M) by (field; lra).
  rewrite (round_pos _ Hq0).
  pose proof (roundPos_spec _ Hq0) as [Hd1 Hd2].
  assert (Hu : ulp53 * 9007199254740992 == 1) by reflexivity.
  assert (Hupos : 0 < ulp53) by reflexivity.
  set (u := ulp53) in *. set (q0 := M / Y) in *. set (q1 := roundPos q0) in *.
  assert (Hq1 : 0 < q1) by nra.
  assert (Hp : 0 < X * q1) by nra.
  rewrite (round_pos _ Hp).
  pose proof (roundPos_spec _ Hp) as [He1 He2]. fold u in He1, He2.
  set (q2 := roundPos (X * q1)) in *.
  pose proof (Qfloor_le q2) as Hf1. pose proof (Qlt_floor q2) as Hf2.
  set (s := Qfloor q2) in *.
  rewrite inject_Z_plus in Hf2. change (inject_Z 1) with 1 in Hf2.
  assert (Hq2 : 0 < q2) by nra.
  assert (Hs0 : (0 <= s)%Z).
  { destruct (Z_le_gt_dec 0 s) as [H|H]; [exact H|exfalso].
    assert (Hneg : inject_Z (s + 1) <= inject_Z 0) by (rewrite <- Zle_Qle; lia).
    rewrite inject_Z_plus in Hneg. change (inject_Z 1) with 1 in Hneg.
    change (inject_Z 0) with 0 in Hneg. lra. }
  split; [exact Hs0|].
  (* q2 * Y within one of X * M *)
  assert (Hq1up : X * q1 <= X * (q0 * (1 + u))).
  { apply Qmult_le_l; [exact HX|exact Hd2]. }
  assert (Hq1dn : X * (q0 * (1 - u)) <= X * q1).
  { apply Qmult_le_l; [exact HX|exact Hd1]. }
  assert (H1u : 0 <= 1 + u) by lra.
  assert (H1d : 0 <= 1 - u) by (clear - Hu Hupos; lra).
  assert (Hq2up : q2 <= X * (q0 * (1 + u)) * (1 + u)).
  { eapply Qle_trans; [exact He2|]. apply Qmult_le_compat_r; [exact Hq1up|exact H1u]. }
  assert (Hq2dn : X * (q0 * (1 - u)) * (1 - u) <= q2).
  { eapply Qle_trans; [|exact He1]. apply Qmult_le_compat_r; [exact Hq1dn|exact H1d]. }
  assert (HupY : q2 * Y <= X * (q0 * (1 + u)) * (1 + u) * Y).
  { apply Qmult_le_compat_r; [exact Hq2up|lra]. }
  assert (HdnY : X * (q0 * (1 - u)) * (1 - u) * Y <= q2 * Y).
  { apply Qmult_le_compat_r; [exact Hq2dn|lra]. }
  assert (Eup : X * (q0 * (1 + u)) * (1 + u) * Y == X * M * ((1 + u) * (1 + u))).
  { rewrite <- Hq0Y. ring. }
  assert (Edn : X * (q0 * (1 - u)) * (1 - u) * Y == X * M * ((1 - u) * (1 - u))).
  { rewrite <- Hq0Y. ring. }
  rewrite Eup in HupY. rewrite Edn in HdnY.
  assert (HXMpos : 0 < X * M) by (clear - HX HM; nra).
  set (P := X * M) in *.
  assert (Hup : q2 * Y < P + 1).
  { clear - HupY HXM Hu Hupos HXMpos. nra. }
  assert (Hdn : P - 1 < q2 * Y).
  { clear - HdnY HXM Hu Hupos HXMpos. nra. }
  assert (HsY1 : inject_Z s * Y <= q2 * Y).
  { apply Qmult_le_compat_r; [exact Hf1|lra]. }
  assert (HsY2 : q2 * Y <= (inject_Z s + 1) * Y).
  { apply Qmult_le_compat_r; lra. }
  assert (Hz1 : inject_Z (s * y) < inject_Z (x * m + 1)).
  { rewrite inject_Z_plus, !inject_Z_mult. fold X M Y. fold P. change (inject_Z 1) with 1. lra. }
  assert (Hz2 : inject_Z (x * m) < inject_Z (s * y + y + 1)).
  { rewrite !inject_Z_plus, !inject_Z_mult. fold X M Y. fold P. change (inject_Z 1) with 1. lra. }
  rewrite <- Zlt_Qlt in Hz1, Hz2. lia.
Qed.

(** The pieces of [Double.sqrt s] for a positive [s] below 2^52: the
    numerator [n] is the integer nearest to the square root of
    [s * 4^c]. *)
Lemma sqrt_parts s :
  (0 < s < 2 ^ 52)%Z ->
  exists c n : Z,
    (c = 52 - Z.log2 s / 2)%Z /\ (27 <= c <= 52)%Z /\
    Double.sqrt s == inject_Z n / inject_Z (2 ^ c) /\
    (2 ^ 52 <= n <= 2 ^ 53)%Z /\
    (forall T : Z, (0 <= T)%Z -> (T * T <= s * 4 ^ c)%Z -> (T <= n)%Z) /\
    (forall T : Z, (0 < T)%Z -> (s * 4 ^ c <= T * T - T)%Z -> (n < T)%Z) /\
    (forall T : Z, (0 < T)%Z -> (T * T - T < s * 4 ^ c)%Z -> (T <= n)%Z).
Proof.
  intros Hs. unfold Double.sqrt.
  destruct (Z.leb_spec s 0) as [Hle|_]; [lia|].
  pose proof (Z.log2_spec s ltac:(lia)) as [Hl1 Hl2].
  pose proof (Z.log2_nonneg s) as Hl0.
  assert (Hl : (Z.log2 s < 52)%Z).
  { apply Z.log2_lt_pow2; lia. }
  set (k := (Z.log2 s / 2)%Z).
  assert (Hk : (0 <= k <= 25 /\ 2 * k <= Z.log2 s <= 2 * k + 1)%Z).
  { unfold k. pose proof (Z.div_mod (Z.log2 s) 2 ltac:(lia)).
    pose proof (Z.mod_pos_bound (Z.log2 s) 2 ltac:(lia)). lia. }
  set (c := (52 - k)%Z). cbv zeta.
  set (N := (s * 4 ^ c)%Z).
  assert (Hc : (27 <= c <= 52)%Z) by (unfold c; lia).
  assert (H4 : (0 < 4 ^ c)%Z) by (apply Z.pow_pos_nonneg; lia).
  assert (HN : (0 < N)%Z) by (unfold N; nia).
  pose proof (Z.sqrt_spec N ltac:(lia)) as [Hn1 Hn2].
  pose proof (Z.sqrt_nonneg N) as Hn0.
  set (n := Z.sqrt N) in *.
  assert (Hup : (s < 4 ^ (k + 1))%Z).
  { replace (4 ^ (k + 1))%Z with (2 ^ (2 * (k + 1)))%Z
      by (rewrite Z.pow_mul_r by lia; reflexivity).
    eapply Z.lt_le_trans; [exact Hl2|]. apply Z.pow_le_mono_r; lia. }
  assert (HN53 : (N < 4 ^ 53)%Z).
  { unfold N. replace (4 ^ 53)%Z with (4 ^ (k + 1) * 4 ^ c)%Z
      by (rewrite <- Z.pow_add_r by lia; f_equal; unfold c; lia).
    nia. }
  assert (Hn53 : (n < 2 ^ 53)%Z).
  { change (4 ^ 53)%Z with (2 ^ 53 * 2 ^ 53)%Z in HN53. nia. }
  assert (Hlow4 : (4 ^ k <= s)%Z).
  { replace (4 ^ k)%Z with (2 ^ (2 * k))%Z by (rewrite Z.pow_mul_r by lia; reflexivity).
    eapply Z.le_trans; [|exact Hl1]. apply Z.pow_le_mono_r; lia. }
  assert (HN52 : (4 ^ 52 <= N)%Z).
  { unfold N. replace (4 ^ 52)%Z with (4 ^ k * 4 ^ c)%Z
      by (rewrite <- Z.pow_add_r by lia; f_equal; unfold c; lia).
    nia. }
  assert (Hn52 : (2 ^ 52 <= n)%Z).
  { change (4 ^ 52)%Z with (2 ^ 52 * 2 ^ 52)%Z in HN52. nia. }
  exists c, (if (n <? N - n * n)%Z then (n + 1)%Z else n).
  split; [reflexivity|]. split; [exact Hc|]. split; [reflexivity|].
  split; [|split; [|split]].
  - destruct (n <? N - n * n)%Z; lia.
  - intros T HT HTN. assert (T <= n)%Z by nia.
    destruct (n <? N - n * n)%Z; lia.
  - intros T HT HTN. destruct (Z.ltb_spec n (N - n * n)); nia.
  - intros T HT HTN. destruct (Z.ltb_spec n (N - n * n)); nia.
Qed.

Lemma sqrt_nonneg s : 0 <= Double.sqrt s.
Proof.
  unfold Double.sqrt. destruct (s <=? 0)%Z; [apply Qle_refl|]. cbv zeta.
  set (c := (52 - Z.log2 s / 2)%Z). set (N := (s * 4 ^ c)%Z).
  pose proof (Z.sqrt_nonneg N) as Hn.
  assert (Hnum : (0 <= (if (Z.sqrt N <? N - Z.sqrt N * Z.sqrt N)%Z
                       then (Z.sqrt N + 1)%Z else Z.sqrt N))%Z)
    by (destruct (_ <? _)%Z; lia).
  pose proof (Z.pow_nonneg 2 c ltac:(lia)) as Hden.
  unfold Qdiv. apply Qmult_le_0_compat.
  - rewrite <- (Zle_Qle 0). exact Hnum.
  - apply Qinv_le_0_compat. rewrite <- (Zle_Qle 0). exact Hden.
Qed.

(** The rounded square root is below an integer exactly when the exact one
    is: the rounding never crosses an integer. *)
Lemma sqrt_lt_integer s (t : Z) :
  (0 <= s < 2 ^ 52)%Z ->
  Double.sqrt s < inject_Z t <-> (0 < t /\ s < t * t)%Z.
Proof.
  intros Hs. destruct (Z.eq_dec s 0%Z) as [->|Hne].
  { change (Double.sqrt 0) with 0. rewrite <- (Zlt_Qlt 0). split; [intros H; nia|tauto]. }
  destruct (sqrt_parts s ltac:(lia)) as [c [n [_ [Hc [Hq [Hn [Hlow [Hhigh _]]]]]]]].
  assert (Hpow : (0 < 2 ^ c)%Z) by (apply Z.pow_pos_nonneg; lia).
  assert (H44 : (4 ^ c = 2 ^ c * 2 ^ c)%Z).
  { rewrite <- Z.pow_add_r by lia. replace (c + c)%Z with (2 * c)%Z by lia.
    rewrite Z.pow_mul_r by lia. reflexivity. }
  assert (Hbig : (2 ^ 27 <= 2 ^ c)%Z) by (apply Z.pow_le_mono_r; lia).
  assert (Hiff : Double.sqrt s < inject_Z t <-> (n < t * 2 ^ c)%Z).
  { rewrite Hq. rewrite Zlt_Qlt, inject_Z_mult.
    assert (HP : 0 < inject_Z (2 ^ c)) by (rewrite <- (Zlt_Qlt 0); exact Hpow).
    set (P := inject_Z (2 ^ c)) in *. set (A := inject_Z n). set (B := inject_Z t).
    split; intros H.
    - assert (A / P * P == A) by (field; lra). nra.
    - apply Qlt_shift_div_r; [exact HP|exact H]. }
  rewrite Hiff. split.
  - intros Hlt. assert (Ht : (0 < t)%Z) by nia. split; [exact Ht|].
    destruct (Z_lt_le_dec s (t * t)) as [?|Hge]; [assumption|exfalso].
    assert (t * 2 ^ c <= n)%Z; [|lia].
    apply Hlow; [nia|]. rewrite H44. nia.
  - intros [Ht Hst].
    destruct (Z_le_gt_dec t (2 ^ c)) as [Hsmall|Hlarge].
    + apply Hhigh; [nia|]. rewrite H44. nia.
    + change (2 ^ 53)%Z with (2 ^ 26 * 2 ^ 27)%Z in Hn. nia.
Qed.

(** The rounded square root is monotone. *)
Lemma sqrt_monotone s1 s2 :
  (0 <= s1 <= s2)%Z -> (s2 < 2 ^ 52)%Z -> Double.sqrt s1 <= Double.sqrt s2.
Proof.
  intros Hs Hb. destruct (Z.eq_dec s1 0%Z) as [->|Hne].
  { change (Double.sqrt 0) with 0. apply sqrt_nonneg. }
  destruct (sqrt_parts s1 ltac:(lia)) as [c1 [n1 [Hc1 [Hr1 [Hq1 [Hn1 [_ [Hhi1 _]]]]]]]].
  destruct (sqrt_parts s2 ltac:(lia)) as [c2 [n2 [Hc2 [Hr2 [Hq2 [Hn2 [_ [_ Hup2]]]]]]]].
  rewrite Hq1, Hq2.
  assert (Hlog : (Z.log2 s1 <= Z.log2 s2)%Z) by (apply Z.log2_le_mono; lia).
  assert (Hc : (c2 <= c1)%Z).
  { subst c1 c2. pose proof (Z.div_le_mono (Z.log2 s1) (Z.log2 s2) 2 ltac:(lia) Hlog). lia. }
  assert (Hp1 : (0 < 2 ^ c1)%Z) by (apply Z.pow_pos_nonneg; lia).
  assert (Hp2 : (0 < 2 ^ c2)%Z) by (apply Z.pow_pos_nonneg; lia).
  assert (Hcross : (n1 * 2 ^ c2 <= n2 * 2 ^ c1)%Z).
  { destruct (Z.eq_dec c1 c2) as [Heq|Hneq].
    - rewrite Heq in *. assert (n1 <= n2)%Z; [|nia].
      apply Hup2; [lia|].
      destruct (Z_lt_le_dec (n1 * n1 - n1) (s2 * 4 ^ c2)) as [?|Hge]; [assumption|exfalso].
      assert (n1 < n1)%Z; [|lia].
      apply Hhi1; [lia|]. assert (0 < 4 ^ c2)%Z by (apply Z.pow_pos_nonneg; lia). nia.
    - assert (E : (2 ^ c1 = 2 ^ c2 * 2 ^ (c1 - c2))%Z).
      { rewrite <- Z.pow_add_r by lia. f_equal. lia. }
      assert (HD : (2 ^ 1 <= 2 ^ (c1 - c2))%Z) by (apply Z.pow_le_mono_r; lia).
      change (2 ^ 1)%Z with 2%Z in HD. change (2 ^ 53)%Z with (2 * 2 ^ 52)%Z in Hn1.
      rewrite E. clear E Hhi1 Hup2 Hq1 Hq2.
      set (P := (2 ^ c2)%Z) in *. set (D := (2 ^ (c1 - c2))%Z) in *.
      set (B := (2 ^ 52)%Z) in *.
      assert (H1 : (n1 * P <= 2 * B * P)%Z) by nia.
      assert (H2 : (B * P <= n2 * P)%Z) by nia.
      assert (H3 : (n2 * P * 2 <= n2 * P * D)%Z) by nia.
      lia. }
  assert (HP1 : 0 < inject_Z (2 ^ c1)) by (rewrite <- (Zlt_Qlt 0); exact Hp1).
  assert (HP2 : 0 < inject_Z (2 ^ c2)) by (rewrite <- (Zlt_Qlt 0); exact Hp2).
  apply Qle_shift_div_l; [exact HP2|].
  assert (E : inject_Z n1 / inject_Z (2 ^ c1) * inject_Z (2 ^ c2) ==
              inject_Z (n1 * 2 ^ c2) / inject_Z (2 ^ c1)).
  { rewrite inject_Z_mult. field. lra. }
  rewrite E. apply Qle_shift_div_r; [exact HP1|].
  rewrite <- inject_Z_mult, <- Zle_Qle. exact Hcross.
Qed.

(** On binary64 the square root is the number [Double.sqrt] gives: at
    every integer below 4096, and at the sums of squares of the greatest
    byte differences (3 * 255^2 = 195075 is the greatest of all). *)
Example sqrt_is_binary64 :
  Binary64.sqrtAgreesBelow 4096 = true /\
  forallb Binary64.sqrtAgrees
    [195075; 195074; 194566; 130050; 65025; 64516; 100000; 99999; 2 ^ 52 - 1]%Z = true.
Proof. vm_compute. split; reflexivity. Qed.

End DoubleFacts.

(** ** The pixel pass *)

Module PixelFacts.
Import Pixel.

Lemma sqdist_nonneg tr tg tb r g b : 0 <= sqdist tr tg tb r g b.
Proof. unfold sqdist. nia. Qed.

(** The test of the loop is the comparison of the computed distance with
    the tolerance. *)
Lemma near_diff t tr tg tb r g b :
  near t tr tg tb r g b = true <-> (diff tr tg tb r g b < t)%Q.
Proof.
  unfold near. rewrite negb_true_iff. split.
  - intros H. apply Qnot_le_lt. intros Hle. apply Qle_bool_iff in Hle. congruence.
  - intros H. destruct (Qle_bool t (diff tr tg tb r g b)) eqn:E; [|reflexivity].
    apply Qle_bool_iff in E. exfalso. exact (Qlt_not_le _ _ H E).
Qed.

Lemma near_false_diff t tr tg tb r g b :
  near t tr tg tb r g b = false <-> (t <= diff tr tg tb r g b)%Q.
Proof.
  unfold near. rewrite negb_false_iff. apply Qle_bool_iff.
Qed.

(** Between bytes the sum of squares is at most 3 * 255^2. *)
Lemma sqdist_bytes tr tg tb r g b :
  0 <= tr <= 255 -> 0 <= tg <= 255 -> 0 <= tb <= 255 ->
  0 <= r <= 255 -> 0 <= g <= 255 -> 0 <= b <= 255 ->
  sqdist tr tg tb r g b <= 195075.
Proof.
  intros Htr Htg Htb Hr Hg Hb. unfold sqdist. rewrite !Z.pow_2_r.
  assert (Hsq : forall a c, 0 <= a <= 255 -> 0 <= c <= 255 ->
                  (a - c) * (a - c) <= 65025).
  { intros a c Ha Hc.
    assert (0 <= (255 - (a - c)) * (255 + (a - c)))
      by (apply Z.mul_nonneg_nonneg; lia).
    lia. }
  pose proof (Hsq r tr Hr Htr). pose proof (Hsq g tg Hg Htg).
  pose proof (Hsq b tb Hb Htb). lia.
Qed.

(** For an integer tolerance the test is the exact comparison of the sum of
    squares with the square of the tolerance. *)
Lemma near_integer (n : Z) tr tg tb r g b :
  sqdist tr tg tb r g b < 2 ^ 52 ->
  near (inject_Z n) tr tg tb r g b =
    (0 <? n) && (sqdist tr tg tb r g b <? n * n).
Proof.
  intros Hb. pose proof (sqdist_nonneg tr tg tb r g b) as Hs.
  pose proof (DoubleFacts.sqrt_lt_integer (sqdist tr tg tb r g b) n ltac:(lia)) as Hi.
  destruct (near (inject_Z n) tr tg tb r g b) eqn:E.
  - apply near_diff in E. apply Hi in E. destruct E as [E1 E2].
    symmetry. apply andb_true_iff. split; apply Z.ltb_lt; assumption.
  - symmetry. apply not_true_is_false. intros H.
    apply andb_true_iff in H. destruct H as [H1 H2].
    apply Z.ltb_lt in H1. apply Z.ltb_lt in H2.
    assert (Hn : near (inject_Z n) tr tg tb r g b = true)
      by (apply near_diff; apply Hi; split; assumption).
    congruence.
Qed.

(** For an integer tolerance the test is the comparison of the Euclidean
    distance with the tolerance. *)
Lemma near_distance (n : Z) tr tg tb r g b :
  sqdist tr tg tb r g b < 2 ^ 52 ->
  near (inject_Z n) tr tg tb r g b = true <->
  (distance tr tg tb r g b < IZR n)%R.
Proof.
  intros Hb. rewrite (near_integer n _ _ _ _ _ _ Hb). unfold distance.
  pose proof (sqdist_nonneg tr tg tb r g b) as Hs.
  set (s := sqdist tr tg tb r g b) in *.
  assert (Hs' : (0 <= IZR s)%R) by (apply IZR_le; lia).
  rewrite andb_true_iff, Z.ltb_lt, Z.ltb_lt. split.
  - intros [Ht Hlt].
    assert (Ht' : (0 <= IZR n)%R) by (apply IZR_le; lia).
    rewrite <- (sqrt_square (IZR n)) by exact Ht'.
    apply sqrt_lt_1_alt. split; [exact Hs'|].
    rewrite <- mult_IZR. apply IZR_lt. exact Hlt.
  - intros Hlt.
    pose proof (sqrt_pos (IZR s)) as Hp.
    assert (Ht : (0 < IZR n)%R) by lra.
    apply lt_IZR in Ht. split; [exact Ht|].
    apply lt_IZR. rewrite mult_IZR.
    rewrite <- (sqrt_square (IZR n)) in Hlt by (apply IZR_le; lia).
    apply sqrt_lt_0_alt in Hlt. exact Hlt.
Qed.

Lemma near_false_distance (n : Z) tr tg tb r g b :
  sqdist tr tg tb r g b < 2 ^ 52 ->
  near (inject_Z n) tr tg tb r g b = false <->
  (IZR n <= distance tr tg tb r g b)%R.
Proof.
  intros Hb. pose proof (near_distance n tr tg tb r g b Hb) as H.
  destruct (near (inject_Z n) tr tg tb r g b); split; intros H'; try discriminate; try reflexivity.
  - exfalso. assert (Hd : (distance tr tg tb r g b < IZR n)%R) by (apply H; reflexivity). lra.
  - destruct (Rlt_le_dec (distance tr tg tb r g b) (IZR n)) as [Hlt|Hle]; [|exact Hle].
    apply H in Hlt. discriminate.
Qed.

Lemma loopBody_length t tr tg tb i (d : list Z) :
  length (loopBody t tr tg tb i d) = length d.
Proof.
  unfold loopBody.
  repeat case_match; rewrite ?length_insert; reflexivity.
Qed.

Lemma loopFrom_length fuel t tr tg tb : forall i (d : list Z),
  length (loopFrom fuel t tr tg tb i d) = length d.
Proof.
  induction fuel as [|n IH]; intros i d; simpl; [reflexivity|].
  case_match; [|reflexivity].
  rewrite IH. apply loopBody_length.
Qed.

(** The body at [i] touches index [i + 3] only. *)
Lemma loopBody_lookup_ne t tr tg tb i (d : list Z) j :
  j <> (i + 3)%nat -> loopBody t tr tg tb i d !! j = d !! j.
Proof.
  intros Hne. unfold loopBody.
  repeat case_match; try reflexivity.
  apply list_lookup_insert_ne. lia.
Qed.

Lemma loopBody_lookup_alpha t tr tg tb i (d : list Z) :
  (i mod 4 = 0)%nat ->
  loopBody t tr tg tb i d !! (i + 3)%nat = expected t tr tg tb d (i + 3).
Proof.
  intros Hi. unfold loopBody, expected.
  replace ((i + 3) mod 4 =? 3)%nat with true by (symmetry; apply Nat.eqb_eq; lia).
  replace (i + 3 - 3)%nat with i by lia.
  replace (i + 3 - 2)%nat with (i + 1)%nat by lia.
  replace (i + 3 - 1)%nat with (i + 2)%nat by lia.
  destruct (d !! (i + 3)%nat) as [a|] eqn:Ha.
  - destruct (d !! i) as [r|]; [|exact Ha].
    destruct (d !! (i + 1)%nat) as [g|]; [|exact Ha].
    destruct (d !! (i + 2)%nat) as [b|]; [|exact Ha].
    destruct (near t tr tg tb r g b); [|exact Ha].
    apply list_lookup_insert_eq. apply lookup_lt_Some in Ha. exact Ha.
  - repeat case_match; try exact Ha.
    rewrite list_insert_ge; [exact Ha|]. apply lookup_ge_None. exact Ha.
Qed.

(** Away from the alpha written at [i + 3], what is expected of a buffer is
    the same before and after the body ran at [i]. *)
Lemma expected_loopBody t tr tg tb i (d : list Z) j :
  (i mod 4 = 0)%nat -> (i + 4 <= j)%nat ->
  expected t tr tg tb (loopBody t tr tg tb i d) j = expected t tr tg tb d j.
Proof.
  intros Hi Hj. unfold expected.
  rewrite (loopBody_lookup_ne t tr tg tb i d j) by lia.
  destruct (d !! j) as [v|]; [|reflexivity].
  destruct (j mod 4 =? 3)%nat eqn:Hm; [|reflexivity].
  apply Nat.eqb_eq in Hm.
  rewrite !loopBody_lookup_ne by lia. reflexivity.
Qed.

Lemma expected_not_alpha t tr tg tb (d : list Z) j :
  (j mod 4 <> 3)%nat -> expected t tr tg tb d j = d !! j.
Proof.
  intros Hj. unfold expected.
  destruct (d !! j); [|reflexivity].
  replace (j mod 4 =? 3)%nat with false; [reflexivity|].
  symmetry. apply Nat.eqb_neq. exact Hj.
Qed.

Lemma expected_None t tr tg tb (d : list Z) j :
  d !! j = None -> expected t tr tg tb d j = None.
Proof. intros H. unfold expected. rewrite H. reflexivity. Qed.

(** The loop invariant: after [fuel] iterations from [i], the indices in
    [i, i + 4 * fuel) hold what is expected, the others what they held. *)
Lemma loopFrom_lookup fuel t tr tg tb : forall i (d : list Z) j,
  (i mod 4 = 0)%nat ->
  loopFrom fuel t tr tg tb i d !! j =
    if ((j <? i) || (i + 4 * fuel <=? j))%nat then d !! j
    else expected t tr tg tb d j.
Proof.
  induction fuel as [|n IH]; intros i d j Hi.
  - cbn [loopFrom]. destruct ((j <? i) || (i + 4 * 0 <=? j))%nat eqn:Hc; [reflexivity|].
    exfalso. apply orb_false_iff in Hc. destruct Hc as [H1 H2].
    apply Nat.ltb_ge in H1. apply Nat.leb_gt in H2. lia.
  - cbn [loopFrom]. destruct (Nat.ltb_spec i (length d)) as [Hlt|Hge].
    + rewrite IH by lia.
      destruct (Nat.ltb_spec j i) as [Hji|Hji].
      { replace (j <? i + 4)%nat with true by (symmetry; apply Nat.ltb_lt; lia).
        cbn [orb]. apply loopBody_lookup_ne. lia. }
      cbn [orb]. destruct (Nat.leb_spec (i + 4 * S n) j) as [Hend|Hend].
      { replace (i + 4 + 4 * n <=? j)%nat with true by (symmetry; apply Nat.leb_le; lia).
        rewrite orb_true_r. apply loopBody_lookup_ne. lia. }
      replace (i + 4 + 4 * n <=? j)%nat with false by (symmetry; apply Nat.leb_gt; lia).
      rewrite orb_false_r.
      destruct (Nat.ltb_spec j (i + 4)) as [Hj4|Hj4].
      * destruct (Nat.eq_dec j (i + 3)%nat) as [->|Hne].
        { apply loopBody_lookup_alpha. exact Hi. }
        rewrite loopBody_lookup_ne by exact Hne.
        symmetry. apply expected_not_alpha. lia.
      * apply expected_loopBody; [exact Hi|lia].
    + destruct ((j <? i) || (i + 4 * S n <=? j))%nat eqn:Hc; [reflexivity|].
      apply orb_false_iff in Hc. destruct Hc as [Hc _]. apply Nat.ltb_ge in Hc.
      assert (Hnone : d !! j = None) by (apply lookup_ge_None; lia).
      rewrite Hnone. symmetry. apply expected_None. exact Hnone.
Qed.

(** Every index of the output, read off the input. *)
Lemma keyOut_lookup t tr tg tb (d : list Z) j :
  keyOut t tr tg tb d !! j = expected t tr tg tb d j.
Proof.
  unfold keyOut. rewrite loopFrom_lookup by reflexivity.
  destruct (Nat.leb_spec (0 + 4 * length d) j) as [Hge|Hlt]; cbn [Nat.ltb orb].
  - replace (j <? 0)%nat with false by reflexivity. cbn [orb].
    assert (Hnone : d !! j = None) by (apply lookup_ge_None; lia).
    rewrite Hnone. symmetry. apply expected_None. exact Hnone.
  - replace (j <? 0)%nat with false by reflexivity. reflexivity.
Qed.

(** The loop has ended after [length d] iterations: more fuel changes
    nothing. *)
Lemma loopFrom_fuel t tr tg tb (d : list Z) extra :
  loopFrom (length d + extra) t tr tg tb 0 d = keyOut t tr tg tb d.
Proof.
  apply list_eq. intros j.
  rewrite keyOut_lookup, loopFrom_lookup by reflexivity.
  replace (j <? 0)%nat with false by reflexivity. cbn [orb].
  destruct (Nat.leb_spec (0 + 4 * (length d + extra)) j) as [Hge|Hlt]; [|reflexivity].
  assert (Hnone : d !! j = None) by (apply lookup_ge_None; lia).
  rewrite Hnone. symmetry. apply expected_None. exact Hnone.
Qed.

Lemma keyOut_length t tr tg tb (d : list Z) :
  length (keyOut t tr tg tb d) = length d.
Proof. apply loopFrom_length. Qed.

(** Channel [k] of pixel [p] after the loop. *)
Lemma keyOut_rgb t tr tg tb (d : list Z) j :
  (j mod 4 <> 3)%nat -> keyOut t tr tg tb d !! j = d !! j.
Proof. intros Hj. rewrite keyOut_lookup. apply expected_not_alpha. exact Hj. Qed.

Lemma keyOut_alpha t tr tg tb (d : list Z) p r g b a :
  pixel d p = Some (r, g, b, a) ->
  keyOut t tr tg tb d !! (4 * p + 3)%nat =
    Some (if near t tr tg tb r g b then 0 else a).
Proof.
  unfold pixel. intros Hp.
  destruct (d !! (4 * p)%nat) as [r'|] eqn:Hr; [|discriminate].
  destruct (d !! (4 * p + 1)%nat) as [g'|] eqn:Hg; [|discriminate].
  destruct (d !! (4 * p + 2)%nat) as [b'|] eqn:Hb; [|discriminate].
  destruct (d !! (4 * p + 3)%nat) as [a'|] eqn:Ha; [|discriminate].
  injection Hp as -> -> -> ->.
  rewrite keyOut_lookup. unfold expected. rewrite Ha.
  replace ((4 * p + 3) mod 4 =? 3)%nat with true by (symmetry; apply Nat.eqb_eq; lia).
  replace (4 * p + 3 - 3)%nat with (4 * p)%nat by lia.
  replace (4 * p + 3 - 2)%nat with (4 * p + 1)%nat by lia.
  replace (4 * p + 3 - 1)%nat with (4 * p + 2)%nat by lia.
  rewrite Hr, Hg, Hb. destruct (near t tr tg tb r g b); reflexivity.
Qed.

Lemma keyOut_pixel t tr tg tb (d : list Z) p r g b a :
  pixel d p = Some (r, g, b, a) ->
  pixel (keyOut t tr tg tb d) p =
    Some (r, g, b, if near t tr tg tb r g b then 0 else a).
Proof.
  intros Hp. pose proof (keyOut_alpha t tr tg tb d p r g b a Hp) as Hal.
  unfold pixel in *.
  rewrite !keyOut_rgb by lia. rewrite Hal.
  destruct (d !! (4 * p)%nat) as [r'|]; [|discriminate].
  destruct (d !! (4 * p + 1)%nat) as [g'|]; [|discriminate].
  destruct (d !! (4 * p + 2)%nat) as [b'|]; [|discriminate].
  destruct (d !! (4 * p + 3)%nat) as [a'|]; [|discriminate].
  injection Hp as -> -> -> ->. reflexivity.
Qed.



(** On binary64 the rounded square root is on the same side of every
    tolerance from 1 to 442 (the greatest distance is below 442) as the
    exact one, at the two sums next to the threshold; the square root is
    monotone, so it is for every sum. *)
Example sqrt_threshold_binary64 :
  forallb Binary64.thresholdAgrees (map Z.of_nat (seq 1 442)) = true.
Proof. vm_compute. reflexivity. Qed.

(** *** The canvas after putImageData *)

Lemma putPixels_length blend (d : list Z) : length (putPixels blend d) = length d.
Proof.
  assert (H : forall n (l : list Z), (length l <= n)%nat ->
                length (putPixels blend l) = length l).
  { induction n as [|n IH]; intros l Hn.
    - destruct l; [reflexivity|cbn in Hn; lia].
    - destruct l as [|r [|g [|b [|a rest]]]]; try reflexivity.
      cbn [putPixels]. destruct (stored blend (r, g, b, a)) as [[[r' g'] b'] a'].
      cbn [length] in *. rewrite IH by lia. reflexivity. }
  apply (H (length d)). lia.
Qed.

Lemma pixel_step r g b a (rest : list Z) p :
  pixel (r :: g :: b :: a :: rest) (S p) = pixel rest p.
Proof.
  unfold pixel. replace (4 * S p)%nat with (S (S (S (S (4 * p))))) by lia.
  reflexivity.
Qed.

Lemma pixel_head r g b a (rest : list Z) :
  pixel (r :: g :: b :: a :: rest) 0 = Some (r, g, b, a).
Proof. reflexivity. Qed.

Lemma pixel_short (d : list Z) p : (length d < 4)%nat -> pixel d p = None.
Proof.
  intros Hlen. unfold pixel.
  destruct (d !! (4 * p + 3)%nat) as [a|] eqn:Ha.
  - apply lookup_lt_Some in Ha. lia.
  - repeat case_match; reflexivity.
Qed.

(** Pixel [p] of the canvas is pixel [p] of the buffer as the canvas stores
    it. *)
Lemma pixel_putPixels blend (d : list Z) p :
  pixel (putPixels blend d) p = option_map (stored blend) (pixel d p).
Proof.
  revert d. induction p as [|p IH]; intros d.
  - destruct d as [|r [|g [|b [|a rest]]]];
      try (rewrite !pixel_short by (cbn; lia); reflexivity).
    cbn [putPixels]. destruct (stored blend (r, g, b, a)) as [[[r' g'] b'] a'] eqn:Hs.
    rewrite !pixel_head. cbn [option_map]. rewrite Hs. reflexivity.
  - destruct d as [|r [|g [|b [|a rest]]]];
      try (rewrite !pixel_short by (cbn; lia); reflexivity).
    cbn [putPixels]. destruct (stored blend (r, g, b, a)) as [[[r' g'] b'] a'].
    rewrite !pixel_step. apply IH.
Qed.

(** removeBackground resolves with the PNG of the canvas that holds the
    pixel pass over the decoded image. *)
Lemma removeBackground_resolves (w : Env.World) dataUrl t img :
  Env.loadImage w dataUrl = Js.Resolved img -> Env.hasContext w = true ->
  0 < width img -> 0 < height img ->
  Env.removeBackground w dataUrl t =
    Js.Resolved
      (Env.toDataURL w "image/png"%string
         (putImageData (Env.blend w) (removeBackgroundPixels t img))).
Proof.
  intros Hload Hctx Hw Hh. unfold Env.removeBackground. rewrite Hload, Hctx.
  destruct (Z.leb_spec (width img) 0); [lia|].
  destruct (Z.leb_spec (height img) 0); [lia|]. reflexivity.
Qed.

(** The distance [Math.sqrt] computes for the pixel next to white is
    greater than the Euclidean distance, the square root of 2. *)
Lemma sqrt_2_rounds_up :
  (distance targetR targetG targetB 254 254 255 < Q2R (Double.sqrt 2))%R.
Proof.
  unfold distance. replace (sqdist targetR targetG targetB 254 254 255) with 2
    by reflexivity.
  replace (Double.sqrt 2) with (6369051672525773 # 4503599627370496)%Q
    by (vm_compute; reflexivity).
  unfold Q2R. cbn [Qnum Qden].
  set (q := (6369051672525773 * / 4503599627370496)%R).
  assert (Hq : (0 <= q)%R) by (unfold q; lra).
  rewrite <- (sqrt_square q Hq).
  apply sqrt_lt_1_alt. split; [lra|]. unfold q. lra.
Qed.

(** C4, as stated, fails in two ways.  The white pixel of the sample is at
    distance 0 from white, below the tolerance 30; in the PNG
    removeBackground resolves with it reads [(0, 0, 0, 0)]: alpha is 0, but
    R, G and B are not unchanged, since a canvas keeps no colour under
    alpha 0.  And with the tolerance [Math.sqrt(2)] the pixel
    [(254, 254, 255)], whose Euclidean distance to white is the square root
    of 2 and strictly below that tolerance, keeps its alpha: the distance
    the code computes is the rounded square root, which is the tolerance
    itself. *)
Lemma removeBackground_thresholds_counterexample :
  let url := "data:image/jpeg;base64,R0VO"%string in
  (let out := putImageData (Env.blend Sample.fair) (removeBackgroundPixels 30 sample) in
   Env.loadImage Sample.fair url = Js.Resolved sample /\
   pixel (data sample) 0 = Some (255, 255, 255, 255) /\
   (distance targetR targetG targetB 255 255 255 < 30)%R /\
   Env.removeBackground Sample.fair url 30 =
     Js.Resolved (Env.toDataURL Sample.fair "image/png"%string out) /\
   pixel (data out) 0 = Some (0, 0, 0, 0) /\
   pixel (data out) 0 <> Some (255, 255, 255, 0)) /\
  (let tolerance := Double.sqrt 2 in
   let out :=
     putImageData (Env.blend Sample.speckled) (removeBackgroundPixels tolerance speck) in
   Env.loadImage Sample.speckled url = Js.Resolved speck /\
   pixel (data speck) 0 = Some (254, 254, 255, 255) /\
   (distance targetR targetG targetB 254 254 255 < Q2R tolerance)%R /\
   Env.removeBackground Sample.speckled url tolerance =
     Js.Resolved (Env.toDataURL Sample.speckled "image/png"%string out) /\
   pixel (data out) 0 = Some (254, 254, 255, 255)).
Proof.
  cbv zeta. split.
  - split; [reflexivity|]. split; [reflexivity|]. split.
    + unfold distance. replace (sqdist targetR targetG targetB 255 255 255) with 0
        by reflexivity.
      rewrite sqrt_0. lra.
    + split; [vm_compute; reflexivity|]. split; [vm_compute; reflexivity|].
      vm_compute. discriminate.
  - split; [reflexivity|]. split; [reflexivity|]. split; [exact sqrt_2_rounds_up|].
    split; vm_compute; reflexivity.
Qed.

(** C4 (amended). For every image that decodes to at least one pixel and
    every tolerance, removeBackground resolves with the PNG of a canvas of
    the width and height of the image, holding as many entries.  The loop
    changes no entry of the buffer but alpha entries.  For every complete
    pixel [(r, g, b, a)] of the image: when the distance to white that the
    code computes (the square root rounded to a number) is at least the
    tolerance, the pixel is unchanged in the buffer and the canvas reads it
    as a canvas stores it, identical when it is opaque; when the computed
    distance is strictly below the tolerance, the pixel is [(r, g, b, 0)]
    in the buffer and reads [(0, 0, 0, 0)] in the canvas: alpha 0 and no
    colour.  For an integer tolerance and byte channels the computed
    distance is below the tolerance exactly when the Euclidean distance
    is. *)
Theorem removeBackground_thresholds (w : Env.World) (dataUrl : string) (t : Q)
    (img : ImageData) :
  Env.loadImage w dataUrl = Js.Resolved img -> Env.hasContext w = true ->
  0 < width img -> 0 < height img ->
  let buffer := removeBackgroundPixels t img in
  let out := putImageData (Env.blend w) buffer in
  Env.removeBackground w dataUrl t =
    Js.Resolved ("data:image/png;base64," ++ Env.encode w "image/png" out)%string /\
  width out = width img /\ height out = height img /\
  length (data out) = length (data img) /\
  (forall j, (j mod 4 <> 3)%nat -> data buffer !! j = data img !! j) /\
  (forall p r g b a, pixel (data img) p = Some (r, g, b, a) ->
     ((t <= diff targetR targetG targetB r g b)%Q ->
        pixel (data buffer) p = Some (r, g, b, a) /\
        pixel (data out) p = Some (stored (Env.blend w) (r, g, b, a)) /\
        (a = 255 -> pixel (data out) p = Some (r, g, b, a))) /\
     ((diff targetR targetG targetB r g b < t)%Q ->
        pixel (data buffer) p = Some (r, g, b, 0) /\
        pixel (data out) p = Some (0, 0, 0, 0)) /\
     (forall n : Z, (t == inject_Z n)%Q ->
        0 <= r <= 255 -> 0 <= g <= 255 -> 0 <= b <= 255 ->
        ((diff targetR targetG targetB r g b < t)%Q <->
         (distance targetR targetG targetB r g b < IZR n)%R))).
Proof.
  intros Hload Hctx Hw Hh buffer out.
  split; [|split; [|split; [|split; [|split]]]].
  - rewrite (removeBackground_resolves w dataUrl t img Hload Hctx Hw Hh).
    fold buffer. fold out. unfold Env.toDataURL.
    change (width out) with (width img). change (height out) with (height img).
    destruct (Z.leb_spec (width img) 0); [lia|].
    destruct (Z.leb_spec (height img) 0); [lia|]. reflexivity.
  - reflexivity.
  - reflexivity.
  - subst out buffer. cbn [putImageData removeBackgroundPixels data].
    rewrite putPixels_length. apply keyOut_length.
  - intros j Hj. apply keyOut_rgb. exact Hj.
  - intros p r g b a Hp.
    pose proof (keyOut_pixel t targetR targetG targetB (data img) p r g b a Hp) as Hbuf.
    assert (Hout : pixel (data out) p =
              option_map (stored (Env.blend w)) (pixel (data buffer) p))
      by apply pixel_putPixels.
    change (data buffer) with (keyOut t targetR targetG targetB (data img)) in *.
    split; [|split].
    + intros Hfar. apply near_false_diff in Hfar. rewrite Hfar in Hbuf.
      rewrite Hout, Hbuf. split; [reflexivity|]. split; [reflexivity|].
      intros ->. reflexivity.
    + intros Hnear. apply near_diff in Hnear. rewrite Hnear in Hbuf.
      rewrite Hout, Hbuf. split; reflexivity.
    + intros n Ht Hr Hg Hb. rewrite Ht. rewrite <- near_diff.
      apply near_distance.
      pose proof (sqdist_bytes targetR targetG targetB r g b) as Hs.
      unfold targetR, targetG, targetB in *. lia.
Qed.

Lemma removeBackground_thresholds_witness :
  let url := "data:image/jpeg;base64,R0VO"%string in
  let out := putImageData (Env.blend Sample.fair) (removeBackgroundPixels 30 sample) in
  (Env.loadImage Sample.fair url = Js.Resolved sample /\
   Env.hasContext Sample.fair = true /\ 0 < width sample /\ 0 < height sample) /\
  Env.removeBackground Sample.fair url 30 =
    Js.Resolved ("data:image/png;base64," ++ Env.encode Sample.fair "image/png" out)%string /\
  pixel (data out) 0 = Some (0, 0, 0, 0) /\
  pixel (data out) 1 = Some (10, 20, 30, 255).
Proof.
  cbv zeta. split; [repeat split; reflexivity|].
  destruct (removeBackground_thresholds Sample.fair "data:image/jpeg;base64,R0VO"%string
              30 sample eq_refl eq_refl eq_refl eq_refl) as [Hurl [_ [_ [_ [_ Hpix]]]]].
  split; [exact Hurl|]. split.
  - destruct (Hpix 0%nat 255 255 255 255 eq_refl) as [_ [Hnear _]].
    apply Hnear. vm_compute. reflexivity.
  - destruct (Hpix 1%nat 10 20 30 255 eq_refl) as [Hfar _].
    apply Hfar; [vm_compute; discriminate|reflexivity].
Defined.

(** The white pixel of the sample becomes transparent in the buffer, the
    dark one stays. *)
Example removeBackground_sample :
  data (removeBackgroundPixels 30 sample) = [255; 255; 255; 0; 10; 20; 30; 255].
Proof. vm_compute. reflexivity. Qed.




End PixelFacts.

(** ** resizeImage *)

Module ResizeFacts.
Import Resize.

Lemma Qfloor_inject z : Qfloor (inject_Z z) = z.
Proof. apply Qfloor_Z. Qed.

(** The scenario of the specification: 2000 x 1000 under 1024. *)
Example canvasSize_2000_1000 : canvasSize 2000 1000 1024 = (1024, 512).
Proof. vm_compute. reflexivity. Qed.

(** A size where the two roundings fall below the exact value 1. *)
Example canvasSize_98_49 : canvasSize 98 49 2 = (2, 0).
Proof. vm_compute. reflexivity. Qed.

(** On these sizes the rounding of the model is the rounding of binary64. *)
Example scaleTo_is_binary64 :
  forallb (fun '(x, m, y) => Binary64.agrees x m y)
    [(1000, 1024, 2000); (49, 2, 98); (1, 1024, 2000); (767, 1024, 4032);
     (3024, 1024, 4032); (1, 3, 7); (33554431, 33554431, 33554430)] = true.
Proof. vm_compute. reflexivity. Qed.

(** An image one pixel high leaves a canvas without pixels. *)
Example canvasSize_2000_1 : canvasSize 2000 1 1024 = (1024, 0).
Proof. vm_compute. reflexivity. Qed.

(** The size of the canvas in the two branches that scale, and in the
    branch that does not. *)
Lemma canvasSize_wide w h m :
  h < w -> m < w -> canvasSize w h m = (m, Qfloor (scaleTo h m w)).
Proof.
  intros Hhw Hm. unfold canvasSize, scaledSize.
  destruct (Z.ltb_spec h w); [|lia]. destruct (Z.ltb_spec m w); [|lia].
  rewrite Qfloor_inject. reflexivity.
Qed.

Lemma canvasSize_tall w h m :
  w <= h -> m < h -> canvasSize w h m = (Qfloor (scaleTo w m h), m).
Proof.
  intros Hhw Hm. unfold canvasSize, scaledSize.
  destruct (Z.ltb_spec h w); [lia|]. destruct (Z.ltb_spec m h); [|lia].
  rewrite Qfloor_inject. reflexivity.
Qed.

Lemma canvasSize_fits w h m :
  Z.max w h <= m -> canvasSize w h m = (w, h).
Proof.
  intros Hfit. unfold canvasSize, scaledSize.
  destruct (Z.ltb_spec h w); [destruct (Z.ltb_spec m w)|destruct (Z.ltb_spec m h)];
    try lia; rewrite !Qfloor_inject; reflexivity.
Qed.

(** The sides of the canvas, for sides of the image below 2^25 and any
    positive bound: within the bound, the longer one on the bound when the
    image exceeds it, in the proportion of the image up to one pixel on the
    shorter side, and at least one pixel each when the image is within the
    bound or its shorter side, scaled in exact proportion, exceeds one
    pixel. *)
Lemma canvasSize_bounds (w h maxDimension : Z) :
  0 < w < 2 ^ 25 -> 0 < h < 2 ^ 25 -> 0 < maxDimension ->
  let '(outW, outH) := canvasSize w h maxDimension in
  0 <= outW /\ 0 <= outH /\
  Z.max outW outH <= maxDimension /\
  (maxDimension < Z.max w h -> Z.max outW outH = maxDimension) /\
  Z.abs (outW * h - outH * w) <= Z.max w h /\
  (Z.max w h <= maxDimension -> (outW, outH) = (w, h)) /\
  (Z.max w h <= maxDimension \/ Z.max w h < Z.min w h * maxDimension ->
   1 <= outW /\ 1 <= outH).
Proof.
  intros Hw Hh Hm.
  destruct (Z_le_gt_dec (Z.max w h) maxDimension) as [Hfit|Hbig].
  { rewrite canvasSize_fits by exact Hfit.
    refine (conj _ (conj _ (conj _ (conj _ (conj _ (conj _ _)))))); try lia; reflexivity. }
  assert (Hm25 : maxDimension < 2 ^ 25) by lia.
  assert (Hwm : w * maxDimension < 2 ^ 51) by nia.
  assert (Hhm : h * maxDimension < 2 ^ 51) by nia.
  destruct (Z_lt_le_dec h w) as [Hhw|Hhw].
  - rewrite canvasSize_wide by lia.
    destruct (DoubleFacts.scaleTo_floor h maxDimension w) as [H0 [H1 H2]]; try lia.
    set (s := Qfloor (scaleTo h maxDimension w)) in *.
    assert (Hs : s < maxDimension) by nia.
    refine (conj _ (conj _ (conj _ (conj _ (conj _ (conj _ _)))))); try lia.
    all: intros [Hc|Hc]; [lia|]; replace (Z.max w h) with w in Hc by lia;
      replace (Z.min w h) with h in Hc by lia; nia.
  - rewrite canvasSize_tall by lia.
    destruct (DoubleFacts.scaleTo_floor w maxDimension h) as [H0 [H1 H2]]; try lia.
    set (s := Qfloor (scaleTo w maxDimension h)) in *.
    assert (Hs : s <= maxDimension) by nia.
    refine (conj _ (conj _ (conj _ (conj _ (conj _ (conj _ _)))))); try lia.
    all: intros [Hc|Hc]; [lia|]; replace (Z.max w h) with h in Hc by lia;
      replace (Z.min w h) with w in Hc by lia; nia.
Qed.

(** C6, as stated, fails: a file that decodes to an image of 2000 x 1
    pixels, with the bound 1024, leaves a canvas of 1024 x 0, and
    resizeImage resolves with the empty payload of a canvas without pixels:
    there is no output image whose sides could be within the bound or in
    proportion. *)
Lemma resize_within_bound_counterexample :
  Env.readFile Sample.thin "line"%string =
    Js.Resolved {| Pixel.width := 2000; Pixel.height := 1; Pixel.data := [] |} /\
  Env.hasContext Sample.thin = true /\
  canvasSize 2000 1 1024 = (1024, 0) /\
  Env.toDataURL Sample.thin "image/jpeg"%string
    {| Pixel.width := 1024; Pixel.height := 0;
       Pixel.data := Env.resample Sample.thin
                       {| Pixel.width := 2000; Pixel.height := 1; Pixel.data := [] |}
                       1024 0 |} = "data:,"%string /\
  Env.resizeImage Sample.thin "line"%string 1024 =
    Js.Resolved {| Env.base64 := Some ""%string; Env.resizedMime := "image/jpeg"%string |}.
Proof. vm_compute. repeat split. Qed.

(** C6 (amended). For every file that decodes to an image whose sides are
    from 1 to 2^25 - 1 pixels, and every positive integer [maxDimension]
    such that the image is within the bound or its shorter side, scaled in
    exact proportion, exceeds one pixel: resizeImage resolves with the
    payload of the JPEG data URL of a canvas of [outW] x [outH] pixels that
    holds the resampled image, where both sides are at least 1 and at most
    [maxDimension]; the longer side is [maxDimension] when the image exceeds
    the bound; the sides are in the proportion of the image up to one pixel
    on the shorter side ([|outW * h - outH * w| <= max w h]); and the size is
    the image's own when the image is within the bound. *)
Theorem resize_within_bound (w : Env.World) (file : Env.File) (maxDimension : Z)
    (img : Pixel.ImageData) :
  Env.readFile w file = Js.Resolved img -> Env.hasContext w = true ->
  0 < Pixel.width img < 2 ^ 25 -> 0 < Pixel.height img < 2 ^ 25 ->
  0 < maxDimension ->
  (Z.max (Pixel.width img) (Pixel.height img) <= maxDimension \/
   Z.max (Pixel.width img) (Pixel.height img) <
     Z.min (Pixel.width img) (Pixel.height img) * maxDimension) ->
  exists outW outH : Z,
    let canvas :=
      {| Pixel.width := outW; Pixel.height := outH;
         Pixel.data := Env.resample w img outW outH |} in
    Env.resizeImage w file maxDimension =
      Js.Resolved
        {| Env.base64 :=
             Js.afterComma
               ("data:image/jpeg;base64," ++ Env.encode w "image/jpeg" canvas)%string;
           Env.resizedMime := "image/jpeg"%string |} /\
    1 <= outW /\ 1 <= outH /\
    Z.max outW outH <= maxDimension /\
    (maxDimension < Z.max (Pixel.width img) (Pixel.height img) ->
     Z.max outW outH = maxDimension) /\
    Z.abs (outW * Pixel.height img - outH * Pixel.width img) <=
      Z.max (Pixel.width img) (Pixel.height img) /\
    (Z.max (Pixel.width img) (Pixel.height img) <= maxDimension ->
     (outW, outH) = (Pixel.width img, Pixel.height img)).
Proof.
  intros Hread Hctx Hw Hh Hm Hside.
  pose proof (canvasSize_bounds (Pixel.width img) (Pixel.height img) maxDimension
                Hw Hh Hm) as Hsize.
  destruct (canvasSize (Pixel.width img) (Pixel.height img) maxDimension)
    as [outW outH] eqn:Hcanvas.
  destruct Hsize as [_ [_ [Hmax [Hlong [Hprop [Hown Hrows]]]]]].
  destruct (Hrows Hside) as [HoutW HoutH].
  exists outW, outH. cbv zeta. split; [|repeat split; assumption].
  unfold Env.resizeImage. rewrite Hread, Hcanvas, Hctx.
  unfold Env.toDataURL. cbn [Pixel.width Pixel.height].
  destruct (Z.leb_spec outW 0); [lia|]. destruct (Z.leb_spec outH 0); [lia|].
  reflexivity.
Qed.

Lemma resize_within_bound_witness :
  (Env.readFile Sample.fair "photo"%string = Js.Resolved Sample.photo /\
   Env.hasContext Sample.fair = true /\
   Pixel.width Sample.photo = 2000 /\ Pixel.height Sample.photo = 1000) /\
  exists outW outH : Z,
    Env.resizeImage Sample.fair "photo"%string 1024 =
      Js.Resolved
        {| Env.base64 :=
             Js.afterComma
               ("data:image/jpeg;base64," ++
                Env.encode Sample.fair "image/jpeg"
                  {| Pixel.width := outW; Pixel.height := outH;
                     Pixel.data := Env.resample Sample.fair Sample.photo outW outH |})%string;
           Env.resizedMime := "image/jpeg"%string |} /\
    1 <= outW /\ 1 <= outH /\ Z.max outW outH <= 1024.
Proof.
  split; [repeat split; reflexivity|].
  destruct (resize_within_bound Sample.fair "photo"%string 1024 Sample.photo
              eq_refl eq_refl) as [outW [outH [Hr [H1 [H2 [H3 _]]]]]];
    [cbn; lia|cbn; lia|lia|right; cbn; lia|].
  exists outW, outH. repeat split; assumption.
Defined.

End ResizeFacts.

(** ** The edit session *)

Module SessionFacts.
Import Js Gemini Env App.
Local Open Scope string_scope.

(** Runs the monadic plumbing and the setters, by value, and nothing else. *)
Ltac exec :=
  cbv beta iota zeta delta
    [tryCatch bind ret await updateHistory setStatus setOriginalImage
     setCurrentImage setPreviewImage setEditPrompt setMimeType setError
     setHistory modify generateEmbroidery editImage upscaleImage generate
     ui sent fst snd settle status originalImage currentImage previewImage
     editPrompt mimeType error history negb orb andb].

Lemma checkApiKey_frame w m : fst (checkApiKey w m) = m.
Proof.
  unfold checkApiKey.
  destruct (aistudio w) as [studio|]; [|reflexivity].
  destruct (hasSelectedApiKey studio) as [[hasKey|e|]|]; try reflexivity.
  exec. destruct (openSelectKey studio) as [[[]|e|]|]; destruct hasKey; reflexivity.
Qed.

Lemma checkApiKey_result w m m0 : snd (checkApiKey w m) = snd (checkApiKey w m0).
Proof.
  unfold checkApiKey.
  destruct (aistudio w) as [studio|]; [|reflexivity].
  destruct (hasSelectedApiKey studio) as [[hasKey|e|]|]; try reflexivity.
  exec. destruct (openSelectKey studio) as [[[]|e|]|]; destruct hasKey; reflexivity.
Qed.

Section Equations.
Variable w : World.
Variables (st : ProcessingStatus) (orig cur prev : option string) (ep mt : string)
          (er : option string) (h : list string) (l : list Request).

Let s : State :=
  {| status := st; originalImage := orig; currentImage := cur;
     previewImage := prev; editPrompt := ep; mimeType := mt; error := er;
     history := h |}.
Let m : Machine := {| ui := s; sent := l |}.

(** The state with another status and error message. *)
Let at_ (st' : ProcessingStatus) (er' : option string) (l' : list Request) : Machine :=
  {| ui := {| status := st'; originalImage := orig; currentImage := cur;
              previewImage := prev; editPrompt := ep; mimeType := mt;
              error := er'; history := h |};
     sent := l' |}.

(** The state after a result was appended. *)
Let appended (url : string) (ep' : string) (l' : list Request) : Machine :=
  {| ui := {| status := Complete; originalImage := orig; currentImage := Some url;
              previewImage := prev; editPrompt := ep'; mimeType := mt;
              error := None; history := (h ++ [url])%list |};
     sent := l' |}.

Lemma handleImageSelect_eq file :
  handleImageSelect w file m =
  match resizeImage w file 1024 with
  | Resolved r =>
      let dataUrl := dataUrlOf (resizedMime r) (base64 r) in
      ({| ui := {| status := Idle; originalImage := base64 r;
                   currentImage := Some dataUrl; previewImage := Some dataUrl;
                   editPrompt := ep; mimeType := resizedMime r; error := None;
                   history := [dataUrl] |};
          sent := l |}, Returned tt)
  | Rejected _ => (at_ Error (Some uploadFailed) l, Returned tt)
  | Unsettled => (at_ Uploading None l, Suspended)
  end.
Proof.
  subst m s at_. unfold handleImageSelect. exec.
  destruct (resizeImage w file 1024) as [r|e|]; exec; reflexivity.
Qed.

Lemma handleEmbroideryTransform_eq :
  handleEmbroideryTransform w s m =
  match cur with
  | Some current =>
      if negb (nonEmpty current) || negb (truthy orig) then (m, Returned tt)
      else
        let request := embroideryRequest (base64Input current) mt in
        let l' := (l ++ [request])%list in
        match reply w request with
        | Returned generated =>
            match removeBackground w ("data:image/jpeg;base64," ++ generated) 30 with
            | Resolved url => (appended url ep l', Returned tt)
            | Rejected _ => (at_ Error (Some transformFailed) l', Returned tt)
            | Unsettled => (at_ RemovingBackground None l', Suspended)
            end
        | Thrown _ => (at_ Error (Some transformFailed) l', Returned tt)
        | Suspended => (at_ Processing None l', Suspended)
        end
  | None => (m, Returned tt)
  end.
Proof.
  subst m s at_ appended. unfold handleEmbroideryTransform. exec.
  destruct cur as [current|]; [|reflexivity].
  destruct (nonEmpty current); [|reflexivity].
  destruct (truthy orig); [|reflexivity].
  exec. destruct (reply w _) as [generated|e|]; exec; try reflexivity.
  destruct (removeBackground w _ 30) as [url|e|]; exec; reflexivity.
Qed.

Lemma handleMagicEdit_eq :
  handleMagicEdit w s m =
  match cur with
  | Some current =>
      if negb (nonEmpty current) || negb (nonEmpty (trim ep)) then (m, Returned tt)
      else
        let request := editRequest (base64Input current) mt ep in
        let l' := (l ++ [request])%list in
        match reply w request with
        | Returned generated =>
            (appended ("data:image/jpeg;base64," ++ generated) "" l', Returned tt)
        | Thrown _ => (at_ Error (Some editFailed) l', Returned tt)
        | Suspended => (at_ Processing None l', Suspended)
        end
  | None => (m, Returned tt)
  end.
Proof.
  subst m s at_ appended. unfold handleMagicEdit. exec.
  destruct cur as [current|]; [|reflexivity].
  destruct (nonEmpty current); [|reflexivity].
  destruct (nonEmpty (trim ep)); [|reflexivity].
  exec. destruct (reply w _) as [generated|e|]; exec; reflexivity.
Qed.

Lemma handleUpscale_eq :
  handleUpscale w s m =
  match cur with
  | Some current =>
      if negb (nonEmpty current) then (m, Returned tt)
      else
        match snd (checkApiKey w m) with
        | Returned _ =>
            let request := upscaleRequest (base64Input current) mt in
            let l' := (l ++ [request])%list in
            match reply w request with
            | Returned upscaled =>
                (appended ("data:image/jpeg;base64," ++ upscaled) ep l', Returned tt)
            | Thrown _ => (at_ Error (Some upscaleFailed) l', Returned tt)
            | Suspended => (at_ Upscaling None l', Suspended)
            end
        | Thrown e => (m, Thrown e)
        | Suspended => (m, Suspended)
        end
  | None => (m, Returned tt)
  end.
Proof.
  unfold handleUpscale. fold m.
  replace (currentImage s) with cur by reflexivity.
  destruct cur as [current|]; [|reflexivity].
  destruct (nonEmpty current); [|reflexivity].
  cbn [negb]. unfold bind at 1.
  pose proof (checkApiKey_frame w m) as Hf.
  destruct (checkApiKey w m) as [m' r]. cbn [fst snd] in *. subst m'.
  destruct r as [[]|e|]; try reflexivity.
  subst m s at_ appended. exec.
  destruct (reply w _) as [upscaled|e|]; exec; reflexivity.
Qed.

Lemma handleUndo_eq :
  handleUndo s m =
  if (1 <? length h)%nat then
    ({| ui := {| status := st; originalImage := orig;
                 currentImage := last (dropLast h); previewImage := prev;
                 editPrompt := ep; mimeType := mt; error := er;
                 history := dropLast h |};
        sent := l |}, Returned tt)
  else (m, Returned tt).
Proof.
  subst m s. unfold handleUndo. exec.
  destruct (1 <? length h)%nat; exec; reflexivity.
Qed.

Lemma handleReset_eq :
  handleReset s m =
  if truthy orig && nonEmpty mt then
    let initialUrl := dataUrlOf mt orig in
    ({| ui := {| status := st; originalImage := orig;
                 currentImage := Some initialUrl; previewImage := prev;
                 editPrompt := ep; mimeType := mt; error := er;
                 history := [initialUrl] |};
        sent := l |}, Returned tt)
  else (m, Returned tt).
Proof.
  subst m s. unfold handleReset. exec.
  destruct (truthy orig); [|reflexivity].
  destruct (nonEmpty mt); exec; reflexivity.
Qed.

End Equations.

(** The handler's equation, then every outcome of the world. *)
Ltac handler_run :=
  unfold invoke, handler; cbn [ui];
  rewrite ?handleImageSelect_eq, ?handleEmbroideryTransform_eq,
    ?handleMagicEdit_eq, ?handleUpscale_eq, ?handleUndo_eq, ?handleReset_eq;
  cbv beta iota zeta delta [setEditPrompt setError modify ui sent];
  repeat match goal with
  | |- context [match ?x with Resolved _ => _ | Rejected _ => _ | Unsettled => _ end] =>
      destruct x eqn:?
  | |- context [match ?x with Returned _ => _ | Thrown _ => _ | Suspended => _ end] =>
      destruct x eqn:?
  | |- context [if ?b then _ else _] => destruct b eqn:?
  | |- context [match ?o with Some _ => _ | None => _ end] => destruct o eqn:?
  end;
  cbn [fst snd ui sent status originalImage currentImage previewImage
       editPrompt mimeType error history].

(** Case analysis on an operation and a machine. *)
Ltac handler_cases m a :=
  destruct m as [[st orig cur prev ep mt er h] l]; destruct a; handler_run.

Lemma dropLast_nonempty (h : list string) :
  (1 < length h)%nat -> dropLast h <> [].
Proof.
  unfold dropLast. intros Hlen Hnil.
  apply (f_equal length) in Hnil. rewrite length_take in Hnil. cbn in Hnil. lia.
Qed.

Lemma dropLast_snoc (h : list string) :
  h <> [] -> exists x, h = (dropLast h ++ [x])%list.
Proof.
  intros Hne. destruct (exists_last Hne) as [h' [x ->]]. exists x.
  unfold dropLast. rewrite length_app. cbn [length].
  replace (length h' + 1 - 1)%nat with (length h') by lia.
  rewrite take_app_length. reflexivity.
Qed.

Lemma invoke_consistent w a m :
  consistent (ui m) -> consistent (ui (fst (invoke w a m))).
Proof.
  intros Hc. handler_cases m a; try exact Hc.
  all: try (split; cbn; [discriminate|reflexivity]).
  all: try (split; cbn; [intros Hn; apply app_eq_nil in Hn; destruct Hn; discriminate
                        |symmetry; apply last_snoc]).
  - split; cbn; [|reflexivity].
    apply dropLast_nonempty. apply Nat.ltb_lt. assumption.
Qed.

Lemma runAll_consistent ops : forall m,
  consistent (ui m) -> consistent (ui (runAll ops m)).
Proof.
  unfold runAll. induction ops as [|[w a] ops IH]; intros m Hc; [exact Hc|].
  cbn [fold_left]. apply IH. unfold step. cbn [fst snd].
  apply invoke_consistent. exact Hc.
Qed.

(** No operation but a successful upload writes [originalImage] or
    [mimeType]. *)
Lemma invoke_keeps_original w a m :
  replacesSession w a = false ->
  originalImage (ui (fst (invoke w a m))) = originalImage (ui m) /\
  mimeType (ui (fst (invoke w a m))) = mimeType (ui m).
Proof.
  intros Ha. destruct m as [[st orig cur prev ep mt er h] l].
  destruct a; cbn [replacesSession] in Ha.
  1: { unfold invoke, handler. rewrite handleImageSelect_eq.
       destruct (resizeImage w file 1024); [discriminate| |]; split; reflexivity. }
  all: handler_run; split; reflexivity.
Qed.

Lemma replacesSession_select w a :
  isSelectImage a = false -> replacesSession w a = false.
Proof. destruct a; [discriminate|..]; reflexivity. Qed.

(** The requests an operation sends carry the stored MIME type. *)
Lemma invoke_sent w a m :
  exists new,
    sent (fst (invoke w a m)) = (sent m ++ new)%list /\
    Forall (fun request => inlineMime request = mimeType (ui m)) new.
Proof.
  handler_cases m a.
  all: try (exists []; split; [symmetry; apply app_nil_r|constructor]).
  all: eexists [_]; split; [reflexivity|]; repeat constructor.
Qed.

(** The upload stores the constant MIME type of resizeImage, or nothing. *)
Lemma resizeImage_mime w file maxDimension r :
  resizeImage w file maxDimension = Resolved r -> resizedMime r = "image/jpeg".
Proof.
  unfold resizeImage. destruct (readFile w file) as [img|e|]; try discriminate.
  destruct (Resize.canvasSize _ _ _) as [cw ch].
  destruct (hasContext w); [|discriminate].
  intros H. injection H as <-. reflexivity.
Qed.

Lemma invoke_mime w a m :
  mimeType (ui m) = "image/jpeg" ->
  mimeType (ui (fst (invoke w a m))) = "image/jpeg".
Proof.
  intros Hm. destruct (isSelectImage a) eqn:Ha.
  - destruct a; try discriminate.
    destruct m as [[st orig cur prev ep mt er h] l].
    unfold invoke, handler. rewrite handleImageSelect_eq.
    destruct (resizeImage w file 1024) as [r|e|] eqn:Hr; cbn; try exact Hm.
    eapply resizeImage_mime. exact Hr.
  - destruct (invoke_keeps_original w a m (replacesSession_select w a Ha)) as [_ ->].
    exact Hm.
Qed.

Lemma runAll_keeps_original ops : forall m,
  Forall (fun wa : World * Action => replacesSession (fst wa) (snd wa) = false) ops ->
  originalImage (ui (runAll ops m)) = originalImage (ui m) /\
  mimeType (ui (runAll ops m)) = mimeType (ui m).
Proof.
  unfold runAll. induction ops as [|[w a] ops IH]; intros m Hops; [split; reflexivity|].
  apply Forall_cons in Hops. destruct Hops as [Ha Hops]. cbn [fst snd] in Ha.
  cbn [fold_left]. destruct (IH (step m (w, a)) Hops) as [-> ->].
  unfold step. cbn [fst snd]. apply invoke_keeps_original. exact Ha.
Qed.

Lemma runAll_sent ops : forall m,
  mimeType (ui m) = "image/jpeg" ->
  Forall (fun request => inlineMime request = "image/jpeg") (sent m) ->
  mimeType (ui (runAll ops m)) = "image/jpeg" /\
  Forall (fun request => inlineMime request = "image/jpeg") (sent (runAll ops m)).
Proof.
  unfold runAll. induction ops as [|[w a] ops IH]; intros m Hm Hs; [split; assumption|].
  cbn [fold_left]. apply IH; unfold step; cbn [fst snd].
  - apply invoke_mime. exact Hm.
  - destruct (invoke_sent w a m) as [new [-> Hnew]].
    apply Forall_app. split; [exact Hs|].
    rewrite Hm in Hnew. exact Hnew.
Qed.

Lemma fire_disabled w c m :
  disabled c (ui m) = true -> fire w c m = (m, Returned tt).
Proof.
  intros Hd. unfold fire. rewrite Hd, andb_false_r. reflexivity.
Qed.

(** C1, as stated, fails: the edit in flight of [Sample.pending] has set
    [status] to [Processing], and each of the three handlers, called in that
    state against a world that answers, runs to the end: it changes
    [status] and [history] (and, for the edit, [currentImage] and the
    prompt). *)
Lemma status_gate_counterexample :
  status (ui Sample.pending) = Processing /\
  busy (status (ui Sample.pending)) = true /\
  (let after := ui (fst (invoke Sample.fair Transform Sample.pending)) in
   status after <> status (ui Sample.pending) /\
   history after <> history (ui Sample.pending)) /\
  (let after := ui (fst (invoke Sample.fair MagicEdit Sample.pending)) in
   status after <> status (ui Sample.pending) /\
   history after <> history (ui Sample.pending) /\
   currentImage after <> currentImage (ui Sample.pending) /\
   editPrompt after <> editPrompt (ui Sample.pending)) /\
  (let after := ui (fst (invoke Sample.fair Upscale Sample.pending)) in
   status after <> status (ui Sample.pending) /\
   history after <> history (ui Sample.pending) /\
   currentImage after <> currentImage (ui Sample.pending)).
Proof.
  vm_compute. repeat split; try reflexivity; intros H; discriminate H.
Qed.

(** C1 (amended). The status gate is the [disabled] attribute of the
    controls: while [status] is neither [idle] nor [complete], the embroidery
    button, the prompt button, the Enter key of the prompt input and the
    upscale button are disabled, and an event on any of them calls no
    handler: the state (status, history, currentImage, prompt) and the list
    of requests sent are unchanged. *)
Theorem status_gate_in_controls (w : World) (m : Machine) :
  busy (status (ui m)) = true ->
  (disabled EmbroideryButton (ui m) = true /\
   fire w EmbroideryButton m = (m, Returned tt)) /\
  (disabled PromptButton (ui m) = true /\
   fire w PromptButton m = (m, Returned tt)) /\
  (disabled PromptEnterKey (ui m) = true /\
   fire w PromptEnterKey m = (m, Returned tt)) /\
  (disabled UpscaleButton (ui m) = true /\
   fire w UpscaleButton m = (m, Returned tt)).
Proof.
  intros Hb.
  assert (H1 : disabled EmbroideryButton (ui m) = true) by exact Hb.
  assert (H2 : disabled PromptButton (ui m) = true)
    by (cbn [disabled]; rewrite Hb; apply orb_true_r).
  assert (H3 : disabled PromptEnterKey (ui m) = true) by exact Hb.
  assert (H4 : disabled UpscaleButton (ui m) = true) by exact Hb.
  repeat split; try assumption; apply fire_disabled; assumption.
Qed.

Lemma status_gate_in_controls_witness :
  busy (status (ui Sample.pending)) = true /\
  fire Sample.fair EmbroideryButton Sample.pending = (Sample.pending, Returned tt) /\
  fire Sample.fair PromptButton Sample.pending = (Sample.pending, Returned tt) /\
  fire Sample.fair PromptEnterKey Sample.pending = (Sample.pending, Returned tt) /\
  fire Sample.fair UpscaleButton Sample.pending = (Sample.pending, Returned tt).
Proof.
  split; [reflexivity|].
  pose proof (status_gate_in_controls Sample.fair Sample.pending eq_refl) as H.
  repeat split; apply H.
Defined.

(** C2. In every run of transformStyle, transformWithPrompt or upscale in
    which the generative call throws, or (embroidery flow) removeBackground
    rejects, the handler returns normally, [status] is [error], [error] holds
    a non-empty message, and [history], [currentImage] and [originalImage]
    are what they were before the operation. *)
Theorem failure_is_contained (w : World) (a : Action) (m : Machine) :
  subStepFails w a (ui m) ->
  let after := ui (fst (invoke w a m)) in
  snd (invoke w a m) = Returned tt /\
  status after = Error /\
  (exists message, error after = Some message /\ nonEmpty message = true) /\
  history after = history (ui m) /\
  currentImage after = currentImage (ui m) /\
  originalImage after = originalImage (ui m).
Proof.
  destruct m as [[st orig cur prev ep mt er h] l].
  destruct a; cbn [subStepFails ui status originalImage currentImage editPrompt mimeType];
    try contradiction.
  - intros [current [-> [Hne [Horig Hfail]]]].
    unfold invoke, handler. cbn [ui]. rewrite handleEmbroideryTransform_eq.
    rewrite Hne, Horig. cbn [negb orb].
    destruct Hfail as [[e He]|[generated [e [Hg Hr]]]].
    + cbv zeta. rewrite He. cbn. repeat split. eexists. split; reflexivity.
    + cbv zeta. rewrite Hg, Hr. cbn. repeat split. eexists. split; reflexivity.
  - intros [current [-> [Hne [Hprompt [e He]]]]].
    unfold invoke, handler. cbn [ui]. rewrite handleMagicEdit_eq.
    rewrite Hne, Hprompt. cbn [negb orb]. cbv zeta. rewrite He. cbn.
    repeat split. eexists. split; reflexivity.
  - intros [current [-> [Hne [Hkey [e He]]]]].
    unfold invoke, handler. cbn [ui]. rewrite handleUpscale_eq.
    rewrite Hne, Hkey. cbn [negb snd]. cbv zeta. rewrite He. cbn.
    repeat split. eexists. split; reflexivity.
Qed.

Lemma failure_is_contained_witness :
  subStepFails Sample.silent Upscale (ui Sample.stitched) /\
  (let after := ui (fst (invoke Sample.silent Upscale Sample.stitched)) in
   snd (invoke Sample.silent Upscale Sample.stitched) = Returned tt /\
   status after = Error /\
   (exists message, error after = Some message /\ nonEmpty message = true) /\
   history after = history (ui Sample.stitched) /\
   currentImage after = currentImage (ui Sample.stitched) /\
   originalImage after = originalImage (ui Sample.stitched)).
Proof.
  assert (H : subStepFails Sample.silent Upscale (ui Sample.stitched)).
  { exists "data:image/png;base64,UE5H".
    split; [vm_compute; reflexivity|]. split; [vm_compute; reflexivity|].
    split; [intros m; reflexivity|].
    exists "No candidates returned from Gemini API". vm_compute. reflexivity. }
  split; [exact H|].
  exact (failure_is_contained Sample.silent Upscale Sample.stitched H).
Defined.

(** The check for an API key stands before the [try] of handleUpscale: when
    it rejects, the rejection leaves the handler and the state is as it was. *)
Example upscale_key_check_escapes :
  invoke Sample.locked Upscale Sample.stitched =
    (Sample.stitched, Thrown "no key service").
Proof. vm_compute. reflexivity. Qed.

(** C3. After a successful upload, [history] is not empty and
    [currentImage] is its last entry; this holds again after any sequence of
    operations, each against any world; and every single operation,
    started in any state where it holds, ends in a state where it holds. *)
Theorem history_invariant (w0 : World) (file : File) (m0 : Machine) (r : Resized)
    (ops : list (World * Action)) :
  resizeImage w0 file 1024 = Resolved r ->
  let m1 := fst (invoke w0 (SelectImage file) m0) in
  consistent (ui m1) /\
  consistent (ui (runAll ops m1)) /\
  (forall w a m, consistent (ui m) -> consistent (ui (fst (invoke w a m)))).
Proof.
  intros Hr m1.
  assert (H1 : consistent (ui m1)).
  { subst m1. destruct m0 as [[st orig cur prev ep mt er h] l].
    unfold invoke, handler. rewrite handleImageSelect_eq, Hr.
    split; cbn; [discriminate|reflexivity]. }
  split; [exact H1|]. split.
  - apply runAll_consistent. exact H1.
  - intros w a m. apply invoke_consistent.
Qed.

Lemma history_invariant_witness :
  resizeImage Sample.fair "photo" 1024 =
    Resolved {| base64 := Some "SlBH"; resizedMime := "image/jpeg" |} /\
  (let m1 := fst (invoke Sample.fair (SelectImage "photo") start) in
   consistent (ui m1) /\
   consistent (ui (runAll [(Sample.fair, Transform); (Sample.silent, Upscale);
                           (Sample.fair, Undo)] m1)) /\
   (forall w a m, consistent (ui m) -> consistent (ui (fst (invoke w a m))))).
Proof.
  split.
  - vm_compute. reflexivity.
  - apply (history_invariant Sample.fair "photo" start
             {| base64 := Some "SlBH"; resizedMime := "image/jpeg" |}).
    vm_compute. reflexivity.
Defined.

(** C7. In a session (history not empty): the undo button is enabled
    only when history has more than one entry and status is idle or complete;
    with more than one entry handleUndo removes exactly the last entry,
    makes the new last entry the current image and leaves status as it was;
    with one entry it changes nothing; and history is never left empty. *)
Theorem undo_removes_last (w : World) (m : Machine) :
  (1 <= length (history (ui m)))%nat ->
  let after := ui (fst (invoke w Undo m)) in
  (enabled UndoButton (ui m) = true ->
     (1 < length (history (ui m)))%nat /\ busy (status (ui m)) = false) /\
  ((1 < length (history (ui m)))%nat ->
     (exists removed, history (ui m) = (history after ++ [removed])%list) /\
     currentImage after = last (history after) /\
     status after = status (ui m) /\
     snd (invoke w Undo m) = Returned tt) /\
  (length (history (ui m)) = 1%nat -> invoke w Undo m = (m, Returned tt)) /\
  (1 <= length (history after))%nat.
Proof.
  destruct m as [[st orig cur prev ep mt er h] l]. cbn [ui history status].
  intros Hlen. unfold invoke, handler. cbn [ui]. rewrite handleUndo_eq.
  split; [|split; [|split]].
  - unfold enabled, shown, disabled. cbn [history status currentImage].
    intros He. apply andb_true_iff in He. destruct He as [Hs Hd].
    apply andb_true_iff in Hs. destruct Hs as [_ Hs].
    apply Nat.ltb_lt in Hs. apply negb_true_iff in Hd. split; assumption.
  - intros Hgt. apply Nat.ltb_lt in Hgt. rewrite Hgt. cbn.
    repeat split. apply dropLast_snoc. intros ->. cbn in Hlen. lia.
  - intros H1. rewrite H1. reflexivity.
  - destruct (Nat.ltb_spec 1 (length h)) as [Hgt|Hle]; cbn; [|exact Hlen].
    unfold dropLast. rewrite length_take. lia.
Qed.

Lemma undo_removes_last_witness :
  (1 <= length (history (ui Sample.stitched)))%nat /\
  enabled UndoButton (ui Sample.stitched) = true /\
  history (ui (fst (invoke Sample.fair Undo Sample.stitched))) =
    history (ui Sample.uploaded) /\
  currentImage (ui (fst (invoke Sample.fair Undo Sample.stitched))) =
    currentImage (ui Sample.uploaded) /\
  invoke Sample.fair Undo Sample.uploaded = (Sample.uploaded, Returned tt).
Proof.
  assert (Hlen : (1 <= length (history (ui Sample.stitched)))%nat)
    by (vm_compute; lia).
  assert (Hlen' : (1 <= length (history (ui Sample.uploaded)))%nat)
    by (vm_compute; lia).
  pose proof (undo_removes_last Sample.fair Sample.stitched Hlen) as H.
  pose proof (undo_removes_last Sample.fair Sample.uploaded Hlen') as H'.
  split; [exact Hlen|].
  split; [vm_compute; reflexivity|].
  split; [vm_compute; reflexivity|].
  split; [vm_compute; reflexivity|].
  apply H'. vm_compute. reflexivity.
Defined.

(** C8. After an upload whose encoding has a payload, and after any
    sequence of operations among which no further upload succeeds,
    handleReset leaves
    [history] with the single entry that the upload stored (rebuilt from
    [originalImage] and [mimeType], not read from [history]) and makes it
    the current image; and the reset button is enabled only when history has
    more than one entry. *)
Theorem reset_restores_original (w0 : World) (file : File) (m0 : Machine)
    (r : Resized) (payload : string) (ops : list (World * Action)) (w : World) :
  resizeImage w0 file 1024 = Resolved r ->
  base64 r = Some payload -> nonEmpty payload = true ->
  Forall (fun wa : World * Action => replacesSession (fst wa) (snd wa) = false) ops ->
  let normalized := dataUrlOf (resizedMime r) (base64 r) in
  let m1 := fst (invoke w0 (SelectImage file) m0) in
  let after := ui (fst (invoke w Reset (runAll ops m1))) in
  history (ui m1) = [normalized] /\
  history after = [normalized] /\
  currentImage after = Some normalized /\
  (forall s, enabled ResetButton s = true -> (1 < length (history s))%nat).
Proof.
  intros Hr Hb Hne Hops normalized m1 after.
  assert (Hm1 : ui m1 =
            {| status := Idle; originalImage := base64 r;
               currentImage := Some normalized; previewImage := Some normalized;
               editPrompt := editPrompt (ui m0); mimeType := resizedMime r;
               error := None; history := [normalized] |}).
  { subst m1. destruct m0 as [[st orig cur prev ep mt er h] l].
    unfold invoke, handler. rewrite handleImageSelect_eq, Hr. reflexivity. }
  destruct (runAll_keeps_original ops m1 Hops) as [Horig Hmime].
  rewrite Hm1 in Horig, Hmime. cbn [originalImage mimeType] in Horig, Hmime.
  split; [rewrite Hm1; reflexivity|].
  assert (Hafter : history after = [normalized] /\ currentImage after = Some normalized).
  { subst after. destruct (runAll ops m1) as [[st orig cur prev ep mt er h] l].
    cbn [ui originalImage mimeType] in Horig, Hmime. subst orig mt.
    unfold invoke, handler. cbn [ui]. rewrite handleReset_eq.
    rewrite (resizeImage_mime _ _ _ _ Hr) in *.
    rewrite Hb. cbn [truthy]. rewrite Hne. cbn. subst normalized.
    rewrite (resizeImage_mime _ _ _ _ Hr), Hb. split; reflexivity. }
  destruct Hafter as [H1 H2]. split; [exact H1|]. split; [exact H2|].
  intros s He. unfold enabled in He. apply andb_true_iff in He.
  destruct He as [_ Hd]. apply negb_true_iff in Hd. cbn [disabled] in Hd.
  apply orb_false_iff in Hd. destruct Hd as [Hd _]. apply Nat.leb_gt in Hd. exact Hd.
Qed.

Lemma reset_restores_original_witness :
  (resizeImage Sample.fair "photo" 1024 =
     Resolved {| base64 := Some "SlBH"; resizedMime := "image/jpeg" |} /\
   nonEmpty "SlBH" = true) /\
  (let ops := [(Sample.fair, Transform); (Sample.fair, TypePrompt "add a border");
               (Sample.fair, MagicEdit); (Sample.silent, Upscale)] in
   let after := ui (fst (invoke Sample.fair Reset (runAll ops Sample.uploaded))) in
   history after = ["data:image/jpeg;base64,SlBH"] /\
   currentImage after = Some "data:image/jpeg;base64,SlBH").
Proof.
  assert (Hr : resizeImage Sample.fair "photo" 1024 =
     Resolved {| base64 := Some "SlBH"; resizedMime := "image/jpeg" |})
    by (vm_compute; reflexivity).
  split; [split; [exact Hr|reflexivity]|].
  pose proof (reset_restores_original Sample.fair "photo" start _ "SlBH"
    [(Sample.fair, Transform); (Sample.fair, TypePrompt "add a border");
     (Sample.fair, MagicEdit); (Sample.silent, Upscale)] Sample.fair
    Hr eq_refl eq_refl) as H.
  cbv zeta in H. cbv zeta. split; apply H; repeat constructor.
Defined.

(** Without a payload the reset does nothing: an image one pixel high
    leaves a canvas without pixels, [toDataURL] answers ["data:,"] and
    [originalImage] is the empty string. *)
Example reset_without_payload :
  let m1 := fst (invoke Sample.thin (SelectImage "line") start) in
  let m2 := runAll [(Sample.fair, TypePrompt "add a border");
                    (Sample.fair, MagicEdit)] m1 in
  originalImage (ui m1) = Some "" /\
  length (history (ui m2)) = 2%nat /\
  invoke Sample.fair Reset m2 = (m2, Returned tt).
Proof. vm_compute. repeat split. Qed.

(** C9. handleMagicEdit with a prompt that is empty after trimming returns
    without any change of state and without sending a request; whenever it
    does anything the trimmed prompt is not empty; and with a current image
    and a prompt that is not empty after trimming the request carrying the
    prompt is sent. *)
Theorem blank_prompt_rejected (w : World) (m : Machine) :
  (trim (editPrompt (ui m)) = "" -> invoke w MagicEdit m = (m, Returned tt)) /\
  (invoke w MagicEdit m <> (m, Returned tt) -> trim (editPrompt (ui m)) <> "") /\
  (forall current,
     currentImage (ui m) = Some current -> nonEmpty current = true ->
     nonEmpty (trim (editPrompt (ui m))) = true ->
     sent (fst (invoke w MagicEdit m)) =
       (sent m ++
        [editRequest (base64Input current) (mimeType (ui m)) (editPrompt (ui m))])%list).
Proof.
  destruct m as [[st orig cur prev ep mt er h] l].
  cbn [ui editPrompt currentImage mimeType sent].
  assert (Hblank : trim ep = "" ->
            invoke w MagicEdit
              {| ui := {| status := st; originalImage := orig; currentImage := cur;
                          previewImage := prev; editPrompt := ep; mimeType := mt;
                          error := er; history := h |}; sent := l |} =
            ({| ui := {| status := st; originalImage := orig; currentImage := cur;
                         previewImage := prev; editPrompt := ep; mimeType := mt;
                         error := er; history := h |}; sent := l |}, Returned tt)).
  { intros Hb. unfold invoke, handler. cbn [ui]. rewrite handleMagicEdit_eq.
    rewrite Hb. destruct cur as [current|]; [|reflexivity].
    cbn [nonEmpty String.eqb negb]. rewrite orb_true_r. reflexivity. }
  split; [exact Hblank|]. split.
  - intros Hrun Hb. apply Hrun. apply Hblank. exact Hb.
  - intros current -> Hc Hp. unfold invoke, handler. cbn [ui].
    rewrite handleMagicEdit_eq. rewrite Hc, Hp. cbn [negb orb]. cbv zeta.
    destruct (reply w _); reflexivity.
Qed.

Lemma blank_prompt_rejected_witness :
  trim (editPrompt (ui Sample.blank)) = "" /\
  invoke Sample.fair MagicEdit Sample.blank = (Sample.blank, Returned tt).
Proof.
  assert (H : trim (editPrompt (ui Sample.blank)) = "") by (vm_compute; reflexivity).
  split; [exact H|].
  exact (proj1 (blank_prompt_rejected Sample.fair Sample.blank) H).
Defined.

(** C10. No operation but the upload writes [mimeType]; the upload writes
    the MIME type resizeImage resolved with, which is always image/jpeg;
    every request an operation sends carries the stored [mimeType]; hence
    from the start of the component, after any sequence of operations,
    [mimeType] is image/jpeg and so is the MIME type of every request sent,
    whatever the current image is. *)
Theorem mime_type_is_upload_time :
  (forall w a m, isSelectImage a = false ->
     mimeType (ui (fst (invoke w a m))) = mimeType (ui m)) /\
  (forall w file m,
     mimeType (ui (fst (invoke w (SelectImage file) m))) =
       match resizeImage w file 1024 with
       | Resolved r => resizedMime r
       | _ => mimeType (ui m)
       end) /\
  (forall w file maxDimension r,
     resizeImage w file maxDimension = Resolved r -> resizedMime r = "image/jpeg") /\
  (forall w a m, exists new,
     sent (fst (invoke w a m)) = (sent m ++ new)%list /\
     Forall (fun request => inlineMime request = mimeType (ui m)) new) /\
  (forall ops,
     mimeType (ui (runAll ops start)) = "image/jpeg" /\
     Forall (fun request => inlineMime request = "image/jpeg")
       (sent (runAll ops start))).
Proof.
  split; [|split; [|split; [|split]]].
  - intros w a m Ha. apply invoke_keeps_original.
    apply replacesSession_select. exact Ha.
  - intros w file m. destruct m as [[st orig cur prev ep mt er h] l].
    unfold invoke, handler. rewrite handleImageSelect_eq.
    destruct (resizeImage w file 1024); reflexivity.
  - apply resizeImage_mime.
  - apply invoke_sent.
  - intros ops. apply runAll_sent; [reflexivity|constructor].
Qed.

(** The current image is the PNG of the transparency pass and the request
    of the next edit still announces a JPEG. *)
Example png_sent_as_jpeg :
  let typed := fst (invoke Sample.fair (TypePrompt "add a border") Sample.stitched) in
  currentImage (ui typed) = Some "data:image/png;base64,UE5H" /\
  sent (fst (invoke Sample.fair MagicEdit typed)) =
    (sent typed ++
     [editRequest (Some "UE5H") "image/jpeg" "add a border"])%list.
Proof. vm_compute. split; reflexivity. Qed.

(** The scenario of the specification: upload, embroidery flow, undo. *)
Example scenario_upload_transform_undo :
  history (ui Sample.uploaded) = ["data:image/jpeg;base64,SlBH"] /\
  status (ui Sample.stitched) = Complete /\
  history (ui Sample.stitched) =
    ["data:image/jpeg;base64,SlBH"; "data:image/png;base64,UE5H"] /\
  ui (fst (invoke Sample.fair Undo Sample.stitched)) =
    {| status := Complete; originalImage := Some "SlBH";
       currentImage := Some "data:image/jpeg;base64,SlBH";
       previewImage := Some "data:image/jpeg;base64,SlBH";
       editPrompt := ""; mimeType := "image/jpeg"; error := None;
       history := ["data:image/jpeg;base64,SlBH"] |}.
Proof. vm_compute. repeat split. Qed.

(** The scenario of the specification: the model returns no candidate
    during the upscale. *)
Example scenario_upscale_no_candidate :
  let after := ui (fst (invoke Sample.silent Upscale Sample.stitched)) in
  status after = Error /\
  history after = history (ui Sample.stitched) /\
  last (history after) = Some "data:image/png;base64,UE5H".
Proof. vm_compute. repeat split. Qed.

End SessionFacts.

(** * Further properties of the code *)

(** ** Data URLs *)

Module TextFacts.
Import Js Text.
Local Open Scope string_scope.

Lemma append_assoc (a b c : string) : (a ++ b) ++ c = a ++ (b ++ c).
Proof. induction a as [|x a IH]; cbn; [reflexivity|]. rewrite IH. reflexivity. Qed.

Lemma lacks_append c a b : lacks c (a ++ b) = lacks c a && lacks c b.
Proof.
  induction a as [|x a IH]; cbn; [reflexivity|].
  rewrite IH. rewrite andb_assoc. reflexivity.
Qed.

Lemma split_nonempty sep s : split sep s <> [].
Proof.
  induction s as [|c s IH]; cbn; [discriminate|].
  destruct (Ascii.eqb c sep); [discriminate|].
  destruct (split sep s); [contradiction|discriminate].
Qed.

(** Without the separator there is one piece. *)
Lemma split_lacks sep s : lacks sep s = true -> split sep s = [s].
Proof.
  induction s as [|c s IH]; cbn; [reflexivity|].
  intros H. apply andb_true_iff in H. destruct H as [Hc Hs].
  apply negb_true_iff in Hc. rewrite Hc, (IH Hs). reflexivity.
Qed.

(** The first piece ends at the first separator. *)
Lemma split_at_first sep a b :
  lacks sep a = true -> split sep (a ++ String sep b) = a :: split sep b.
Proof.
  induction a as [|c a IH]; cbn.
  - intros _. rewrite Ascii.eqb_refl. reflexivity.
  - intros H. apply andb_true_iff in H. destruct H as [Hc Ha].
    apply negb_true_iff in Hc. rewrite Hc, (IH Ha). reflexivity.
Qed.

Lemma split_two_pieces sep a b :
  (2 <= length (split sep (a ++ String sep b)))%nat.
Proof.
  induction a as [|c a IH]; cbn.
  - rewrite Ascii.eqb_refl. cbn.
    pose proof (split_nonempty sep b). destruct (split sep b); [contradiction|cbn; lia].
  - destruct (Ascii.eqb c sep); [cbn; lia|].
    destruct (split sep (a ++ String sep b)); cbn in *; lia.
Qed.

(** A string with a comma is [a ++ "," ++ b]. *)
Lemma hasComma_inv s :
  hasComma s = true -> exists a b, s = a ++ String "," b /\ lacks "," a = true.
Proof.
  unfold hasComma. induction s as [|c s IH]; cbn; [discriminate|].
  destruct (Ascii.eqb c ",") eqn:Hc; cbn.
  - intros _. apply Ascii.eqb_eq in Hc. subst c. exists "", s. split; reflexivity.
  - intros H. destruct (IH H) as [a [b [-> Ha]]].
    exists (String c a), b. split; [reflexivity|]. cbn. rewrite Hc, Ha. reflexivity.
Qed.

Lemma hasComma_append_comma a b : hasComma (a ++ String "," b) = true.
Proof.
  unfold hasComma. rewrite lacks_append. cbn. rewrite andb_false_r. reflexivity.
Qed.

Lemma afterComma_defined s : hasComma s = true -> afterComma s <> None.
Proof.
  intros H. destruct (hasComma_inv s H) as [a [b [-> _]]].
  unfold afterComma. pose proof (split_two_pieces "," a b) as Hlen.
  intros Hnone. apply lookup_ge_None in Hnone. lia.
Qed.

Lemma hasComma_nonEmpty s : hasComma s = true -> nonEmpty s = true.
Proof. destruct s; [discriminate|reflexivity]. Qed.

Lemma dataUrlOf_split mime payload :
  dataUrlOf mime payload =
  ("data:" ++ mime ++ ";base64") ++ String "," (interpolate payload).
Proof.
  unfold dataUrlOf. rewrite !append_assoc. reflexivity.
Qed.

Lemma hasComma_dataUrlOf mime payload : hasComma (dataUrlOf mime payload) = true.
Proof. rewrite dataUrlOf_split. apply hasComma_append_comma. Qed.

(** Every piece of a split lacks the separator. *)
Lemma split_pieces_lack sep s : Forall (fun piece => lacks sep piece = true) (split sep s).
Proof.
  induction s as [|c s IH]; cbn; [repeat constructor|].
  destruct (Ascii.eqb c sep) eqn:Hc; [constructor; [reflexivity|exact IH]|].
  destruct (split sep s) as [|cur rest]; [repeat constructor; cbn; rewrite Hc; reflexivity|].
  inversion IH as [|? ? Hcur Hrest]; subst.
  constructor; [cbn; rewrite Hc, Hcur; reflexivity|exact Hrest].
Qed.

Lemma afterComma_lacks s p : afterComma s = Some p -> lacks "," p = true.
Proof.
  unfold afterComma. intros H.
  pose proof (split_pieces_lack "," s) as Hall.
  rewrite Forall_lookup in Hall. exact (Hall _ _ H).
Qed.

Lemma afterComma_dataUrlOf (mime payload : string) :
  lacks "," mime = true -> lacks "," payload = true ->
  afterComma (dataUrlOf mime (Some payload)) = Some payload.
Proof.
  intros Hm Hp. rewrite dataUrlOf_split. unfold afterComma.
  rewrite split_at_first.
  - cbn [interpolate]. rewrite (split_lacks _ _ Hp). reflexivity.
  - rewrite !lacks_append, Hm. reflexivity.
Qed.

(** X1. [dataUrl.split(',')[1]] reads back the payload of a data URL built
    by the template [`data:${mime};base64,${payload}`] when neither the MIME
    type nor the payload holds a comma; a payload that holds one comes back
    cut at its first comma; a payload that is undefined comes back as the
    text undefined; and what is read back never holds a comma. *)
Theorem data_url_round_trip (mime : string) :
  lacks "," mime = true ->
  (forall payload, lacks "," payload = true ->
     afterComma (dataUrlOf mime (Some payload)) = Some payload) /\
  (forall head tail, lacks "," head = true ->
     afterComma (dataUrlOf mime (Some (head ++ String "," tail))) = Some head) /\
  afterComma (dataUrlOf mime None) = Some "undefined" /\
  (forall payload read,
     afterComma (dataUrlOf mime payload) = Some read -> lacks "," read = true).
Proof.
  intros Hm. split; [|split; [|split]].
  - intros payload Hp. apply afterComma_dataUrlOf; assumption.
  - intros head tail Hh. rewrite dataUrlOf_split. unfold afterComma.
    rewrite split_at_first by (rewrite !lacks_append, Hm; reflexivity).
    cbn [interpolate]. rewrite split_at_first by exact Hh. reflexivity.
  - apply (afterComma_dataUrlOf mime "undefined"); [exact Hm|reflexivity].
  - intros payload read. apply afterComma_lacks.
Qed.

Lemma data_url_round_trip_witness :
  lacks "," "image/jpeg" = true /\
  afterComma (dataUrlOf "image/jpeg" (Some "SlBH")) = Some "SlBH" /\
  afterComma (dataUrlOf "image/jpeg" (Some "Sl,BH")) = Some "Sl".
Proof.
  split; [reflexivity|].
  destruct (data_url_round_trip "image/jpeg" eq_refl) as [H1 [H2 _]].
  split; [apply H1; reflexivity|apply (H2 "Sl" "BH"); reflexivity].
Defined.

End TextFacts.

(** ** The pixel pass at other tolerances *)

Module PixelMore.
Import Pixel PixelFacts.

Lemma near_nonpositive t tr tg tb r g b :
  (t <= 0)%Q -> near t tr tg tb r g b = false.
Proof.
  intros Ht. apply near_false_diff.
  eapply Qle_trans; [exact Ht|]. apply DoubleFacts.sqrt_nonneg.
Qed.

(** X2. With a tolerance that is zero or negative the pixel pass of
    removeBackground returns the image unchanged: no pixel is made
    transparent, not even pure white. *)
Theorem removeBackground_no_tolerance (t : Q) (img : ImageData) :
  (t <= 0)%Q -> removeBackgroundPixels t img = img.
Proof.
  intros Ht. destruct img as [w h d]. unfold removeBackgroundPixels, removeBackgroundData.
  cbn [width height data]. f_equal.
  apply list_eq. intros j. rewrite keyOut_lookup. unfold expected.
  destruct (d !! j); [|reflexivity].
  destruct (j mod 4 =? 3)%nat; [|reflexivity].
  repeat case_match; try reflexivity.
  rewrite near_nonpositive in * by exact Ht. discriminate.
Qed.

Lemma removeBackground_no_tolerance_witness :
  (0 <= 0)%Q /\ removeBackgroundPixels 0 sample = sample.
Proof.
  split; [apply Qle_refl|].
  apply (removeBackground_no_tolerance 0 sample). apply Qle_refl.
Defined.

Lemma near_max t1 t2 tr tg tb r g b :
  near t1 tr tg tb r g b || near t2 tr tg tb r g b =
  near (Qmax t1 t2) tr tg tb r g b.
Proof.
  destruct (near (Qmax t1 t2) tr tg tb r g b) eqn:E3.
  - apply near_diff in E3.
    destruct (near t1 tr tg tb r g b) eqn:E1; [reflexivity|].
    destruct (near t2 tr tg tb r g b) eqn:E2; [reflexivity|].
    apply near_false_diff in E1. apply near_false_diff in E2. exfalso.
    assert (H : (Qmax t1 t2 <= diff tr tg tb r g b)%Q) by (apply Q.max_lub; assumption).
    exact (Qlt_not_le _ _ E3 H).
  - apply near_false_diff in E3. apply Q.max_lub_iff in E3. destruct E3 as [K1 K2].
    apply near_false_diff in K1. apply near_false_diff in K2.
    rewrite K1, K2. reflexivity.
Qed.

(** The output of one pass after another, at every index. *)
Lemma keyOut_twice_lookup t1 t2 tr tg tb (d : list Z) j :
  keyOut t1 tr tg tb (keyOut t2 tr tg tb d) !! j =
  expected (Qmax t1 t2) tr tg tb d j.
Proof.
  rewrite keyOut_lookup. unfold expected at 1. rewrite keyOut_lookup.
  destruct (Nat.eqb_spec (j mod 4) 3) as [Hm|Hm].
  - rewrite !keyOut_rgb by lia. unfold expected.
    replace (j mod 4 =? 3)%nat with true by (symmetry; apply Nat.eqb_eq; exact Hm).
    destruct (d !! j) as [a|]; [|reflexivity].
    destruct (d !! (j - 3)%nat) as [r|]; [|reflexivity].
    destruct (d !! (j - 2)%nat) as [g|]; [|reflexivity].
    destruct (d !! (j - 1)%nat) as [b|]; [|reflexivity].
    rewrite <- near_max.
    destruct (near t2 tr tg tb r g b), (near t1 tr tg tb r g b); reflexivity.
  - rewrite !expected_not_alpha by exact Hm.
    destruct (d !! j); reflexivity.
Qed.

(** X3. Two pixel passes with tolerances [t1] and [t2] give what one pass
    with the greater tolerance gives, so the passes commute. *)
Theorem removeBackground_tolerances_compose (t1 t2 : Q) (img : ImageData) :
  removeBackgroundPixels t1 (removeBackgroundPixels t2 img) =
    removeBackgroundPixels (Qmax t1 t2) img /\
  removeBackgroundPixels t1 (removeBackgroundPixels t2 img) =
    removeBackgroundPixels t2 (removeBackgroundPixels t1 img).
Proof.
  assert (H : forall a b,
    removeBackgroundPixels a (removeBackgroundPixels b img) =
    removeBackgroundPixels (Qmax a b) img).
  { intros a b. unfold removeBackgroundPixels, removeBackgroundData.
    cbn [width height data]. f_equal. apply list_eq. intros j.
    rewrite keyOut_twice_lookup, keyOut_lookup. reflexivity. }
  split; [apply H|]. rewrite !H.
  unfold removeBackgroundPixels, removeBackgroundData. cbn [width height data].
  f_equal. apply list_eq. intros j. rewrite !keyOut_lookup. unfold expected.
  destruct (data img !! j) as [v|]; [|reflexivity].
  destruct (j mod 4 =? 3)%nat; [|reflexivity].
  destruct (data img !! (j - 3)%nat) as [r|]; [|reflexivity].
  destruct (data img !! (j - 2)%nat) as [g|]; [|reflexivity].
  destruct (data img !! (j - 1)%nat) as [b|]; [|reflexivity].
  rewrite <- !near_max. rewrite orb_comm. reflexivity.
Qed.

(** X4. The distance the code computes from black to white is
    [Math.sqrt(195075)], about 441.67, and no pixel of byte channels is
    farther from white.  With a tolerance above that number the loop sets
    alpha 0 on every complete pixel: in the buffer the pixel is
    [(r, g, b, 0)], and in the canvas that is encoded it reads
    [(0, 0, 0, 0)].  With that number or less as tolerance a black pixel
    keeps its alpha. *)
Theorem removeBackground_full_tolerance (t : Q) (img : ImageData) (p : nat)
    (r g b a : Z) :
  pixel (data img) p = Some (r, g, b, a) ->
  0 <= r <= 255 -> 0 <= g <= 255 -> 0 <= b <= 255 ->
  diff targetR targetG targetB 0 0 0 = Double.sqrt 195075 /\
  (441 < Double.sqrt 195075 < 442)%Q /\
  (diff targetR targetG targetB r g b <= Double.sqrt 195075)%Q /\
  ((Double.sqrt 195075 < t)%Q ->
   pixel (data (removeBackgroundPixels t img)) p = Some (r, g, b, 0) /\
   forall blend,
     pixel (data (putImageData blend (removeBackgroundPixels t img))) p =
       Some (0, 0, 0, 0)) /\
  ((t <= Double.sqrt 195075)%Q -> r = 0 -> g = 0 -> b = 0 ->
   pixel (data (removeBackgroundPixels t img)) p = Some (r, g, b, a)).
Proof.
  intros Hp Hr Hg Hb. cbn [removeBackgroundPixels data]. unfold removeBackgroundData.
  rewrite (keyOut_pixel t targetR targetG targetB (data img) p r g b a Hp).
  assert (Hfar : (diff targetR targetG targetB r g b <= Double.sqrt 195075)%Q).
  { unfold diff. apply DoubleFacts.sqrt_monotone; [|reflexivity].
    pose proof (sqdist_nonneg targetR targetG targetB r g b).
    pose proof (sqdist_bytes targetR targetG targetB r g b) as Hs.
    unfold targetR, targetG, targetB in *. lia. }
  split; [reflexivity|]. split; [split; vm_compute; reflexivity|].
  split; [exact Hfar|]. split.
  - intros Ht.
    assert (Hnear : near t targetR targetG targetB r g b = true).
    { apply near_diff. eapply Qle_lt_trans; [exact Hfar|exact Ht]. }
    split; [rewrite Hnear; reflexivity|].
    intros blend. cbn [putImageData data]. rewrite pixel_putPixels.
    cbn [removeBackgroundPixels data]. unfold removeBackgroundData.
    rewrite (keyOut_pixel t targetR targetG targetB (data img) p r g b a Hp), Hnear.
    reflexivity.
  - intros Ht -> -> ->.
    replace (near t targetR targetG targetB 0 0 0) with false; [reflexivity|].
    symmetry. apply near_false_diff. exact Ht.
Qed.

Lemma removeBackground_full_tolerance_witness :
  pixel (data sample) 1 = Some (10, 20, 30, 255) /\
  pixel (data (removeBackgroundPixels (4417 # 10) sample)) 1 = Some (10, 20, 30, 0).
Proof.
  split; [reflexivity|].
  destruct (removeBackground_full_tolerance (4417 # 10) sample 1 10 20 30 255
              eq_refl ltac:(lia) ltac:(lia) ltac:(lia)) as [_ [_ [_ [H _]]]].
  destruct H as [H _]; [vm_compute; reflexivity|]. exact H.
Defined.

End PixelMore.

(** ** The size of the canvas *)

Module ResizeMore.
Import Resize ResizeFacts.

(** X5. resizeImage never enlarges: for sides and bound that are positive
    and below 2^25, the canvas is at most as wide and at most as high as the
    image. *)
Theorem resize_never_enlarges (w h maxDimension : Z) :
  0 < w < 2 ^ 25 -> 0 < h < 2 ^ 25 -> 0 < maxDimension < 2 ^ 25 ->
  fst (canvasSize w h maxDimension) <= w /\
  snd (canvasSize w h maxDimension) <= h.
Proof.
  intros Hw Hh Hm.
  assert (Hwm : w * maxDimension < 2 ^ 51) by nia.
  assert (Hhm : h * maxDimension < 2 ^ 51) by nia.
  destruct (Z_lt_le_dec h w) as [Hhw|Hhw].
  - destruct (Z_lt_le_dec maxDimension w) as [Hbig|Hfit].
    + rewrite canvasSize_wide by lia. cbn [fst snd].
      destruct (DoubleFacts.scaleTo_floor h maxDimension w) as [H0 [H1 H2]]; try lia.
      split; [lia|nia].
    + rewrite canvasSize_fits by lia. cbn. lia.
  - destruct (Z_lt_le_dec maxDimension h) as [Hbig|Hfit].
    + rewrite canvasSize_tall by lia. cbn [fst snd].
      destruct (DoubleFacts.scaleTo_floor w maxDimension h) as [H0 [H1 H2]]; try lia.
      split; [nia|lia].
    + rewrite canvasSize_fits by lia. cbn. lia.
Qed.

Lemma resize_never_enlarges_witness :
  (0 < 2000 < 2 ^ 25 /\ 0 < 1000 < 2 ^ 25 /\ 0 < 1024 < 2 ^ 25) /\
  fst (canvasSize 2000 1000 1024) <= 2000 /\
  snd (canvasSize 2000 1000 1024) <= 1000.
Proof.
  split; [lia|]. apply (resize_never_enlarges 2000 1000 1024); lia.
Defined.

(** X6. A square image larger than the bound comes out [maxDimension] high
    and [maxDimension] or one pixel less wide: the width is computed by a
    rounded multiplication and division and floored, the height is set to
    the bound. *)
Theorem resize_square (w maxDimension : Z) :
  0 < maxDimension -> maxDimension < w < 2 ^ 25 ->
  snd (canvasSize w w maxDimension) = maxDimension /\
  (fst (canvasSize w w maxDimension) = maxDimension \/
   fst (canvasSize w w maxDimension) = maxDimension - 1).
Proof.
  intros Hm Hw. rewrite canvasSize_tall by lia. cbn [fst snd].
  split; [reflexivity|].
  assert (Hb : w * maxDimension < 2 ^ 51) by nia.
  destruct (DoubleFacts.scaleTo_floor w maxDimension w) as [H0 [H1 H2]]; try lia.
  set (s := Qfloor (scaleTo w maxDimension w)) in *.
  assert (maxDimension - 1 <= s <= maxDimension) by nia. lia.
Qed.

(** Both cases occur. *)
Example resize_square_1122 :
  canvasSize 1122 1122 1024 = (1023, 1024) /\
  canvasSize 2048 2048 1024 = (1024, 1024) /\
  Binary64.agrees 1122 1024 1122 = true.
Proof. vm_compute. repeat split. Qed.

Lemma resize_square_witness :
  (0 < 1024 /\ 1024 < 1122 < 2 ^ 25) /\
  snd (canvasSize 1122 1122 1024) = 1024 /\
  (fst (canvasSize 1122 1122 1024) = 1024 \/
   fst (canvasSize 1122 1122 1024) = 1024 - 1).
Proof.
  split; [lia|]. apply (resize_square 1122 1024); lia.
Defined.

(** X7. For an image wider than tall and wider than the bound, the canvas
    is [maxDimension] wide; it has no row at all when the proportional
    height is below one pixel ([h * maxDimension < w]) and at least one row
    when it is above one pixel. *)
Theorem resize_thin (w h maxDimension : Z) :
  0 < h -> h < w -> 0 < maxDimension -> maxDimension < w < 2 ^ 25 ->
  fst (canvasSize w h maxDimension) = maxDimension /\
  (h * maxDimension < w -> snd (canvasSize w h maxDimension) = 0) /\
  (w < h * maxDimension -> 1 <= snd (canvasSize w h maxDimension)).
Proof.
  intros Hh Hhw Hm Hw. rewrite canvasSize_wide by lia. cbn [fst snd].
  split; [reflexivity|].
  assert (Hb : h * maxDimension < 2 ^ 51) by nia.
  destruct (DoubleFacts.scaleTo_floor h maxDimension w) as [H0 [H1 H2]]; try lia.
  set (s := Qfloor (scaleTo h maxDimension w)) in *.
  split; intros Hc; nia.
Qed.

Lemma resize_thin_witness :
  (0 < 1 /\ 1 < 2000 /\ 0 < 1024 /\ 1024 < 2000 < 2 ^ 25) /\
  fst (canvasSize 2000 1 1024) = 1024 /\ snd (canvasSize 2000 1 1024) = 0.
Proof.
  split; [lia|].
  pose proof (resize_thin 2000 1 1024 ltac:(lia) ltac:(lia) ltac:(lia) ltac:(lia))
    as [H1 [H2 _]].
  split; [exact H1|apply H2; lia].
Defined.

End ResizeMore.

(** ** How the two image utilities end *)

Module EnvMore.
Import Js Text Env TextFacts.
Local Open Scope string_scope.

Lemma startsWith_append p x : startsWith (p ++ x) p = true.
Proof.
  unfold startsWith. induction p as [|c p IH]; cbn.
  - destruct x; reflexivity.
  - destruct (ascii_dec c c); [exact IH|contradiction].
Qed.

Lemma toDataURL_cases w type canvas :
  (toDataURL w type canvas = "data:," /\
   ((Pixel.width canvas <= 0)%Z \/ (Pixel.height canvas <= 0)%Z)) \/
  (toDataURL w type canvas = "data:" ++ type ++ ";base64," ++ encode w type canvas /\
   (0 < Pixel.width canvas)%Z /\ (0 < Pixel.height canvas)%Z).
Proof.
  unfold toDataURL.
  destruct (Z.leb_spec (Pixel.width canvas) 0); [left; split; [reflexivity|left; lia]|].
  destruct (Z.leb_spec (Pixel.height canvas) 0); [left; split; [reflexivity|right; lia]|].
  right. cbn. repeat split; lia.
Qed.

Lemma hasComma_toDataURL w type canvas : hasComma (toDataURL w type canvas) = true.
Proof.
  destruct (toDataURL_cases w type canvas) as [[-> _]|[-> _]]; [reflexivity|].
  change ("data:" ++ type ++ ";base64," ++ encode w type canvas)
    with (dataUrlOf type (Some (encode w type canvas))).
  apply hasComma_dataUrlOf.
Qed.

(** X8. How removeBackground ends.  It rejects when the image does not
    load, or, with the message of the source, when there is no 2d context.
    It never settles when the load never fires, and when the image loads
    without pixels: [getImageData] then throws inside [img.onload], before
    [resolve] is reached.  Otherwise it resolves with the PNG data URL of the
    canvas, a URL that holds a comma. *)
Theorem removeBackground_outcomes (w : World) (dataUrl : string) (tolerance : Q) :
  match removeBackground w dataUrl tolerance with
  | Resolved url =>
      exists img, loadImage w dataUrl = Resolved img /\ hasContext w = true /\
        (0 < Pixel.width img)%Z /\ (0 < Pixel.height img)%Z /\
        hasComma url = true /\
        startsWith url "data:image/png;base64," = true
  | Rejected reason =>
      loadImage w dataUrl = Rejected reason \/
      (exists img, loadImage w dataUrl = Resolved img) /\ hasContext w = false /\
      reason = "Could not get canvas context"
  | Unsettled =>
      loadImage w dataUrl = Unsettled \/
      exists img, loadImage w dataUrl = Resolved img /\ hasContext w = true /\
        ((Pixel.width img <= 0)%Z \/ (Pixel.height img <= 0)%Z)
  end.
Proof.
  unfold removeBackground.
  destruct (loadImage w dataUrl) as [img|e|]; [|left; reflexivity|left; reflexivity].
  destruct (hasContext w).
  - destruct (Z.leb_spec (Pixel.width img) 0) as [Hw|Hw]; cbn [orb].
    { right. exists img. split; [reflexivity|]. split; [reflexivity|]. left. exact Hw. }
    destruct (Z.leb_spec (Pixel.height img) 0) as [Hh|Hh].
    { right. exists img. split; [reflexivity|]. split; [reflexivity|]. right. exact Hh. }
    exists img. split; [reflexivity|]. split; [reflexivity|].
    split; [exact Hw|]. split; [exact Hh|].
    split; [apply hasComma_toDataURL|].
    unfold toDataURL.
    cbn [Pixel.putImageData Pixel.removeBackgroundPixels Pixel.width Pixel.height].
    destruct (Z.leb_spec (Pixel.width img) 0); [lia|].
    destruct (Z.leb_spec (Pixel.height img) 0); [lia|].
    apply (startsWith_append "data:image/png;base64,").
  - right. split; [exists img; reflexivity|]. split; reflexivity.
Qed.

(** X9. How resizeImage ends, for a bound that is not negative.  It
    rejects when the file does not decode or there is no 2d context, stays
    pending when the decoding does, and otherwise resolves with the MIME
    type image/jpeg and a payload that is never undefined: the empty string
    for a canvas without pixels, else the encoding of the canvas (up to its
    first comma, if it had one). *)
Theorem resizeImage_outcomes (w : World) (file : File) (maxDimension : Z) :
  (0 <= maxDimension)%Z ->
  match resizeImage w file maxDimension with
  | Resolved r =>
      exists img, readFile w file = Resolved img /\ hasContext w = true /\
        resizedMime r = "image/jpeg" /\
        ((0 <= Pixel.width img)%Z -> (0 <= Pixel.height img)%Z ->
         let '(width, height) :=
           Resize.canvasSize (Pixel.width img) (Pixel.height img) maxDimension in
         let encoding :=
           encode w "image/jpeg"
             {| Pixel.width := width; Pixel.height := height;
                Pixel.data := resample w img width height |} in
         if ((width <=? 0) || (height <=? 0))%Z
         then base64 r = Some ""
         else exists payload, base64 r = Some payload /\
                (lacks "," encoding = true -> payload = encoding))
  | Rejected reason =>
      readFile w file = Rejected reason \/
      (exists img, readFile w file = Resolved img) /\ hasContext w = false /\
      reason = "Could not get canvas context"
  | Unsettled => readFile w file = Unsettled
  end.
Proof.
  intros _. unfold resizeImage.
  destruct (readFile w file) as [img|e|]; [|left; reflexivity|reflexivity].
  destruct (Resize.canvasSize _ _ _) as [width height] eqn:Hsize.
  destruct (hasContext w).
  - exists img. split; [reflexivity|]. split; [reflexivity|]. split; [reflexivity|].
    intros _ _. rewrite Hsize.
    cbv zeta. cbn [base64]. unfold toDataURL. cbn [Pixel.width Pixel.height].
    destruct ((width <=? 0) || (height <=? 0))%Z; [reflexivity|].
    set (encoding := encode w "image/jpeg" _).
    change ("data:" ++ "image/jpeg" ++ ";base64," ++ encoding)
      with (dataUrlOf "image/jpeg" (Some encoding)).
    pose proof (afterComma_defined _ (hasComma_dataUrlOf "image/jpeg" (Some encoding))) as Hd.
    destruct (afterComma (dataUrlOf "image/jpeg" (Some encoding))) as [payload|] eqn:Hp;
      [|contradiction].
    exists payload. split; [reflexivity|]. intros Hl.
    rewrite afterComma_dataUrlOf in Hp by (reflexivity || exact Hl).
    injection Hp as <-. reflexivity.
  - right. split; [exists img; reflexivity|]. split; reflexivity.
Qed.

Lemma resizeImage_outcomes_witness :
  (0 <= 1024)%Z /\
  exists img, readFile Sample.thin "line" = Resolved img /\ hasContext Sample.thin = true.
Proof.
  split; [lia|].
  pose proof (resizeImage_outcomes Sample.thin "line" 1024 ltac:(lia)) as H.
  destruct (resizeImage Sample.thin "line" 1024) as [r|e|] eqn:Hr.
  - destruct H as [img [H1 [H2 _]]]. exists img. split; assumption.
  - vm_compute in Hr. discriminate.
  - vm_compute in Hr. discriminate.
Defined.

Lemma resizeImage_payload_defined w file maxDimension r :
  resizeImage w file maxDimension = Resolved r -> base64 r <> None.
Proof.
  unfold resizeImage. destruct (readFile w file) as [img|e|]; try discriminate.
  destruct (Resize.canvasSize _ _ _) as [width height].
  destruct (hasContext w); [|discriminate].
  intros H. injection H as <-. cbn [base64].
  apply afterComma_defined. apply hasComma_toDataURL.
Qed.

End EnvMore.

(** ** extractImageFromResponse *)

Module GeminiMore.
Import Js Gemini.
Local Open Scope string_scope.

Lemma firstInlineData_spec parts d :
  firstInlineData parts = Some d <->
  exists before after,
    parts = (before ++ InlinePart (Some d) :: after)%list /\
    nonEmpty d = true /\ firstInlineData before = None.
Proof.
  split.
  - induction parts as [|part parts IH]; cbn; [discriminate|].
    destruct part as [t|[data|]].
    + intros H. destruct (IH H) as [before [after [-> [Hd Hb]]]].
      exists (TextPart t :: before), after. repeat split; assumption.
    + destruct (nonEmpty data) eqn:Hdata.
      * intros H. injection H as ->. exists [], parts. repeat split. exact Hdata.
      * intros H. destruct (IH H) as [before [after [-> [Hd Hb]]]].
        exists (InlinePart (Some data) :: before), after. repeat split; [exact Hd|].
        cbn. rewrite Hdata. exact Hb.
    + intros H. destruct (IH H) as [before [after [-> [Hd Hb]]]].
      exists (InlinePart None :: before), after. repeat split; assumption.
  - intros [before [after [-> [Hd Hb]]]].
    induction before as [|part before IH]; cbn.
    + rewrite Hd. reflexivity.
    + cbn in Hb. destruct part as [t|[data|]]; [apply IH; exact Hb| |apply IH; exact Hb].
      destruct (nonEmpty data); [discriminate|apply IH; exact Hb].
Qed.

(** X10. extractImageFromResponse returns a string exactly when the
    response has a first candidate whose content has parts and that string
    is the first non-empty inline data among those parts; text parts and
    empty inline data before it are skipped, other candidates are not
    read. *)
Theorem extract_returns_first_image (response : Response) (d : string) :
  extractImageFromResponse response = Returned d <->
  exists candidate others body before after,
    candidates response = Some (candidate :: others) /\
    content candidate = Some body /\
    parts body = Some (before ++ InlinePart (Some d) :: after)%list /\
    nonEmpty d = true /\ firstInlineData before = None.
Proof.
  unfold extractImageFromResponse. split.
  - destruct (candidates response) as [[|candidate others]|]; try discriminate.
    destruct (content candidate) as [body|] eqn:Hc; [|discriminate].
    destruct (parts body) as [items|] eqn:Hp; [|discriminate].
    destruct (firstInlineData items) as [d'|] eqn:Hf; [|discriminate].
    intros H. injection H as ->.
    apply firstInlineData_spec in Hf. destruct Hf as [before [after [-> H]]].
    exists candidate, others, body, before, after.
    split; [reflexivity|]. split; [exact Hc|]. split; [exact Hp|exact H].
  - intros [candidate [others [body [before [after [-> [-> [-> H]]]]]]]].
    assert (Hf : firstInlineData (before ++ InlinePart (Some d) :: after) = Some d).
    { apply firstInlineData_spec. exists before, after. split; [reflexivity|exact H]. }
    rewrite Hf. reflexivity.
Qed.

(** X11. extractImageFromResponse never stays pending.  It throws its first
    message exactly when the candidates are missing or empty; its second
    exactly when the content of the first candidate has parts, none of them
    with non-empty inline data, whatever the other candidates hold; and a
    [TypeError] exactly when the first candidate has no content or its
    content has no parts. *)
Theorem extract_throws (response : Response) :
  extractImageFromResponse response <> Suspended /\
  (extractImageFromResponse response =
     Thrown "No candidates returned from Gemini API" <->
   candidates response = None \/ candidates response = Some []) /\
  (extractImageFromResponse response =
     Thrown "No image data found in response. The model may have returned text only." <->
   exists candidate others body items,
     candidates response = Some (candidate :: others) /\
     content candidate = Some body /\ parts body = Some items /\
     firstInlineData items = None) /\
  (extractImageFromResponse response = Thrown typeError <->
   exists candidate others,
     candidates response = Some (candidate :: others) /\
     (content candidate = None \/
      exists body, content candidate = Some body /\ parts body = None)).
Proof.
  unfold extractImageFromResponse.
  destruct (candidates response) as [[|candidate others]|].
  - split; [discriminate|]. split; [split; auto|].
    split; split; try discriminate.
    + intros [c [o [b [l [H _]]]]]. discriminate.
    + intros [c [o [H _]]]. discriminate.
  - split; [destruct (content candidate) as [body|]; [destruct (parts body) as [items|];
             [destruct (firstInlineData items)|]|]; discriminate|].
    split.
    { split; [|intros [H|H]; discriminate].
      destruct (content candidate) as [body|]; [destruct (parts body) as [items|];
        [destruct (firstInlineData items)|]|]; discriminate. }
    split.
    + split.
      * destruct (content candidate) as [body|] eqn:Hc; [|discriminate].
        destruct (parts body) as [items|] eqn:Hp; [|discriminate].
        destruct (firstInlineData items) eqn:Hf; [discriminate|].
        intros _. exists candidate, others, body, items. repeat split; assumption.
      * intros [c [o [b [l [H [Hc [Hp Hf]]]]]]]. injection H as <- <-.
        rewrite Hc, Hp, Hf. reflexivity.
    + split.
      * destruct (content candidate) as [body|] eqn:Hc.
        -- destruct (parts body) as [items|] eqn:Hp.
           ++ destruct (firstInlineData items); discriminate.
           ++ intros _. exists candidate, others. split; [reflexivity|].
              right. exists body. split; assumption.
        -- intros _. exists candidate, others. split; [reflexivity|]. left. exact Hc.
      * intros [c [o [H Hc]]]. injection H as <- <-.
        destruct Hc as [Hc|[b [Hc Hp]]]; [rewrite Hc; reflexivity|].
        rewrite Hc, Hp. reflexivity.
  - split; [discriminate|]. split; [split; auto|].
    split; split; try discriminate.
    + intros [c [o [b [l [H _]]]]]. discriminate.
    + intros [c [o [H _]]]. discriminate.
Qed.

End GeminiMore.

(** ** What holds in every state *)

Module ReachFacts.
Import Js Text Gemini Env App Reach SessionFacts TextFacts EnvMore.
Local Open Scope string_scope.

Lemma sound_start : sound start.
Proof.
  unfold sound, start, initial. cbn.
  repeat split; try constructor. intros H. contradiction.
Qed.

Lemma removeBackground_hasComma w dataUrl t url :
  removeBackground w dataUrl t = Resolved url -> hasComma url = true.
Proof.
  unfold removeBackground. destruct (loadImage w dataUrl) as [img|e|]; try discriminate.
  destruct (hasContext w); [|discriminate].
  destruct ((Pixel.width img <=? 0) || (Pixel.height img <=? 0))%Z; [discriminate|].
  intros H. injection H as <-. apply hasComma_toDataURL.
Qed.

Lemma hasComma_jpeg g : hasComma ("data:image/jpeg;base64," ++ g) = true.
Proof. apply (hasComma_dataUrlOf "image/jpeg" (Some g)). Qed.

Lemma last_hasComma (h : list string) current :
  Forall (fun url => hasComma url = true) h -> last h = Some current ->
  hasComma current = true.
Proof.
  intros Hall Hlast. rewrite Forall_forall in Hall. apply Hall.
  rewrite last_lookup in Hlast. eapply list_elem_of_lookup_2. exact Hlast.
Qed.

Lemma dropLast_cons (first : string) rest :
  rest <> [] -> dropLast (first :: rest) = first :: dropLast rest.
Proof.
  intros Hne. unfold dropLast. destruct rest as [|x rest]; [contradiction|].
  cbn [length]. replace (S (S (length rest)) - 1)%nat with (S (length rest)) by lia.
  cbn [take]. replace (S (length rest) - 1)%nat with (length rest) by lia. reflexivity.
Qed.

Lemma Forall_dropLast (P : string -> Prop) h : Forall P h -> Forall P (dropLast h).
Proof. unfold dropLast. apply Forall_take. Qed.

Lemma truthy_Some v : truthy v = true -> v <> None.
Proof. destruct v; [discriminate|discriminate]. Qed.

(** Every operation, against every world, keeps [sound]. *)
Lemma invoke_sound w a m : sound m -> sound (fst (invoke w a m)).
Proof.
  unfold sound. destruct m as [[st orig cur prev ep mt er h] l].
  cbn [ui sent status originalImage currentImage previewImage editPrompt mimeType
       error history].
  intros [Hcur [Hall [Hmt [Herr [Hhist Hsent]]]]].
  assert (Hreq : forall current, cur = Some current ->
            base64Input current <> None /\ h <> []).
  { intros current ->. split.
    - apply afterComma_defined. eapply last_hasComma; [exact Hall|]. symmetry. exact Hcur.
    - intros ->. discriminate. }
  destruct a; handler_run.
  all: try (repeat split; assumption).
  all: try match goal with
       | H : resizeImage _ _ _ = Resolved _ |- _ =>
           pose proof (resizeImage_mime _ _ _ _ H) as Hm';
           pose proof (resizeImage_payload_defined _ _ _ _ H) as Hp'
       end.
  all: try match goal with
       | H : removeBackground _ _ _ = Resolved _ |- _ =>
           pose proof (removeBackground_hasComma _ _ _ _ H) as Hu'
       end.
  all: try (destruct (Hreq _ eq_refl) as [Hin Hne]).
  all: repeat match goal with |- _ /\ _ => split end.
  all: try assumption.
  all: try reflexivity.
  all: try discriminate.
  all: try (intros _; reflexivity).
  all: try (symmetry; apply last_snoc).
  all: try (apply Forall_app; split; [assumption|]; repeat constructor;
            first [assumption|apply hasComma_jpeg]).
  all: try (repeat constructor; apply hasComma_dataUrlOf).
  all: try (apply Forall_app; split; [assumption|]; repeat constructor; assumption).
  all: try (destruct h as [|first rest]; [contradiction|]; cbn [app]; assumption).
  all: try (apply Forall_dropLast; assumption).
  all: try (intros Hn; exfalso; apply Hn; reflexivity).
  - (* undo *)
    match goal with H : (1 <? length h)%nat = true |- _ => apply Nat.ltb_lt in H end.
    destruct h as [|first rest]; [cbn in *; lia|].
    rewrite dropLast_cons by (intros ->; cbn in *; lia). exact Hhist.
  - (* reset *)
    match goal with H : truthy orig && nonEmpty mt = true |- _ =>
      apply andb_true_iff in H; destruct H as [H _]; apply truthy_Some in H; exact H end.
  - match goal with H : truthy orig && nonEmpty mt = true |- _ =>
      apply andb_true_iff in H; destruct H as [H _]; apply truthy_Some in H end.
    destruct h as [|first rest].
    + destruct Hhist as [Ho _]. contradiction.
    + destruct Hhist as [_ [-> ->]]. reflexivity.
Qed.

Lemma runAll_sound ops : forall m, sound m -> sound (runAll ops m).
Proof.
  unfold runAll. induction ops as [|[w a] ops IH]; intros m Hs; [exact Hs|].
  cbn [fold_left]. apply IH. unfold step. cbn [fst snd]. apply invoke_sound. exact Hs.
Qed.

Lemma reachable_sound ops : sound (runAll ops start).
Proof. apply runAll_sound. apply sound_start. Qed.

End ReachFacts.

(** ** The operations of the session *)

Module SessionMore.
Import Js Text Gemini Env App Reach SessionFacts TextFacts EnvMore ReachFacts.
Local Open Scope string_scope.

(** X12. From the start of the component, after any sequence of
    operations against any worlds, every request that was sent carries
    inline data: [currentImage.split(',')[1]] was never undefined. *)
Theorem inline_data_never_undefined (ops : list (World * Action)) :
  Forall (fun request => inlineData request <> None) (sent (runAll ops start)).
Proof.
  destruct (reachable_sound ops) as [_ [_ [_ [_ [_ Hsent]]]]].
  eapply Forall_impl; [exact Hsent|]. intros request [H _]. exact H.
Qed.



(** X14. From the start of the component, after any sequence of
    operations: when [history] is empty there is no original, no preview and
    no current image; otherwise its first entry is the data URL rebuilt from
    [mimeType] and [originalImage], and it is the preview. *)
Theorem first_entry_is_original (ops : list (World * Action)) :
  let s := ui (runAll ops start) in
  match history s with
  | [] => originalImage s = None /\ previewImage s = None /\ currentImage s = None
  | first :: _ =>
      first = dataUrlOf (mimeType s) (originalImage s) /\
      previewImage s = Some first /\ originalImage s <> None
  end.
Proof.
  destruct (reachable_sound ops) as [Hcur [_ [_ [_ [Hhist _]]]]]. cbv zeta in *.
  destruct (history (ui (runAll ops start))) as [|first rest].
  - destruct Hhist as [Ho [Hp _]]. repeat split; assumption.
  - destruct Hhist as [Ho [Hf Hp]]. repeat split; assumption.
Qed.

(** Before an upload has succeeded the session stays empty. *)
Lemma invoke_blank w a m :
  replacesSession w a = false ->
  history (ui m) = [] /\ currentImage (ui m) = None /\ originalImage (ui m) = None ->
  history (ui (fst (invoke w a m))) = [] /\
  currentImage (ui (fst (invoke w a m))) = None /\
  originalImage (ui (fst (invoke w a m))) = None /\
  sent (fst (invoke w a m)) = sent m.
Proof.
  intros Ha. destruct m as [[st orig cur prev ep mt er h] l].
  cbn [ui history currentImage originalImage sent]. intros [-> [-> ->]].
  destruct a; cbn [replacesSession] in Ha.
  1: { unfold invoke, handler. rewrite handleImageSelect_eq.
       destruct (resizeImage w file 1024); [discriminate| |]; repeat split. }
  all: unfold invoke, handler; cbn [ui];
    rewrite ?handleEmbroideryTransform_eq, ?handleMagicEdit_eq, ?handleUpscale_eq,
      ?handleUndo_eq, ?handleReset_eq; repeat split.
Qed.

(** X15. As long as no upload has succeeded, whatever operations are
    called, [history] stays empty, there is no current and no original
    image, and no request is sent. *)
Theorem nothing_before_upload (ops : list (World * Action)) :
  Forall (fun wa : World * Action => replacesSession (fst wa) (snd wa) = false) ops ->
  let m := runAll ops start in
  history (ui m) = [] /\ currentImage (ui m) = None /\
  originalImage (ui m) = None /\ sent m = [].
Proof.
  intros Hops.
  assert (H : forall m0,
    history (ui m0) = [] /\ currentImage (ui m0) = None /\ originalImage (ui m0) = None ->
    history (ui (runAll ops m0)) = [] /\ currentImage (ui (runAll ops m0)) = None /\
    originalImage (ui (runAll ops m0)) = None /\ sent (runAll ops m0) = sent m0).
  { unfold runAll. induction Hops as [|[w a] ops Ha Hops IH]; intros m0 Hm0.
    - destruct Hm0 as [H1 [H2 H3]]. repeat split; assumption.
    - cbn [fold_left]. cbn [fst snd] in Ha.
      destruct (invoke_blank w a m0 Ha Hm0) as [H1 [H2 [H3 H4]]].
      change (step m0 (w, a)) with (fst (invoke w a m0)).
      destruct (IH (fst (invoke w a m0))) as [K1 [K2 [K3 K4]]]; [repeat split; assumption|].
      repeat split; try assumption. etransitivity; [exact K4|exact H4]. }
  cbv zeta. apply (H start). repeat split.
Qed.

Lemma nothing_before_upload_witness :
  let ops := [(Sample.fair, Transform); (Sample.fair, TypePrompt "add a border");
              (Sample.fair, MagicEdit); (Sample.fair, Upscale);
              (Sample.fair, Undo); (Sample.fair, Reset);
              (Sample.stalled, SelectImage "photo")] in
  Forall (fun wa : World * Action => replacesSession (fst wa) (snd wa) = false)
    (firstn 6 ops) /\
  history (ui (runAll (firstn 6 ops) start)) = [] /\
  sent (runAll (firstn 6 ops) start) = [].
Proof.
  cbv zeta. cbn [firstn].
  assert (H : Forall (fun wa : World * Action => replacesSession (fst wa) (snd wa) = false)
    [(Sample.fair, Transform); (Sample.fair, TypePrompt "add a border");
     (Sample.fair, MagicEdit); (Sample.fair, Upscale);
     (Sample.fair, Undo); (Sample.fair, Reset)]) by (repeat constructor).
  split; [exact H|].
  pose proof (nothing_before_upload _ H) as [H1 [_ [_ H4]]].
  split; assumption.
Defined.

(** X16. The three outcomes of handleImageSelect, called in any state.  It
    never sends a request and keeps the prompt.  When resizeImage resolves,
    the session is replaced: status idle, no error, a history of the single
    JPEG data URL of the payload, which is also current image and preview.
    When it rejects, the handler returns with status error and its message,
    and the previous session (original, history, current image, preview) is
    kept.  When it stays pending, so does the handler, with status uploading,
    the error cleared and the previous session kept. *)
Theorem upload_outcomes (w : World) (file : File) (m : Machine) :
  let after := fst (invoke w (SelectImage file) m) in
  let s := ui after in
  sent after = sent m /\ editPrompt s = editPrompt (ui m) /\
  match resizeImage w file 1024 with
  | Resolved r =>
      let url := dataUrlOf "image/jpeg" (base64 r) in
      snd (invoke w (SelectImage file) m) = Returned tt /\
      status s = Idle /\ error s = None /\ originalImage s = base64 r /\
      history s = [url] /\ currentImage s = Some url /\ previewImage s = Some url
  | Rejected _ =>
      snd (invoke w (SelectImage file) m) = Returned tt /\
      status s = Error /\ error s = Some uploadFailed /\
      originalImage s = originalImage (ui m) /\ history s = history (ui m) /\
      currentImage s = currentImage (ui m) /\ previewImage s = previewImage (ui m)
  | Unsettled =>
      snd (invoke w (SelectImage file) m) = Suspended /\
      status s = Uploading /\ error s = None /\
      originalImage s = originalImage (ui m) /\ history s = history (ui m) /\
      currentImage s = currentImage (ui m) /\ previewImage s = previewImage (ui m)
  end.
Proof.
  destruct m as [[st orig cur prev ep mt er h] l].
  unfold invoke, handler. cbn [ui]. rewrite handleImageSelect_eq.
  destruct (resizeImage w file 1024) as [r|e|] eqn:Hr.
  - apply resizeImage_mime in Hr. rewrite Hr. cbn. repeat split.
  - cbn. repeat split.
  - cbn. repeat split.
Qed.

(** X17. The state after each of the three operations on the model
    succeeds, called with a current image: one request was sent, which
    carries the payload of the current image; one entry was appended to
    [history] and is the current image; status is complete and the error is
    cleared.  The embroidery flow stores the URL removeBackground resolved
    with; the edit and the upscale store the JPEG data URL of the model's
    answer; only the edit clears the prompt. *)
Theorem generation_success (w : World) (m : Machine) (current generated : string) :
  currentImage (ui m) = Some current -> nonEmpty current = true ->
  let s := ui m in
  let jpeg := "data:image/jpeg;base64," ++ generated in
  let done (a : Action) (request : Request) (url prompt : string) :=
    invoke w a m =
      ({| ui := {| status := Complete; originalImage := originalImage s;
                   currentImage := Some url; previewImage := previewImage s;
                   editPrompt := prompt; mimeType := mimeType s; error := None;
                   history := (history s ++ [url])%list |};
          sent := (sent m ++ [request])%list |}, Returned tt) in
  (let request := embroideryRequest (base64Input current) (mimeType s) in
   truthy (originalImage s) = true ->
   reply w request = Returned generated ->
   forall url, removeBackground w jpeg 30 = Resolved url ->
   done Transform request url (editPrompt s)) /\
  (let request := editRequest (base64Input current) (mimeType s) (editPrompt s) in
   nonEmpty (trim (editPrompt s)) = true ->
   reply w request = Returned generated ->
   done MagicEdit request jpeg "") /\
  (let request := upscaleRequest (base64Input current) (mimeType s) in
   snd (checkApiKey w m) = Returned tt ->
   reply w request = Returned generated ->
   done Upscale request jpeg (editPrompt s)).
Proof.
  destruct m as [[st orig cur prev ep mt er h] l].
  cbn [ui currentImage originalImage editPrompt mimeType history previewImage sent].
  intros -> Hne. cbv zeta. split; [|split].
  - intros Ho Hreply url Hurl. unfold invoke, handler. cbn [ui].
    rewrite handleEmbroideryTransform_eq. rewrite Hne, Ho. cbn [negb orb].
    cbv zeta. rewrite Hreply, Hurl. reflexivity.
  - intros Hp Hreply. unfold invoke, handler. cbn [ui].
    rewrite handleMagicEdit_eq. rewrite Hne, Hp. cbn [negb orb].
    cbv zeta. rewrite Hreply. reflexivity.
  - intros Hk Hreply. unfold invoke, handler. cbn [ui].
    rewrite handleUpscale_eq. rewrite Hne. cbn [negb]. rewrite Hk.
    cbv zeta. rewrite Hreply. reflexivity.
Qed.

Lemma generation_success_witness :
  currentImage (ui Sample.uploaded) = Some "data:image/jpeg;base64,SlBH" /\
  history (ui (fst (invoke Sample.fair Upscale Sample.uploaded))) =
    ["data:image/jpeg;base64,SlBH"; "data:image/jpeg;base64,R0VO"].
Proof.
  assert (H1 : currentImage (ui Sample.uploaded) = Some "data:image/jpeg;base64,SlBH")
    by (vm_compute; reflexivity).
  split; [exact H1|].
  destruct (generation_success Sample.fair Sample.uploaded _ "R0VO" H1 eq_refl)
    as [_ [_ H]].
  rewrite H; [vm_compute; reflexivity|vm_compute; reflexivity|vm_compute; reflexivity].
Defined.

(** An operation sends at most one request. *)
Lemma invoke_one_request w a m :
  sent (fst (invoke w a m)) = sent m \/
  exists request current,
    sent (fst (invoke w a m)) = (sent m ++ [request])%list /\
    callsModel a = true /\ currentImage (ui m) = Some current /\
    inlineData request = base64Input current.
Proof.
  handler_cases m a.
  all: try (left; reflexivity).
  all: right; eexists _, _; repeat split.
Qed.

(** X18. An operation sends no request or exactly one; only the three
    operations on the model send one, and it carries the payload of the
    current image; so a sequence of operations sends at most as many
    requests as it has operations on the model. *)
Theorem one_request_per_operation :
  (forall w a m,
     sent (fst (invoke w a m)) = sent m \/
     exists request current,
       sent (fst (invoke w a m)) = (sent m ++ [request])%list /\
       callsModel a = true /\ currentImage (ui m) = Some current /\
       inlineData request = base64Input current) /\
  (forall ops m,
     (length (sent (runAll ops m)) <= length (sent m) + calls ops)%nat).
Proof.
  split; [exact invoke_one_request|].
  unfold runAll, calls. induction ops as [|[w a] ops IH]; intros m.
  - cbn. lia.
  - cbn [fold_left List.filter snd].
    change (step m (w, a)) with (fst (invoke w a m)).
    specialize (IH (fst (invoke w a m))).
    destruct (invoke_one_request w a m) as [Hs|[request [current [Hs [Ha _]]]]].
    + rewrite Hs in IH. destruct (callsModel a); cbn [length]; lia.
    + rewrite Hs, length_app in IH. rewrite Ha. cbn [length] in *. lia.
Qed.

(** X19. The check for an API key of handleUpscale, with a current image.
    When the check returns, the upscale runs as it does without
    [window.aistudio]; when [hasSelectedApiKey] resolves false and there is
    an [openSelectKey], the check ends as [openSelectKey] ends, without
    asking again whether a key is selected;
    when the check throws or stays pending, the handler ends the same way
    with the state untouched: no status change, no error message, no
    request. *)
Theorem key_check_is_best_effort (w : World) (m : Machine) (current : string) :
  currentImage (ui m) = Some current -> nonEmpty current = true ->
  (snd (checkApiKey w m) = Returned tt ->
   invoke w Upscale m = invoke (withoutStudio w) Upscale m) /\
  (snd (checkApiKey w m) <> Returned tt ->
   invoke w Upscale m = (m, snd (checkApiKey w m))) /\
  (forall studio opened,
     aistudio w = Some studio ->
     hasSelectedApiKey studio = Some (Resolved false) ->
     openSelectKey studio = Some opened ->
     snd (checkApiKey w m) = settle opened).
Proof.
  destruct m as [[st orig cur prev ep mt er h] l]. cbn [ui currentImage].
  intros -> Hne. split; [|split].
  - intros Hk. unfold invoke, handler. cbn [ui].
    rewrite !handleUpscale_eq. rewrite Hne. cbn [negb]. rewrite Hk.
    reflexivity.
  - intros Hk. unfold invoke, handler. cbn [ui].
    rewrite handleUpscale_eq. rewrite Hne. cbn [negb].
    destruct (snd (checkApiKey w _)) as [[]|e|] eqn:Hc; [contradiction|reflexivity..].
  - intros studio opened Hs Hh Ho. unfold checkApiKey. rewrite Hs, Hh, Ho.
    exec. destruct opened as [[]|e|]; reflexivity.
Qed.

Lemma key_check_is_best_effort_witness :
  currentImage (ui Sample.stitched) = Some "data:image/png;base64,UE5H" /\
  invoke Scene.unkeyed Upscale Sample.stitched =
    invoke Sample.fair Upscale Sample.stitched /\
  invoke Scene.dialog Upscale Sample.stitched = (Sample.stitched, Suspended).
Proof.
  assert (H1 : currentImage (ui Sample.stitched) = Some "data:image/png;base64,UE5H")
    by (vm_compute; reflexivity).
  split; [exact H1|].
  destruct (key_check_is_best_effort Scene.unkeyed Sample.stitched _ H1 eq_refl)
    as [H _].
  destruct (key_check_is_best_effort Scene.dialog Sample.stitched _ H1 eq_refl)
    as [_ [K _]].
  split.
  - rewrite H; [vm_compute; reflexivity|vm_compute; reflexivity].
  - rewrite K; [vm_compute; reflexivity|vm_compute; discriminate].
Defined.

(** X20. After a successful upload the payload read back from the current
    image is the payload resizeImage resolved with; the embroidery flow and
    the upscale send it back with the MIME type image/jpeg; and when that
    payload is empty (a canvas without pixels) the embroidery flow returns
    at once without any change. *)
Theorem upload_payload_sent_back (w0 : World) (file : File) (m0 : Machine) (r : Resized) :
  resizeImage w0 file 1024 = Resolved r ->
  let m1 := fst (invoke w0 (SelectImage file) m0) in
  (option_map base64Input (currentImage (ui m1)) = Some (base64 r)) /\
  (forall w, truthy (base64 r) = true ->
     sent (fst (invoke w Transform m1)) =
       (sent m0 ++ [embroideryRequest (base64 r) "image/jpeg"])%list) /\
  (forall w, truthy (base64 r) = false -> invoke w Transform m1 = (m1, Returned tt)) /\
  (forall w, aistudio w = None ->
     sent (fst (invoke w Upscale m1)) =
       (sent m0 ++ [upscaleRequest (base64 r) "image/jpeg"])%list).
Proof.
  intros Hr m1.
  assert (Hm1 : m1 =
    {| ui := {| status := Idle; originalImage := base64 r;
                currentImage := Some (dataUrlOf "image/jpeg" (base64 r));
                previewImage := Some (dataUrlOf "image/jpeg" (base64 r));
                editPrompt := editPrompt (ui m0); mimeType := "image/jpeg";
                error := None; history := [dataUrlOf "image/jpeg" (base64 r)] |};
       sent := sent m0 |}).
  { subst m1. destruct m0 as [[st orig cur prev ep mt er h] l].
    unfold invoke, handler. rewrite handleImageSelect_eq, Hr.
    rewrite (resizeImage_mime _ _ _ _ Hr). reflexivity. }
  assert (Hback : base64Input (dataUrlOf "image/jpeg" (base64 r)) = base64 r).
  { pose proof (resizeImage_payload_defined _ _ _ _ Hr) as Hdef.
    destruct (base64 r) as [payload|] eqn:Hb; [|contradiction].
    apply afterComma_dataUrlOf; [reflexivity|].
    unfold resizeImage in Hr. destruct (readFile w0 file) as [img|e|]; try discriminate.
    destruct (Resize.canvasSize _ _ _) as [width height].
    destruct (hasContext w0); [|discriminate].
    injection Hr as <-. cbn [base64] in Hb. exact (afterComma_lacks _ _ Hb). }
  assert (Hne : nonEmpty (dataUrlOf "image/jpeg" (base64 r)) = true) by reflexivity.
  rewrite Hm1. cbn [ui currentImage option_map sent].
  split; [rewrite Hback; reflexivity|]. split; [|split].
  - intros w Ho. unfold invoke, handler. cbn [ui].
    rewrite handleEmbroideryTransform_eq. rewrite Hne, Ho. cbn [negb orb]. cbv zeta.
    rewrite Hback.
    destruct (reply w _) as [generated|e|]; [|reflexivity..].
    destruct (removeBackground w _ 30); reflexivity.
  - intros w Ho. unfold invoke, handler. cbn [ui].
    rewrite handleEmbroideryTransform_eq. rewrite Hne, Ho. reflexivity.
  - intros w Hw. unfold invoke, handler. cbn [ui].
    rewrite handleUpscale_eq. rewrite Hne. cbn [negb].
    unfold checkApiKey at 1. rewrite Hw. cbn [snd ret]. cbv zeta. rewrite Hback.
    destruct (reply w _) as [generated|e|]; reflexivity.
Qed.

Lemma upload_payload_sent_back_witness :
  resizeImage Sample.fair "photo" 1024 =
    Resolved {| base64 := Some "SlBH"; resizedMime := "image/jpeg" |} /\
  sent (fst (invoke Sample.stalled Transform Sample.uploaded)) =
    [embroideryRequest (Some "SlBH") "image/jpeg"] /\
  invoke Sample.fair Transform (fst (invoke Sample.thin (SelectImage "line") start)) =
    (fst (invoke Sample.thin (SelectImage "line") start), Returned tt).
Proof.
  assert (H1 : resizeImage Sample.fair "photo" 1024 =
            Resolved {| base64 := Some "SlBH"; resizedMime := "image/jpeg" |})
    by (vm_compute; reflexivity).
  assert (H2 : resizeImage Sample.thin "line" 1024 =
            Resolved {| base64 := Some ""; resizedMime := "image/jpeg" |})
    by (vm_compute; reflexivity).
  split; [exact H1|].
  destruct (upload_payload_sent_back Sample.fair "photo" start _ H1) as [_ [H _]].
  destruct (upload_payload_sent_back Sample.thin "line" start _ H2) as [_ [_ [K _]]].
  split.
  - exact (H Sample.stalled eq_refl).
  - exact (K Sample.fair eq_refl).
Defined.

End SessionMore.

(** ** The page *)

Module PageFacts.
Import Js Text Gemini Env App Reach Overlay Download Uploader Page.
Import SessionFacts TextFacts EnvMore ReachFacts.
Local Open Scope string_scope.

(** *** The download link *)

Lemma list_ascii_append a b :
  list_ascii_of_string (a ++ b) = (list_ascii_of_string a ++ list_ascii_of_string b)%list.
Proof. induction a as [|c a IH]; cbn; [reflexivity|]. rewrite IH. reflexivity. Qed.

Lemma string_of_list_append (k l : list ascii) :
  string_of_list_ascii (k ++ l)%list = string_of_list_ascii k ++ string_of_list_ascii l.
Proof. induction k as [|c k IH]; cbn; [reflexivity|]. rewrite IH. reflexivity. Qed.

Lemma reverse_append a b : reverse (a ++ b) = reverse b ++ reverse a.
Proof.
  unfold reverse. rewrite list_ascii_append, rev_app_distr. apply string_of_list_append.
Qed.

Lemma endsWith_append x p : endsWith (x ++ p) p = true.
Proof. unfold endsWith. rewrite reverse_append. apply (startsWith_append (reverse p)). Qed.

(** X21. In every state the component can reach, handleDownload offers the
    last entry of [history], whatever its type, under a name that starts
    with thread-genie- and ends with .png; without a session it offers
    nothing. *)
Theorem download_offers_last_entry (ops : list (World * Action)) (now : Z) :
  let s := ui (runAll ops start) in
  match last (history s) with
  | Some url =>
      exists name,
        handleDownload s now = Some (url, name) /\
        startsWith name "thread-genie-" = true /\ endsWith name ".png" = true
  | None => handleDownload s now = None
  end.
Proof.
  destruct (reachable_sound ops) as [Hcur [Hall _]]. cbv zeta in *.
  unfold handleDownload. rewrite Hcur.
  destruct (last (history (ui (runAll ops start)))) as [url|] eqn:Hlast; [|reflexivity].
  rewrite (hasComma_nonEmpty url (last_hasComma _ _ Hall Hlast)). cbn [negb].
  eexists. split; [reflexivity|]. split.
  - apply (startsWith_append "thread-genie-").
  - rewrite <- append_assoc. apply endsWith_append.
Qed.

(** *** The overlay *)

(** X22. While the overlay is displayed, none of the controls that write
    state (file input, undo, reset, embroidery button, prompt input and its
    Enter key, prompt button, upscale button) is enabled, the close button
    of the error banner apart; and the overlay never shows its default
    message. *)
Theorem overlay_blocks_controls (s : State) (c : Control) :
  overlayOnPage s <> None -> c <> ErrorCloseButton ->
  enabled c s = false /\ overlayOnPage s <> Some "Processing...".
Proof.
  unfold overlayOnPage, enabled. destruct s as [st orig cur prev ep mt er h].
  cbn [currentImage status]. intros Ho Hc.
  destruct (truthy cur) eqn:Hcur; [|contradiction].
  split.
  - destruct st; try (exfalso; apply Ho; reflexivity);
      destruct c; try contradiction;
      cbn [shown disabled status currentImage history editPrompt busy];
      rewrite ?Hcur, ?orb_true_r, ?andb_false_r; reflexivity.
  - destruct st; cbn; discriminate.
Qed.

Lemma overlay_blocks_controls_witness :
  overlayOnPage (ui Sample.pending) = Some "Stitching your design with Gemini..." /\
  enabled UndoButton (ui Sample.pending) = false.
Proof.
  assert (H : overlayOnPage (ui Sample.pending) =
            Some "Stitching your design with Gemini...") by (vm_compute; reflexivity).
  split; [exact H|].
  apply (overlay_blocks_controls (ui Sample.pending) UndoButton).
  - rewrite H. discriminate.
  - discriminate.
Defined.

(** X23. While the call of an operation on the model is pending, the
    handler is suspended with the error cleared, history and prompt as they
    were, the page frozen and the overlay displayed: with the message of the
    embroidery flow for the embroidery flow and for the edit alike, with the
    message of the background removal while removeBackground is pending, and
    with the message of the upscale for the upscale. *)
Theorem pending_operation (w : World) (m : Machine) (current : string) :
  currentImage (ui m) = Some current -> nonEmpty current = true ->
  let s := ui m in
  let waiting (a : Action) (shownStatus : ProcessingStatus) (message : string) :=
    let after := fst (invoke w a m) in
    snd (invoke w a m) = Suspended /\
    status (ui after) = shownStatus /\
    overlayOnPage (ui after) = Some message /\
    frozen (ui after) = true /\
    error (ui after) = None /\
    history (ui after) = history s /\ editPrompt (ui after) = editPrompt s in
  (truthy (originalImage s) = true ->
   reply w (embroideryRequest (base64Input current) (mimeType s)) = Suspended ->
   waiting Transform Processing "Stitching your design with Gemini...") /\
  (truthy (originalImage s) = true ->
   forall generated,
   reply w (embroideryRequest (base64Input current) (mimeType s)) = Returned generated ->
   removeBackground w ("data:image/jpeg;base64," ++ generated) 30 = Unsettled ->
   waiting Transform RemovingBackground "Removing background...") /\
  (nonEmpty (trim (editPrompt s)) = true ->
   reply w (editRequest (base64Input current) (mimeType s) (editPrompt s)) = Suspended ->
   waiting MagicEdit Processing "Stitching your design with Gemini...") /\
  (snd (checkApiKey w m) = Returned tt ->
   reply w (upscaleRequest (base64Input current) (mimeType s)) = Suspended ->
   waiting Upscale Upscaling "Upscaling to 4K with Gemini Pro...").
Proof.
  destruct m as [[st orig cur prev ep mt er h] l].
  cbn [ui currentImage originalImage editPrompt mimeType history previewImage sent].
  intros -> Hne. cbv zeta.
  assert (Hcur : truthy (Some current) = true) by exact Hne.
  split; [|split; [|split]].
  - intros Ho Hreply. unfold invoke, handler. cbn [ui].
    rewrite handleEmbroideryTransform_eq. rewrite Hne, Ho. cbn [negb orb].
    cbv zeta. rewrite Hreply. unfold overlayOnPage, frozen. cbn. rewrite Hne.
    repeat split.
  - intros Ho generated Hreply Hrb. unfold invoke, handler. cbn [ui].
    rewrite handleEmbroideryTransform_eq. rewrite Hne, Ho. cbn [negb orb].
    cbv zeta. rewrite Hreply, Hrb. unfold overlayOnPage, frozen. cbn. rewrite Hne.
    repeat split.
  - intros Hp Hreply. unfold invoke, handler. cbn [ui].
    rewrite handleMagicEdit_eq. rewrite Hne, Hp. cbn [negb orb].
    cbv zeta. rewrite Hreply. unfold overlayOnPage, frozen. cbn. rewrite Hne.
    repeat split.
  - intros Hk Hreply. unfold invoke, handler. cbn [ui].
    rewrite handleUpscale_eq. rewrite Hne. cbn [negb]. rewrite Hk.
    cbv zeta. rewrite Hreply. unfold overlayOnPage, frozen. cbn. rewrite Hne.
    repeat split.
Qed.

Lemma pending_operation_witness :
  currentImage (ui Sample.uploaded) = Some "data:image/jpeg;base64,SlBH" /\
  overlayOnPage (ui (fst (invoke Sample.stalled Upscale Sample.uploaded))) =
    Some "Upscaling to 4K with Gemini Pro...".
Proof.
  assert (H1 : currentImage (ui Sample.uploaded) = Some "data:image/jpeg;base64,SlBH")
    by (vm_compute; reflexivity).
  split; [exact H1|].
  destruct (pending_operation Sample.stalled Sample.uploaded _ H1 eq_refl)
    as [_ [_ [_ H]]].
  destruct H as [_ [_ [H _]]]; [vm_compute; reflexivity|vm_compute; reflexivity|].
  exact H.
Defined.

Lemma frozen_disables s c :
  frozen s = true -> c <> ErrorCloseButton -> shown c s && negb (disabled c s) = false.
Proof.
  unfold frozen, uploaderDisabled. destruct s as [st orig cur prev ep mt er h].
  cbn [status currentImage]. intros Hf Hc.
  apply andb_true_iff in Hf. destruct Hf as [Hb Hu].
  destruct c; try contradiction;
    cbn [shown disabled status currentImage history editPrompt];
    rewrite ?Hb, ?orb_true_r, ?andb_false_r; try reflexivity.
  destruct (truthy cur); [reflexivity|]. cbn in Hu. rewrite Hu. reflexivity.
Qed.

Lemma frozen_dismissed s : frozen (dismissed s) = frozen s.
Proof. reflexivity. Qed.

(** One event on a page that is frozen. *)
Lemma handle_frozen w e p :
  frozen (ui (machine p)) = true ->
  sent (machine (handle w e p)) = sent (machine p) /\
  (ui (machine (handle w e p)) = ui (machine p) \/
   ui (machine (handle w e p)) = dismissed (ui (machine p))).
Proof.
  intros Hf. destruct p as [m d]. cbn [machine] in *.
  destruct e as [c| | |files|files]; cbn [handle machine isDragging].
  - destruct c; try (unfold fire; rewrite (frozen_disables _ _ Hf) by discriminate;
      split; [reflexivity|left; reflexivity]).
    unfold fire. destruct (shown ErrorCloseButton (ui m) && _);
      [|split; [reflexivity|left; reflexivity]].
    destruct m as [s l]. split; [reflexivity|right; reflexivity].
  - destruct (uploaderShown (ui m)); split; try reflexivity; left; reflexivity.
  - destruct (uploaderShown (ui m)); split; try reflexivity; left; reflexivity.
  - unfold frozen, uploaderShown in *.
    destruct (truthy (currentImage (ui m))); cbn [negb];
      [split; [reflexivity|left; reflexivity]|].
    rewrite orb_false_l in Hf. apply andb_true_iff in Hf. destruct Hf as [_ Hu].
    rewrite Hu. cbn. split; [reflexivity|left; reflexivity].
  - unfold frozen, uploaderShown in *.
    destruct (truthy (currentImage (ui m))); cbn [negb andb];
      [split; [reflexivity|left; reflexivity]|].
    rewrite orb_false_l in Hf. apply andb_true_iff in Hf. destruct Hf as [_ Hu].
    rewrite Hu. cbn. split; [reflexivity|left; reflexivity].
Qed.

(** A frozen page stays as it is: whatever events follow, against whatever
    worlds, no request is sent and the state does not change, except that
    the error banner may be closed. *)
Lemma handleAll_frozen (events : list (World * Event)) (p : Page) :
  frozen (ui (machine p)) = true ->
  sent (machine (handleAll events p)) = sent (machine p) /\
  (ui (machine (handleAll events p)) = ui (machine p) \/
   ui (machine (handleAll events p)) = dismissed (ui (machine p))) /\
  frozen (ui (machine (handleAll events p))) = true.
Proof.
  unfold handleAll. revert p.
  induction events as [|[w e] events IH]; intros p Hf.
  - cbn. repeat split; [left; reflexivity|exact Hf].
  - cbn [fold_left]. change (stepPage p (w, e)) with (handle w e p).
    destruct (handle_frozen w e p Hf) as [Hs Hu].
    assert (Hf' : frozen (ui (machine (handle w e p))) = true).
    { destruct Hu as [->| ->]; [exact Hf|rewrite frozen_dismissed; exact Hf]. }
    destruct (IH _ Hf') as [Ks [Ku Kf]].
    split; [rewrite Ks; exact Hs|]. split; [|exact Kf].
    destruct Ku as [->| ->]; [exact Hu|].
    right. destruct Hu as [->| ->]; reflexivity.
Qed.

(** X24. A page whose status is neither idle nor complete, and whose
    uploader is absent or disabled, stays as it is: whatever events follow
    on the controls that write state and on the uploader (clicks, keys,
    drags, drops, file choices), against whatever worlds, no request is sent
    and the state does not change, except that the error banner may be
    closed. *)
Theorem frozen_page_is_stuck (events : list (World * Event)) (p : Page) :
  frozen (ui (machine p)) = true ->
  let after := machine (handleAll events p) in
  sent after = sent (machine p) /\
  (ui after = ui (machine p) \/ ui after = dismissed (ui (machine p))) /\
  frozen (ui after) = true.
Proof. intros Hf. cbv zeta. apply handleAll_frozen. exact Hf. Qed.

Lemma frozen_page_is_stuck_witness :
  let p := {| machine := Sample.failed; isDragging := false |} in
  let events := [(Sample.fair, OnControl EmbroideryButton);
                 (Sample.fair, OnControl ErrorCloseButton);
                 (Sample.fair, OnControl UndoButton);
                 (Sample.fair, Choose [{| fileType := "image/png"; picked := "photo" |}])] in
  frozen (ui (machine p)) = true /\
  sent (machine (handleAll events p)) = sent (machine p) /\
  (ui (machine (handleAll events p)) = ui (machine p) \/
   ui (machine (handleAll events p)) = dismissed (ui (machine p))) /\
  frozen (ui (machine (handleAll events p))) = true.
Proof.
  cbv zeta.
  assert (H : frozen (ui (machine {| machine := Sample.failed; isDragging := false |})) = true)
    by (vm_compute; reflexivity).
  split; [exact H|].
  apply (frozen_page_is_stuck _ _ H).
Defined.

(** X25. After an operation on the model has failed, no event of the page
    starts another: status stays error, history, current image and prompt
    stay as they were before the failed operation, and no further request is
    sent. *)
Theorem failure_is_final (w : World) (a : Action) (m : Machine) (dragging : bool)
    (events : list (World * Event)) :
  subStepFails w a (ui m) ->
  let failed := fst (invoke w a m) in
  let after := machine (handleAll events {| machine := failed; isDragging := dragging |}) in
  status (ui after) = Error /\ history (ui after) = history (ui m) /\
  currentImage (ui after) = currentImage (ui m) /\
  editPrompt (ui after) = editPrompt (ui m) /\
  sent after = sent failed.
Proof.
  intros Hfail. cbv zeta.
  assert (H : frozen (ui (fst (invoke w a m))) = true /\
              status (ui (fst (invoke w a m))) = Error /\
              history (ui (fst (invoke w a m))) = history (ui m) /\
              currentImage (ui (fst (invoke w a m))) = currentImage (ui m) /\
              editPrompt (ui (fst (invoke w a m))) = editPrompt (ui m)).
  { destruct m as [[st orig cur prev ep mt er h] l].
    destruct a; cbn [subStepFails ui status originalImage currentImage editPrompt mimeType]
      in Hfail; try contradiction.
    - destruct Hfail as [current [-> [Hne [Ho Hr]]]]. cbv zeta in Hr.
      unfold invoke, handler. cbn [ui]. rewrite handleEmbroideryTransform_eq.
      rewrite Hne, Ho. cbn [negb orb]. cbv zeta.
      destruct Hr as [[e ->]|[generated [e [-> ->]]]];
        unfold frozen; cbn; rewrite Hne; repeat split.
    - destruct Hfail as [current [-> [Hne [Hp [e Hr]]]]].
      unfold invoke, handler. cbn [ui]. rewrite handleMagicEdit_eq.
      rewrite Hne, Hp. cbn [negb orb]. cbv zeta. rewrite Hr.
      unfold frozen; cbn; rewrite Hne; repeat split.
    - destruct Hfail as [current [-> [Hne [Hk [e Hr]]]]].
      unfold invoke, handler. cbn [ui]. rewrite handleUpscale_eq.
      rewrite Hne. cbn [negb]. rewrite Hk. cbn [snd]. cbv zeta. rewrite Hr.
      unfold frozen; cbn; rewrite Hne; repeat split. }
  destruct H as [Hf [Hst [Hh [Hc Hp]]]].
  destruct (handleAll_frozen events
              {| machine := fst (invoke w a m); isDragging := dragging |} Hf)
    as [Ks [Ku _]].
  cbn [machine] in Ks, Ku.
  split; [|split; [|split; [|split]]]; try exact Ks;
    destruct Ku as [->| ->]; cbn [dismissed status history currentImage editPrompt];
    assumption.
Qed.

Lemma failure_is_final_witness :
  let events := [(Sample.fair, OnControl EmbroideryButton);
                 (Sample.fair, OnControl UpscaleButton);
                 (Sample.fair, OnControl ErrorCloseButton)] in
  let failed := fst (invoke Sample.silent Transform Sample.stitched) in
  subStepFails Sample.silent Transform (ui Sample.stitched) /\
  status (ui (machine (handleAll events {| machine := failed; isDragging := false |}))) =
    Error.
Proof.
  cbv zeta.
  assert (H : subStepFails Sample.silent Transform (ui Sample.stitched)).
  { exists "data:image/png;base64,UE5H".
    split; [vm_compute; reflexivity|]. split; [reflexivity|].
    split; [vm_compute; reflexivity|].
    left. exists "No candidates returned from Gemini API". vm_compute. reflexivity. }
  split; [exact H|].
  destruct (failure_is_final Sample.silent Transform Sample.stitched false
              [(Sample.fair, OnControl EmbroideryButton);
               (Sample.fair, OnControl UpscaleButton);
               (Sample.fair, OnControl ErrorCloseButton)] H) as [K _].
  exact K.
Defined.

Lemma tidy_start : tidy start.
Proof. split; [apply sound_start|]. left. reflexivity. Qed.

(** In a sound state the uploader is rendered exactly without history. *)
Lemma sound_truthy m :
  sound m -> truthy (currentImage (ui m)) = negb (bool_decide (history (ui m) = [])).
Proof.
  intros [Hcur [Hall _]]. rewrite Hcur.
  destruct (last (history (ui m))) as [url|] eqn:Hlast.
  - cbn [truthy]. rewrite (hasComma_nonEmpty url (last_hasComma _ _ Hall Hlast)).
    destruct (history (ui m)); [discriminate|reflexivity].
  - apply last_None in Hlast. rewrite Hlast. reflexivity.
Qed.

(** An upload started without a session keeps [tidy]. *)
Lemma select_tidy w file m :
  tidy m -> history (ui m) = [] -> tidy (fst (invoke w (SelectImage file) m)).
Proof.
  intros [Hs Ht] Hh. split; [apply invoke_sound; exact Hs|].
  destruct m as [[st orig cur prev ep mt er h] l]. cbn [ui history] in Hh. subst h.
  unfold invoke, handler. cbn [ui]. rewrite handleImageSelect_eq.
  destruct (resizeImage w file 1024); cbn; [discriminate|right; right; reflexivity|
    right; left; reflexivity].
Qed.

(** Every other operation keeps [tidy], and keeps a session a session. *)
Lemma other_tidy w a m :
  tidy m -> isSelectImage a = false ->
  tidy (fst (invoke w a m)) /\
  (history (ui m) <> [] ->
   history (ui (fst (invoke w a m))) <> [] /\
   originalImage (ui (fst (invoke w a m))) = originalImage (ui m) /\
   previewImage (ui (fst (invoke w a m))) = previewImage (ui m)).
Proof.
  intros [Hs Ht] Ha.
  pose proof (invoke_sound w a m Hs) as Hs'.
  assert (Hc : history (ui m) <> [] -> consistent (ui m)).
  { intros Hne. split; [exact Hne|]. destruct Hs as [Hcur _]. exact Hcur. }
  assert (Hkeep : history (ui m) <> [] -> history (ui (fst (invoke w a m))) <> []).
  { intros Hne. apply (invoke_consistent w a m (Hc Hne)). }
  assert (Hprev : previewImage (ui (fst (invoke w a m))) = previewImage (ui m)).
  { clear - Ha. handler_cases m a; try discriminate; reflexivity. }
  assert (Hstat : status (ui (fst (invoke w a m))) = Uploading ->
                  status (ui m) = Uploading).
  { clear - Ha. handler_cases m a; try discriminate; intros H; exact H. }
  assert (Hempty : history (ui m) = [] -> fst (invoke w a m) = m \/
            (exists text, ui (fst (invoke w a m)) =
              {| status := status (ui m); originalImage := originalImage (ui m);
                 currentImage := currentImage (ui m); previewImage := previewImage (ui m);
                 editPrompt := text; mimeType := mimeType (ui m);
                 error := error (ui m); history := history (ui m) |}) \/
            ui (fst (invoke w a m)) = dismissed (ui m)).
  { intros Hh. destruct Hs as [Hcur [_ [_ [_ [Hhist _]]]]]. cbv zeta in *.
    rewrite Hh in Hcur, Hhist. destruct Hhist as [Ho _]. clear - Ha Hh Hcur Ho.
    destruct m as [[st orig cur prev ep mt er h] l].
    cbn [ui history currentImage originalImage] in *. subst h cur orig.
    destruct a; try discriminate; unfold invoke, handler; cbn [ui];
      rewrite ?handleEmbroideryTransform_eq, ?handleMagicEdit_eq, ?handleUpscale_eq,
        ?handleUndo_eq, ?handleReset_eq; cbn; auto.
    right. left. eexists. reflexivity. }
  split.
  - split; [exact Hs'|].
    destruct (history (ui m)) as [|first rest] eqn:Hh.
    + destruct (Hempty eq_refl) as [->|[[text ->]| ->]];
        cbn [history status dismissed]; rewrite ?Hh; exact Ht.
    + assert (Hne : history (ui (fst (invoke w a m))) <> [])
        by (apply Hkeep; discriminate).
      destruct (history (ui (fst (invoke w a m)))); [contradiction|].
      intros Hu. apply Ht. apply Hstat. exact Hu.
  - intros Hne. split; [exact (Hkeep Hne)|]. split; [|exact Hprev].
    apply invoke_keeps_original. apply replacesSession_select. exact Ha.
Qed.

Lemma onEvent_select c : isSelectImage (onEvent c) = true -> exists file, c = FileInput file.
Proof. destruct c; try discriminate. intros _. eexists. reflexivity. Qed.

(** One event of the page. *)
Lemma handle_tidy w e p :
  tidy (machine p) ->
  tidy (machine (handle w e p)) /\
  (history (ui (machine p)) <> [] ->
   history (ui (machine (handle w e p))) <> [] /\
   originalImage (ui (machine (handle w e p))) = originalImage (ui (machine p)) /\
   previewImage (ui (machine (handle w e p))) = previewImage (ui (machine p))).
Proof.
  intros Ht. destruct p as [m d]. cbn [machine] in *.
  pose proof (sound_truthy m (proj1 Ht)) as Htr.
  assert (Hsame : tidy m /\ (history (ui m) <> [] -> history (ui m) <> [] /\
            originalImage (ui m) = originalImage (ui m) /\
            previewImage (ui m) = previewImage (ui m))) by (split; [exact Ht|auto]).
  assert (Hsel : forall file, truthy (currentImage (ui m)) = false ->
            tidy (fst (invoke w (SelectImage file) m)) /\
            (history (ui m) <> [] ->
             history (ui (fst (invoke w (SelectImage file) m))) <> [] /\
             originalImage (ui (fst (invoke w (SelectImage file) m))) = originalImage (ui m) /\
             previewImage (ui (fst (invoke w (SelectImage file) m))) = previewImage (ui m))).
  { intros file Hno. rewrite Hno in Htr. symmetry in Htr. apply negb_false_iff in Htr.
    apply bool_decide_eq_true in Htr. split; [apply select_tidy; assumption|].
    intros Hne. contradiction. }
  destruct e as [c| | |files|files]; cbn [handle machine isDragging].
  - unfold fire. destruct (shown c (ui m) && negb (disabled c (ui m))) eqn:He;
      [|exact Hsame].
    destruct (isSelectImage (onEvent c)) eqn:Hc.
    + destruct (onEvent_select c Hc) as [file ->]. cbn [onEvent].
      apply Hsel. cbn [shown] in He. apply andb_true_iff in He. destruct He as [He _].
      apply negb_true_iff in He. exact He.
    + apply other_tidy; assumption.
  - destruct (uploaderShown (ui m)); exact Hsame.
  - destruct (uploaderShown (ui m)); exact Hsame.
  - unfold uploaderShown. destruct (truthy (currentImage (ui m))) eqn:Hcur; cbn [negb];
      [exact Hsame|].
    unfold handleDrop. destruct (uploaderDisabled (ui m)); [exact Hsame|].
    destruct files as [|file files]; [exact Hsame|].
    destruct (startsWith (fileType file) "image/"); [|exact Hsame].
    cbn [machine]. apply Hsel. reflexivity.
  - unfold uploaderShown. destruct (truthy (currentImage (ui m))) eqn:Hcur; cbn [negb andb];
      [exact Hsame|].
    destruct (uploaderDisabled (ui m)); cbn [negb]; [exact Hsame|].
    destruct files as [|file files]; cbn [handleFileInput]; [exact Hsame|].
    cbn [machine]. apply Hsel. reflexivity.
Qed.

Lemma handleAll_tidy events : forall p,
  tidy (machine p) ->
  tidy (machine (handleAll events p)) /\
  (history (ui (machine p)) <> [] ->
   history (ui (machine (handleAll events p))) <> [] /\
   originalImage (ui (machine (handleAll events p))) = originalImage (ui (machine p)) /\
   previewImage (ui (machine (handleAll events p))) = previewImage (ui (machine p))).
Proof.
  unfold handleAll. induction events as [|[w e] events IH]; intros p Ht.
  - cbn. split; [exact Ht|auto].
  - cbn [fold_left]. change (stepPage p (w, e)) with (handle w e p).
    destruct (handle_tidy w e p Ht) as [Ht1 Hk1].
    destruct (IH _ Ht1) as [Ht2 Hk2]. split; [exact Ht2|].
    intros Hne. destruct (Hk1 Hne) as [Hne1 [Ho1 Hp1]].
    destruct (Hk2 Hne1) as [Hne2 [Ho2 Hp2]].
    split; [exact Hne2|]. split; congruence.
Qed.

(** X26. Driven through the page, the component takes one upload: once
    [history] is not empty, no event replaces the original or the preview,
    history stays non-empty and the uploader is not rendered again. *)
Theorem one_upload_per_page (before events : list (World * Event)) :
  let p := handleAll before empty in
  let after := handleAll events p in
  history (ui (machine p)) <> [] ->
  history (ui (machine after)) <> [] /\
  originalImage (ui (machine after)) = originalImage (ui (machine p)) /\
  previewImage (ui (machine after)) = previewImage (ui (machine p)) /\
  uploaderShown (ui (machine after)) = false.
Proof.
  cbv zeta. intros Hne.
  destruct (handleAll_tidy before empty tidy_start) as [Ht _].
  destruct (handleAll_tidy events _ Ht) as [Ht' Hk].
  destruct (Hk Hne) as [Hne' [Ho Hp]].
  repeat split; try assumption.
  unfold uploaderShown. rewrite (sound_truthy _ (proj1 Ht')).
  rewrite negb_involutive. apply bool_decide_eq_false. exact Hne'.
Qed.

Lemma one_upload_per_page_witness :
  let first := {| fileType := "image/png"; picked := "photo" |} in
  let second := {| fileType := "image/png"; picked := "other" |} in
  let before := [(Sample.fair, Choose [first])] in
  let events := [(Sample.fair, Choose [second]); (Sample.fair, Drop [second]);
                 (Sample.fair, OnControl (FileInput "other"));
                 (Sample.fair, OnControl EmbroideryButton)] in
  history (ui (machine (handleAll before empty))) <> [] /\
  originalImage (ui (machine (handleAll events (handleAll before empty)))) =
    originalImage (ui (machine (handleAll before empty))).
Proof.
  cbv zeta.
  assert (H : history (ui (machine (handleAll
                [(Sample.fair, Choose [{| fileType := "image/png"; picked := "photo" |}])]
                empty))) <> []) by (vm_compute; discriminate).
  split; [exact H|].
  destruct (one_upload_per_page _
              [(Sample.fair, Choose [{| fileType := "image/png"; picked := "other" |}]);
               (Sample.fair, Drop [{| fileType := "image/png"; picked := "other" |}]);
               (Sample.fair, OnControl (FileInput "other"));
               (Sample.fair, OnControl EmbroideryButton)] H) as [_ [K _]].
  exact K.
Defined.

(** X27. Driven through the page from its initial state, the overlay never
    displays its message for status uploading: whenever status is uploading
    there is no current image, so the uploader is rendered, disabled, with
    its own line below it. *)
Theorem uploading_message_never_displayed (events : list (World * Event)) :
  let s := ui (machine (handleAll events empty)) in
  overlayOnPage s <> Some "Preparing image..." /\
  (status s = Uploading ->
   currentImage s = None /\ uploaderNotice s = Some "Preparing your canvas..." /\
   uploaderDisabled s = true).
Proof.
  cbv zeta. destruct (handleAll_tidy events empty tidy_start) as [[Hs Ht] _].
  pose proof (sound_truthy _ Hs) as Htr.
  destruct Hs as [Hcur _].
  set (s := ui (machine (handleAll events empty))) in *.
  assert (Hup : status s = Uploading -> history s = []).
  { intros Hu. destruct (history s); [reflexivity|contradiction]. }
  split.
  - unfold overlayOnPage. destruct (truthy (currentImage s)) eqn:Hc; [|discriminate].
    destruct (status s) eqn:Hst; cbn; try discriminate.
    rewrite (Hup eq_refl) in Htr. discriminate.
  - intros Hu. rewrite (Hup Hu) in Hcur. cbn in Hcur.
    unfold uploaderNotice, uploaderDisabled. rewrite Hcur, Hu. repeat split.
Qed.

(** While a file is being read the page shows the line under the uploader,
    and the uploader takes no other file. *)
Example uploading_notice_example :
  let choose := Choose [{| fileType := "image/png"; picked := "photo" |}] in
  let p := handleAll [(Scene.reading, choose)] empty in
  status (ui (machine p)) = Uploading /\
  uploaderNotice (ui (machine p)) = Some "Preparing your canvas..." /\
  overlayOnPage (ui (machine p)) = None /\
  machine (handleAll [(Sample.fair, choose)] p) = machine p.
Proof. vm_compute. repeat split. Qed.

End PageFacts.
